(** * SberSaluteSpeechRecognitionService: a shallow embedding

    The service class of the repository is a sequential client: it keeps a
    bearer token, uploads a file, starts a recognition job, polls its status
    and flattens the downloaded result.  Its collaborators (axios, the clock,
    timers, music-metadata, uuid) are modelled as an environment [Env] that
    answers from the history of events; the methods are state-passing
    functions over the object's fields and the event trace. *)

From Stdlib Require Import ZArith List String Ascii Bool Lia.
Import ListNotations.
Open Scope string_scope.
Open Scope list_scope.
Open Scope Z_scope.

(** ** types.ts *)

Record SberSaluteToken := {
  access_token : string;
  expires_at : Z;
}.

(** [FileUploadResponse]: the fields of its [result] member. *)
Record FileUploadResponse := {
  request_file_id : string;
}.

(** [RecognitionResponse]: the fields of its [result] member. *)
Module RecognitionResponse.
Record t := {
  id : string;
  created_at : string;
  updated_at : string;
  status : string;
}.
End RecognitionResponse.

(** [RecognitionStatusResponse]: the fields of its [result] member. *)
Module RecognitionStatusResponse.
Record t := {
  id : string;
  created_at : string;
  updated_at : string;
  status : string;
  response_file_id : string;
}.
End RecognitionStatusResponse.

(** Recognised text is a JavaScript string: a sequence of UTF-16 code
    units.  [String.prototype.trim] depends on them, so they are kept. *)
Definition jsstring := list N.

Record Fragment := {
  text : jsstring;
  normalized_text : jsstring;
}.

Record Segment := {
  results : list Fragment;
}.

Definition RecognitionResultResponse := list Segment.

Module SpeechToTextResult.
Record t := {
  text : jsstring;
  normalizedText : jsstring;
}.
End SpeechToTextResult.

(** The part of music-metadata's [IAudioMetadata] that is read:
    [format.sampleRate] and [format.numberOfChannels], both optional. *)
Record IAudioMetadata := {
  sampleRate : option Z;
  numberOfChannels : option Z;
}.

(** ** constants.ts (not part of the sources: taken as parameters) *)

Record Constants := {
  MAX_WAIT_TIME : Z;
  RECOGNITION_POLLING_DELAY : Z;
  SPEECH_BASE_URL : string;
  SPEECH_TOKEN_URL : string;
  TOKEN_SCOPE : string;
}.

(** ** Requests, errors and events *)

Inductive Method := GET | POST.

(** The object given to [JSON.stringify] by [startRecognition]; a member
    that is [undefined] ([None]) is left out by the serialisation. *)
Module RecognizeBody.
Record options_t := {
  model : string;
  audio_encoding : string;
  sample_rate : option Z;
  channels_count : option Z;
}.
Record t := {
  options : options_t;
  request_file_id : string;
}.
End RecognizeBody.

(** The [data] of a request.  [qs.stringify] and [JSON.stringify] are kept
    symbolic: the body is the serialisation of the given value. *)
Inductive Body :=
| NoData
| RawData (s : string)
| FormData (fields : list (string * string))
| JsonData (j : RecognizeBody.t).

Inductive BodyLimit := DefaultLimit | Infinity.

Record Request := {
  method : Method;
  url : string;
  headers : list (string * string);
  data : Body;
  maxBodyLength : BodyLimit;
  rejectUnauthorized : bool;
}.

(** What is thrown: an [Error] made by the class, the rejection of an axios
    request, the rejection of [parseFile], or the [TypeError] of a member
    read on [undefined]. *)
Inductive Exn :=
| Error (message : string)
| AxiosError (message : string)
| ParseFileError (message : string)
| TypeError (message : string).

Inductive Endpoint :=
| TokenExchange | DataUpload | AsyncRecognize | TaskGet | DataDownload.

Inductive Event :=
| EvUuid
| EvParseFile (path : string)
| EvRequest (ep : Endpoint) (req : Request)
| EvDelay (ms : Z).

Definition Endpoint_eqb (a b : Endpoint) : bool :=
  match a, b with
  | TokenExchange, TokenExchange | DataUpload, DataUpload
  | AsyncRecognize, AsyncRecognize | TaskGet, TaskGet
  | DataDownload, DataDownload => true
  | _, _ => false
  end.

Definition isRequestTo (ep : Endpoint) (e : Event) : bool :=
  match e with
  | EvRequest ep' _ => Endpoint_eqb ep ep'
  | _ => false
  end.

Definition isUuid (e : Event) : bool :=
  match e with EvUuid => true | _ => false end.

Definition isDelay (e : Event) : bool :=
  match e with EvDelay _ => true | _ => false end.

(** How many requests a history holds for an endpoint. *)
Definition requestsTo (ep : Endpoint) (tr : list Event) : nat :=
  List.length (filter (isRequestTo ep) tr).

(** ** The environment

    Everything outside the class.  The clock is a function of the history
    (so [Date.now()] is an observation, and time passes only through events);
    the n-th request to an endpoint gets the n-th answer of that endpoint,
    either a rejection (with its message) or the [response.data] of a
    success.  A token answer of [None] is a falsy [response.data].
    [readFile] is the content of the files; the class never asks for it.
    [uuid] is what [import uuid from 'uuid'] binds: the default export of
    the installed package, of which only [v4] is used (its n-th call gives
    the n-th identifier), or [None] when the package has no default export
    and the binding is [undefined]. *)
Record Env := {
  clock : list Event -> Z;
  uuid : option (nat -> string);
  metadataOf : string -> string + IAudioMetadata;
  readFile : string -> option string;
  tokenReply : nat -> string + option SberSaluteToken;
  uploadReply : nat -> string + FileUploadResponse;
  recognizeReply : nat -> string + RecognitionResponse.t;
  statusReply : nat -> string + RecognitionStatusResponse.t;
  downloadReply : nat -> string + RecognitionResultResponse;
}.

(** ** The object and the state *)

Record SberSaluteSpeechRecognitionService := {
  authKey : string;
  token : option SberSaluteToken;
  sessionId : string;
}.

Record State := {
  this : SberSaluteSpeechRecognitionService;
  trace : list Event;
}.

Definition log (e : Event) (st : State) : State :=
  {| this := this st; trace := trace st ++ [e] |}.

Definition setToken (t : option SberSaluteToken) (st : State) : State :=
  {| this := {| authKey := authKey (this st); token := t;
                sessionId := sessionId (this st) |};
     trace := trace st |}.

(** ** A state and exception monad for the async methods *)

Inductive Res (A : Type) :=
| Ok (a : A)
| Throw (e : Exn).
Arguments Ok {A} a.
Arguments Throw {A} e.

Definition M (A : Type) := State -> Res A * State.

Definition ret {A} (a : A) : M A := fun st => (Ok a, st).

Definition throw {A} (e : Exn) : M A := fun st => (Throw e, st).

Definition bind {A B} (m : M A) (k : A -> M B) : M B :=
  fun st =>
    match m st with
    | (Ok a, st') => k a st'
    | (Throw e, st') => (Throw e, st')
    end.

Declare Scope async_scope.
Delimit Scope async_scope with async.
Notation "x <- m ;; k" := (bind m (fun x => k))
  (at level 61, m at next level, right associativity) : async_scope.
Notation "m ;;; k" := (bind m (fun _ => k))
  (at level 61, right associativity) : async_scope.

(** Computations that contain the polling loop carry fuel: [None] is a
    run that needs more of it. *)
Definition MF (A : Type) := State -> option (Res A * State).

Definition bindF {A B} (m : M A) (k : A -> MF B) : MF B :=
  fun st =>
    match m st with
    | (Ok a, st') => k a st'
    | (Throw e, st') => Some (Throw e, st')
    end.

Definition bindFF {A B} (m : MF A) (k : A -> MF B) : MF B :=
  fun st =>
    match m st with
    | Some (Ok a, st') => k a st'
    | Some (Throw e, st') => Some (Throw e, st')
    | None => None
    end.

Definition retF {A} (a : A) : MF A := fun st => Some (Ok a, st).

(** ** String.prototype.trim *)

(** ECMAScript WhiteSpace and LineTerminator code units. *)
Definition isWhiteSpace (c : N) : bool :=
  ((c =? 9) || (c =? 10) || (c =? 11) || (c =? 12) || (c =? 13) || (c =? 32)
   || (c =? 160) || (c =? 5760) || ((8192 <=? c) && (c <=? 8202))
   || (c =? 8232) || (c =? 8233) || (c =? 8239) || (c =? 8287)
   || (c =? 12288) || (c =? 65279))%N.

Fixpoint trimStart (s : jsstring) : jsstring :=
  match s with
  | [] => []
  | c :: s' => if isWhiteSpace c then trimStart s' else s
  end.

Definition trimEnd (s : jsstring) : jsstring := rev (trimStart (rev s)).

Definition trim (s : jsstring) : jsstring := trimEnd (trimStart s).

(** A literal of ASCII characters as a JavaScript string. *)
Definition js (s : string) : jsstring :=
  map N_of_ascii (list_ascii_of_string s).

Definition SPACE : jsstring := js " ".

(** ** The class *)

Section Service.

Context (K : Constants) (env : Env).

(** [Date.now()] *)
Definition Date_now (st : State) : Z := clock env (trace st).

(** [axios(config)]: the request is issued, and the endpoint's next answer
    is the outcome: a rejection is thrown, a success gives [response.data]. *)
Definition axios {A} (reply : Env -> nat -> string + A) (ep : Endpoint)
    (req : Request) : M A :=
  fun st =>
    match reply env (requestsTo ep (trace st)) with
    | inl m => (Throw (AxiosError m), log (EvRequest ep req) st)
    | inr d => (Ok d, log (EvRequest ep req) st)
    end.

(** [sessionId || uuid.v4()]: an absent or empty [sessionId] is falsy, and
    then [v4] is read from the [uuid] binding, which throws when the binding
    is [undefined]; a truthy [sessionId] leaves the binding untouched. *)
Definition constructor (authKey' : string) (sessionId' : option string)
    (tr : list Event) : Res State :=
  let generated :=
    match uuid env with
    | None =>
        Throw (TypeError "Cannot read properties of undefined (reading 'v4')")
    | Some v4 =>
        Ok {| this := {| authKey := authKey'; token := None;
                         sessionId := v4 (List.length (filter isUuid tr)) |};
              trace := tr ++ [EvUuid] |}
    end in
  match sessionId' with
  | Some s =>
      if (s =? "")%string then generated
      else Ok {| this := {| authKey := authKey'; token := None;
                            sessionId := s |};
                 trace := tr |}
  | None => generated
  end.

(** The config object of [updateAccessToken]. *)
Definition tokenRequest (o : SberSaluteSpeechRecognitionService) : Request :=
  {| url := SPEECH_TOKEN_URL K;
     method := POST;
     headers :=
       [("Content-Type", "application/x-www-form-urlencoded");
        ("RqUID", sessionId o);
        ("Authorization", ("Basic " ++ authKey o)%string)];
     data := FormData [("scope", TOKEN_SCOPE K)];
     maxBodyLength := DefaultLimit;
     rejectUnauthorized := false |}.

Definition updateAccessToken : M unit :=
  fun st =>
    (response <- axios tokenReply TokenExchange (tokenRequest (this st)) ;;
     fun st' => (Ok tt, setToken response st'))%async st.

(** [!this.token || this.token.expires_at < Date.now() - MAX_WAIT_TIME] *)
Definition needsUpdate (st : State) : bool :=
  match token (this st) with
  | None => true
  | Some t => expires_at t <? Date_now st - MAX_WAIT_TIME K
  end.

Definition getAccessToken : M SberSaluteToken :=
  ((fun st => if needsUpdate st then updateAccessToken st else (Ok tt, st)) ;;;
   fun st =>
     match token (this st) with
     | None => (Throw (Error "Failed to get access token"), st)
     | Some t => (Ok t, st)
     end)%async.

(** The config object of [uploadFileForRecognition]. *)
Definition uploadRequest (access_token' : string) (audioFilePath : string)
    : Request :=
  {| method := POST;
     maxBodyLength := Infinity;
     url := (SPEECH_BASE_URL K ++ "/data:upload")%string;
     headers :=
       [("Authorization", ("Bearer " ++ access_token')%string);
        ("Content-Type", "audio/mpeg")];
     data := RawData audioFilePath;
     rejectUnauthorized := false |}.

Definition uploadFileForRecognition (audioFilePath : string)
    : M FileUploadResponse :=
  (t <- getAccessToken ;;
   axios uploadReply DataUpload (uploadRequest (access_token t) audioFilePath)
  )%async.

(** The config object of [startRecognition]. *)
Definition recognizeRequest (access_token' : string)
    (uploadedFile : FileUploadResponse) (fileMetadata : IAudioMetadata)
    (encoding : string) : Request :=
  {| method := POST;
     maxBodyLength := Infinity;
     url := (SPEECH_BASE_URL K ++ "/speech:async_recognize")%string;
     headers :=
       [("Content-Type", "application/json");
        ("Authorization", ("Bearer " ++ access_token')%string)];
     data :=
       JsonData
         {| RecognizeBody.options :=
              {| RecognizeBody.model := "general";
                 RecognizeBody.audio_encoding := encoding;
                 RecognizeBody.sample_rate := sampleRate fileMetadata;
                 RecognizeBody.channels_count :=
                   numberOfChannels fileMetadata |};
            RecognizeBody.request_file_id := request_file_id uploadedFile |};
     rejectUnauthorized := false |}.

Definition startRecognition (uploadedFile : FileUploadResponse)
    (fileMetadata : IAudioMetadata) (encoding : string)
    : M RecognitionResponse.t :=
  (t <- getAccessToken ;;
   axios recognizeReply AsyncRecognize
     (recognizeRequest (access_token t) uploadedFile fileMetadata encoding)
  )%async.

(** The config object of [getRecognitionStatus]. *)
Definition statusRequest (access_token' : string)
    (recognition : RecognitionResponse.t) : Request :=
  {| method := GET;
     maxBodyLength := Infinity;
     url := (SPEECH_BASE_URL K ++ "/task:get?id="
             ++ RecognitionResponse.id recognition)%string;
     headers := [("Authorization", ("Bearer " ++ access_token')%string)];
     data := NoData;
     rejectUnauthorized := false |}.

Definition getRecognitionStatus (recognition : RecognitionResponse.t)
    : M RecognitionStatusResponse.t :=
  (t <- getAccessToken ;;
   axios statusReply TaskGet (statusRequest (access_token t) recognition)
  )%async.

(** The config object of [getRecognitionResult]. *)
Definition downloadRequest (access_token' : string)
    (recognition : RecognitionStatusResponse.t) : Request :=
  {| method := GET;
     maxBodyLength := Infinity;
     url := (SPEECH_BASE_URL K ++ "/data:download?response_file_id="
             ++ RecognitionStatusResponse.response_file_id recognition)%string;
     headers := [("Authorization", ("Bearer " ++ access_token')%string)];
     data := NoData;
     rejectUnauthorized := false |}.

Definition getRecognitionResult (recognition : RecognitionStatusResponse.t)
    : M RecognitionResultResponse :=
  (t <- getAccessToken ;;
   axios downloadReply DataDownload
     (downloadRequest (access_token t) recognition)
  )%async.

Definition delay (ms : Z) : M unit :=
  fun st => (Ok tt, log (EvDelay ms) st).

(** [await parseFile(audioPath)] of music-metadata. *)
Definition parseFile (audioPath : string) : M IAudioMetadata :=
  fun st =>
    match metadataOf env audioPath with
    | inl m => (Throw (ParseFileError m), log (EvParseFile audioPath) st)
    | inr d => (Ok d, log (EvParseFile audioPath) st)
    end.

(** The two [reduce] chains of [speechToText], each with its [trim]. *)
Definition reduceText (recognitionResult : RecognitionResultResponse)
    : jsstring :=
  trim
    (fold_left
       (fun acc item =>
          acc ++ fold_left (fun acc item => acc ++ SPACE ++ text item)
                   (results item) [])
       recognitionResult []).

Definition reduceNormalizedText (recognitionResult : RecognitionResultResponse)
    : jsstring :=
  trim
    (fold_left
       (fun acc item =>
          acc ++ fold_left (fun acc item => acc ++ SPACE ++ normalized_text item)
                   (results item) [])
       recognitionResult []).

(** Lines 202-224: the returned object. *)
Definition aggregate (recognitionResult : RecognitionResultResponse)
    : SpeechToTextResult.t :=
  {| SpeechToTextResult.text := reduceText recognitionResult;
     SpeechToTextResult.normalizedText :=
       reduceNormalizedText recognitionResult |}.

(** The [while] loop of [speechToText], entered with the status of the
    query before it. *)
Fixpoint pollLoop (fuel : nat) (startTime : Z)
    (recognitionResponse : RecognitionResponse.t)
    (recognitionStatus : RecognitionStatusResponse.t)
    : MF RecognitionStatusResponse.t :=
  fun st =>
    match fuel with
    | O => None
    | S fuel' =>
        if (RecognitionStatusResponse.status recognitionStatus =? "DONE")%string
        then Some (Ok recognitionStatus, st)
        else if Date_now st - startTime >? MAX_WAIT_TIME K
        then Some (Throw (Error "Recognition timeout"), st)
        else
          bindF (delay (RECOGNITION_POLLING_DELAY K) ;;;
                 getRecognitionStatus recognitionResponse)%async
            (pollLoop fuel' startTime recognitionResponse) st
    end.

(** Lines 184-197: the polling stage. *)
Definition pollRecognition (fuel : nat)
    (recognitionResponse : RecognitionResponse.t)
    : MF RecognitionStatusResponse.t :=
  fun st =>
    let startTime := Date_now st in
    bindF (getRecognitionStatus recognitionResponse)
      (pollLoop fuel startTime recognitionResponse) st.

Definition speechToText (fuel : nat) (audioPath : string) (encoding : string)
    : MF SpeechToTextResult.t :=
  bindF (parseFile audioPath) (fun metadata =>
  bindF (uploadFileForRecognition audioPath) (fun fileUploadResponse =>
  bindF (startRecognition fileUploadResponse metadata encoding)
    (fun recognitionResponse =>
  bindFF (pollRecognition fuel recognitionResponse) (fun recognitionStatus =>
  bindF (getRecognitionResult recognitionStatus) (fun recognitionResult =>
  retF (aggregate recognitionResult)))))).

(** The state in which the loop test is evaluated for the (k+1)-th time,
    with the start time and the status it tests; [None] when the run ends
    before. *)
Fixpoint loopHead (k : nat) (recognitionResponse : RecognitionResponse.t)
    (st : State) : option (Z * RecognitionStatusResponse.t * State) :=
  match k with
  | O =>
      match getRecognitionStatus recognitionResponse st with
      | (Ok s, st') => Some (Date_now st, s, st')
      | (Throw _, _) => None
      end
  | S k' =>
      match loopHead k' recognitionResponse st with
      | Some (startTime, s, st1) =>
          if (RecognitionStatusResponse.status s =? "DONE")%string then None
          else if Date_now st1 - startTime >? MAX_WAIT_TIME K then None
          else
            match (delay (RECOGNITION_POLLING_DELAY K) ;;;
                   getRecognitionStatus recognitionResponse)%async st1 with
            | (Ok s', st2) => Some (startTime, s', st2)
            | (Throw _, _) => None
            end
      | None => None
      end
  end.

End Service.

(** ** The specification's words, for comparison with the code *)

(** "treated as stale ... when current time exceeds [expiresAt] minus a
    safety margin equal to the maximum wait time constant" *)
Definition specStale (K : Constants) (now : Z) (t : SberSaluteToken) : bool :=
  now >? expires_at t - MAX_WAIT_TIME K.

(** "a single HTTP POST carrying the raw audio bytes": the content of the
    file at the path. *)
Definition specUploadBody (env : Env) (audioFilePath : string) : option Body :=
  option_map RawData (readFile env audioFilePath).

(** "flatten all segments' fragment sequences in order; concatenate [text]
    fields with a single leading space per fragment, then trim", and the
    same for the normalised text. *)
Definition specJoin (field : Fragment -> jsstring)
    (result : RecognitionResultResponse) : jsstring :=
  trim (List.concat (map (fun f => SPACE ++ field f) (flat_map results result))).

Definition specAggregate (result : RecognitionResultResponse)
    : SpeechToTextResult.t :=
  {| SpeechToTextResult.text := specJoin text result;
     SpeechToTextResult.normalizedText := specJoin normalized_text result |}.

(** ** Observations on traces *)

(** The stages of section 4 as they show in a trace; a token exchange is
    not one of them, it can precede any request. *)
Inductive Stage := SMetadata | SUpload | SStart | SQuery | SDelay | SDownload.

Definition endpointStage (ep : Endpoint) : list Stage :=
  match ep with
  | TokenExchange => []
  | DataUpload => [SUpload]
  | AsyncRecognize => [SStart]
  | TaskGet => [SQuery]
  | DataDownload => [SDownload]
  end.

Definition stageOf (e : Event) : list Stage :=
  match e with
  | EvUuid => []
  | EvParseFile _ => [SMetadata]
  | EvRequest ep _ => endpointStage ep
  | EvDelay _ => [SDelay]
  end.

Definition stages (tr : list Event) : list Stage := flat_map stageOf tr.

(** [k] further rounds of the loop: a delay, then a query. *)
Definition polling (k : nat) : list Stage :=
  List.concat (repeat [SDelay; SQuery] k).

(** A complete run that polls [k] more times after the first query. *)
Definition pipeline (k : nat) : list Stage :=
  [SMetadata; SUpload; SStart; SQuery] ++ polling k ++ [SDownload].

Fixpoint getHeader (name : string) (hs : list (string * string))
    : option string :=
  match hs with
  | [] => None
  | (n, v) :: hs' => if (n =? name)%string then Some v else getHeader name hs'
  end.

(** Every token exchange of the list carries the session identifier. *)
Definition carryRqUID (sid : string) (tr : list Event) : Prop :=
  Forall (fun e =>
            match e with
            | EvRequest TokenExchange req =>
                getHeader "RqUID" (headers req) = Some sid
            | _ => True
            end) tr.

(** What a run shows: its stages, the session identifier on its token
    exchanges, and no identifier generated. *)
Definition footprint (sid : string) (new : list Event) (ss : list Stage) : Prop :=
  stages new = ss /\ carryRqUID sid new /\ filter isUuid new = [].

Definition Stage_eqb (a b : Stage) : bool :=
  match a, b with
  | SMetadata, SMetadata | SUpload, SUpload | SStart, SStart
  | SQuery, SQuery | SDelay, SDelay | SDownload, SDownload => true
  | _, _ => false
  end.

Definition countStage (s : Stage) (ss : list Stage) : nat :=
  List.length (filter (Stage_eqb s) ss).

(** The events of a list other than token exchanges. *)
Definition withoutTokenExchanges (tr : list Event) : list Event :=
  filter (fun e => negb (isRequestTo TokenExchange e)) tr.

(** The outcome of a request from the endpoint's answer. *)
Definition answer {A} (a : string + A) : Res A :=
  match a with
  | inl m => Throw (AxiosError m)
  | inr d => Ok d
  end.

(** Token exchanges only, each with the session identifier. *)
Definition tokenExchanges (sid : string) (tok : list Event) : Prop :=
  Forall (fun e => exists req, e = EvRequest TokenExchange req
                               /\ getHeader "RqUID" (headers req) = Some sid) tok.

(** The two ways the accessor fails. *)
Definition tokenFailure (env : Env) (e : Exn) : Prop :=
  e = Error "Failed to get access token"
  \/ exists n m, tokenReply env n = inl m /\ e = AxiosError m.

(** The token endpoint answers every exchange with a token. *)
Definition tokensGranted (env : Env) : Prop :=
  forall n, exists t, tokenReply env n = inr (Some t).

(** The status endpoint answers every query, and never with DONE. *)
Definition neverDone (env : Env) : Prop :=
  forall n, exists s,
    statusReply env n = inr s /\ RecognitionStatusResponse.status s <> "DONE".

(** Time does not stand still: from any history on, once enough events
    have happened the clock is more than the maximum wait later. *)
Definition clockProgresses (K : Constants) (env : Env) : Prop :=
  forall tr0, exists bound,
    forall tr, (bound <= List.length tr)%nat ->
               clock env tr - clock env tr0 > MAX_WAIT_TIME K.

(** The thrown values that exist: the two errors the class makes, and the
    rejections of its collaborators. *)
Definition thrownBy (env : Env) (audioPath : string) (e : Exn) : Prop :=
  e = Error "Failed to get access token"
  \/ e = Error "Recognition timeout"
  \/ (exists m, metadataOf env audioPath = inl m /\ e = ParseFileError m)
  \/ (exists n m, tokenReply env n = inl m /\ e = AxiosError m)
  \/ (exists n m, uploadReply env n = inl m /\ e = AxiosError m)
  \/ (exists n m, recognizeReply env n = inl m /\ e = AxiosError m)
  \/ (exists n m, statusReply env n = inl m /\ e = AxiosError m)
  \/ (exists n m, downloadReply env n = inl m /\ e = AxiosError m).

(** ** Scenarios *)

Definition K0 : Constants :=
  {| MAX_WAIT_TIME := 60000;
     RECOGNITION_POLLING_DELAY := 1000;
     SPEECH_BASE_URL := "https://smartspeech.sber.ru/rest/v1";
     SPEECH_TOKEN_URL := "https://ngw.devices.sberbank.ru:9443/api/v2/oauth";
     TOKEN_SCOPE := "SALUTE_SPEECH_PERS" |}.

Definition job0 : RecognitionResponse.t :=
  {| RecognitionResponse.id := "job-1";
     RecognitionResponse.created_at := "2024-01-01T00:00:00Z";
     RecognitionResponse.updated_at := "2024-01-01T00:00:00Z";
     RecognitionResponse.status := "NEW" |}.

Definition statusOf (s : string) : RecognitionStatusResponse.t :=
  {| RecognitionStatusResponse.id := "job-1";
     RecognitionStatusResponse.created_at := "2024-01-01T00:00:00Z";
     RecognitionStatusResponse.updated_at := "2024-01-01T00:00:01Z";
     RecognitionStatusResponse.status := s;
     RecognitionStatusResponse.response_file_id := "response-1" |}.

(** An environment in which the file exists and upload and start succeed;
    the clock and the token, status and download answers are given. *)
Definition scenario (clock' : list Event -> Z)
    (tokenReply' : nat -> string + option SberSaluteToken)
    (statusReply' : nat -> string + RecognitionStatusResponse.t)
    (downloadReply' : nat -> string + RecognitionResultResponse) : Env :=
  {| clock := clock';
     uuid := Some (fun _ => "3f1c2a9e-5b7d-4c1a-9e2f-0a1b2c3d4e5f");
     metadataOf := fun _ =>
       inr {| sampleRate := Some 16000; numberOfChannels := Some 1 |};
     readFile := fun p =>
       if (p =? "voice.mp3")%string then Some "ID3 audio frames" else None;
     tokenReply := tokenReply';
     uploadReply := fun _ => inr {| request_file_id := "file-1" |};
     recognizeReply := fun _ => inr job0;
     statusReply := statusReply';
     downloadReply := downloadReply' |}.

Definition helloResult : RecognitionResultResponse :=
  [ {| results := [ {| text := js "hello world";
                       normalized_text := js "hello world" |} ] |} ].

Definition tokenUntil (expiry : Z) : SberSaluteToken :=
  {| access_token := "bearer-1"; expires_at := expiry |}.

Definition holding (t : option SberSaluteToken) : State :=
  {| this := {| authKey := "a2V5"; token := t; sessionId := "session-1" |};
     trace := [] |}.

(** The clock shows 1 000 500; a token that expired at 1 000 000 is held. *)
Definition envExpired : Env :=
  scenario (fun _ => 1000500)
    (fun _ => inr (Some (tokenUntil 5000000)))
    (fun _ => inr (statusOf "DONE"))
    (fun _ => inr helloResult).

(** The token endpoint answers with an empty body. *)
Definition envNoToken : Env :=
  scenario (fun _ => 1000500)
    (fun _ => inr None)
    (fun _ => inr (statusOf "DONE"))
    (fun _ => inr helloResult).

(** Every token the endpoint gives has expired long ago; the first status
    is DONE. *)
Definition envStaleTokens : Env :=
  scenario (fun _ => 1000500)
    (fun _ => inr (Some (tokenUntil 0)))
    (fun _ => inr (statusOf "DONE"))
    (fun _ => inr helloResult).

(** The first status query takes 59.5 s and says RUNNING, every delay takes
    one second, the second status query says DONE. *)
Definition envLateDone : Env :=
  scenario
    (fun tr => (if (1 <=? requestsTo TaskGet tr)%nat then 59500 else 0)
               + 1000 * Z.of_nat (List.length (filter isDelay tr)))
    (fun _ => inr (Some (tokenUntil 5000000)))
    (fun n => match n with
              | O => inr (statusOf "RUNNING")
              | _ => inr (statusOf "DONE")
              end)
    (fun _ => inr helloResult).

(** The status is never DONE, and every event takes 25 s. *)
Definition envNeverDone : Env :=
  scenario (fun tr => 25000 * Z.of_nat (List.length tr))
    (fun _ => inr (Some (tokenUntil 5000000)))
    (fun _ => inr (statusOf "RUNNING"))
    (fun _ => inr helloResult).

(** Statuses NEW, RUNNING, DONE; every event takes 100 ms, and the clock
    stops after 50 s. *)
Definition envThreeQueries : Env :=
  scenario (fun tr => 100 * Z.min (Z.of_nat (List.length tr)) 500)
    (fun _ => inr (Some (tokenUntil 5000000)))
    (fun n => match n with
              | O => inr (statusOf "NEW")
              | S O => inr (statusOf "RUNNING")
              | _ => inr (statusOf "DONE")
              end)
    (fun _ => inr helloResult).

(** ** Further observations *)

(** The rounds of the loop as events: a delay, then a status query, once
    for each bearer token of the list. *)
Definition pollRounds (K : Constants) (recognition : RecognitionResponse.t)
    (ts : list string) : list Event :=
  flat_map
    (fun t => [EvDelay (RECOGNITION_POLLING_DELAY K);
               EvRequest TaskGet (statusRequest K t recognition)])
    ts.

(** What a call of a method "get the token, then one request" leaves: at
    most one token exchange; and either the accessor failed and no request
    was made, or the one request was made with the token that is now stored
    and the outcome is the endpoint's answer. *)
Definition bearerOutcome {A} (env : Env) (reply : Env -> nat -> string + A)
    (ep : Endpoint) (mkRequest : string -> Request)
    (st : State) (r : Res A) (st' : State) : Prop :=
  exists new,
    trace st' = trace st ++ new
    /\ (requestsTo TokenExchange new <= 1)%nat
    /\ ((withoutTokenExchanges new = []
         /\ exists e, r = Throw e /\ tokenFailure env e)
        \/ (exists t,
              token (this st') = Some t
              /\ withoutTokenExchanges new
                 = [EvRequest ep (mkRequest (access_token t))]
              /\ r = answer (reply env (requestsTo ep (trace st))))).

(** A string that neither begins nor ends with white space. *)
Definition trimmed (s : jsstring) : Prop :=
  (forall c s', s = c :: s' -> isWhiteSpace c = false)
  /\ (forall s' c, s = s' ++ [c] -> isWhiteSpace c = false).

(** All the fragments of a result, in order. *)
Definition fragments (result : RecognitionResultResponse) : list Fragment :=
  flat_map results result.

(** A timer does not fire early, and the clock does not go back. *)
Definition timersWait (K : Constants) (env : Env) : Prop :=
  forall tr,
    clock env tr + RECOGNITION_POLLING_DELAY K
    <= clock env (tr ++ [EvDelay (RECOGNITION_POLLING_DELAY K)]).

Definition clockMonotone (env : Env) : Prop :=
  forall tr e, clock env tr <= clock env (tr ++ [e]).

(** Every token the endpoint gives passes the accessor's test for good. *)
Definition tokensLast (K : Constants) (env : Env) : Prop :=
  forall n t tr,
    tokenReply env n = inr (Some t) ->
    clock env tr <= expires_at t + MAX_WAIT_TIME K.

(** The held token passes the accessor's test for good. *)
Definition settled (K : Constants) (env : Env) (st : State) : Prop :=
  exists t,
    token (this st) = Some t
    /\ forall tr, clock env tr <= expires_at t + MAX_WAIT_TIME K.

(** The first exchange is rejected, the second gives a token. *)
Definition envRetry : Env :=
  scenario (fun _ => 1000500)
    (fun n => match n with
              | O => inl "Request failed with status code 500"
              | _ => inr (Some (tokenUntil 5000000))
              end)
    (fun _ => inr (statusOf "DONE"))
    (fun _ => inr helloResult).

(** The token endpoint rejects every exchange. *)
Definition envRejected : Env :=
  scenario (fun _ => 1000500)
    (fun _ => inl "Request failed with status code 401")
    (fun _ => inr (statusOf "DONE"))
    (fun _ => inr helloResult).

(** The installed uuid package has no default export. *)
Definition envNoDefaultExport : Env :=
  {| clock := fun _ => 1000500;
     uuid := None;
     metadataOf := fun _ =>
       inr {| sampleRate := Some 16000; numberOfChannels := Some 1 |};
     readFile := fun _ => None;
     tokenReply := fun _ => inr (Some (tokenUntil 5000000));
     uploadReply := fun _ => inr {| request_file_id := "file-1" |};
     recognizeReply := fun _ => inr job0;
     statusReply := fun _ => inr (statusOf "DONE");
     downloadReply := fun _ => inr helloResult |}.

(** The file cannot be read. *)
Definition envNoFile : Env :=
  {| clock := fun _ => 1000500;
     uuid := Some (fun _ => "3f1c2a9e-5b7d-4c1a-9e2f-0a1b2c3d4e5f");
     metadataOf := fun _ => inl "ENOENT: no such file or directory";
     readFile := fun _ => None;
     tokenReply := fun _ => inr (Some (tokenUntil 5000000));
     uploadReply := fun _ => inr {| request_file_id := "file-1" |};
     recognizeReply := fun _ => inr job0;
     statusReply := fun _ => inr (statusOf "DONE");
     downloadReply := fun _ => inr helloResult |}.

(** ** Where a run stops *)

(** What a rejected request throws. *)
Definition rejection {A} (a : string + A) : option Exn :=
  match a with
  | inl m => Some (AxiosError m)
  | inr _ => None
  end.

(** What an event makes the call throw, by the answer the environment gives
    to it after the history [hist]: the rejection of the metadata reader or
    of the endpoint, with its message; for a token exchange also the error
    of the accessor when the answer has no token; nothing when the event is
    answered well. *)
Definition failureOf (env : Env) (hist : list Event) (e : Event)
    : option Exn :=
  match e with
  | EvUuid => None
  | EvDelay _ => None
  | EvParseFile path =>
      match metadataOf env path with
      | inl m => Some (ParseFileError m)
      | inr _ => None
      end
  | EvRequest TokenExchange _ =>
      match tokenReply env (requestsTo TokenExchange hist) with
      | inl m => Some (AxiosError m)
      | inr None => Some (Error "Failed to get access token")
      | inr (Some _) => None
      end
  | EvRequest DataUpload _ =>
      rejection (uploadReply env (requestsTo DataUpload hist))
  | EvRequest AsyncRecognize _ =>
      rejection (recognizeReply env (requestsTo AsyncRecognize hist))
  | EvRequest TaskGet _ =>
      rejection (statusReply env (requestsTo TaskGet hist))
  | EvRequest DataDownload _ =>
      rejection (downloadReply env (requestsTo DataDownload hist))
  end.

(** Every event of the list, in its turn after [hist], is answered well. *)
Fixpoint answered (env : Env) (hist : list Event) (l : list Event) : Prop :=
  match l with
  | [] => True
  | e :: l' => failureOf env hist e = None /\ answered env (hist ++ [e]) l'
  end.

(** The events [new] after [hist] end with the one that failed: all before
    it were answered well, and [e] is what its answer makes the call
    throw. *)
Definition failedAt (env : Env) (hist new : list Event) (e : Exn) : Prop :=
  exists pre last,
    new = pre ++ [last]
    /\ answered env hist pre
    /\ failureOf env (hist ++ pre) last = Some e.

(** The events [new] after [hist] end in a timeout: every event was answered
    well, the last is a status query whose answer is not DONE, and after it
    the clock is more than the maximum wait past its reading after the start
    request. *)
Definition timedOut (K : Constants) (env : Env) (hist new : list Event)
    (e : Exn) : Prop :=
  e = Error "Recognition timeout"
  /\ answered env hist new
  /\ (exists pre req s,
        new = pre ++ [EvRequest TaskGet req]
        /\ statusReply env (requestsTo TaskGet (hist ++ pre)) = inr s
        /\ RecognitionStatusResponse.status s <> "DONE")
  /\ (exists head req tail,
        new = head ++ [EvRequest AsyncRecognize req] ++ tail
        /\ clock env (hist ++ new)
           - clock env (hist ++ head ++ [EvRequest AsyncRecognize req])
           > MAX_WAIT_TIME K).

(** A call of a method "get the token, then one request", said in full from
    the state before it and the answers of the environment.  With a token
    held that passes the accessor's test, the one event is the request, made
    with that token.  Otherwise a token exchange comes first: when it is
    rejected the rejection is thrown and nothing else happens; when it has
    no token the stored token is cleared and the accessor's error is thrown;
    when it has one, that token is stored and the request is made with it.
    The outcome of the request is the endpoint's answer to it. *)
Definition bearerCall {A} (K : Constants) (env : Env)
    (reply : Env -> nat -> string + A) (ep : Endpoint)
    (mkRequest : string -> Request)
    (st : State) (r : Res A) (st' : State) : Prop :=
  let exchange := EvRequest TokenExchange (tokenRequest K (this st)) in
  let outcome := answer (reply env (requestsTo ep (trace st))) in
  if needsUpdate K env st then
    match tokenReply env (requestsTo TokenExchange (trace st)) with
    | inl m => r = Throw (AxiosError m) /\ st' = log exchange st
    | inr None =>
        r = Throw (Error "Failed to get access token")
        /\ st' = setToken None (log exchange st)
    | inr (Some t) =>
        r = outcome
        /\ st' = log (EvRequest ep (mkRequest (access_token t)))
                   (setToken (Some t) (log exchange st))
    end
  else
    exists t,
      token (this st) = Some t
      /\ r = outcome
      /\ st' = log (EvRequest ep (mkRequest (access_token t))) st.

(** * Properties *)

(** ** Traces *)

Lemma requestsTo_app ep tr1 tr2 :
  requestsTo ep (tr1 ++ tr2) = (requestsTo ep tr1 + requestsTo ep tr2)%nat.
Proof. unfold requestsTo. now rewrite filter_app, length_app. Qed.

Lemma stages_app tr1 tr2 : stages (tr1 ++ tr2) = stages tr1 ++ stages tr2.
Proof. unfold stages. now rewrite flat_map_app. Qed.

Lemma withoutTokenExchanges_app tr1 tr2 :
  withoutTokenExchanges (tr1 ++ tr2)
  = withoutTokenExchanges tr1 ++ withoutTokenExchanges tr2.
Proof. unfold withoutTokenExchanges. now rewrite filter_app. Qed.

Lemma carryRqUID_app sid tr1 tr2 :
  carryRqUID sid tr1 -> carryRqUID sid tr2 -> carryRqUID sid (tr1 ++ tr2).
Proof. unfold carryRqUID. intros H1 H2. apply Forall_app. now split. Qed.

(** ** The token accessor *)

Section Token.

Context (K : Constants) (env : Env).

(** A held token that passes the test is returned as it is. *)
Lemma getAccessToken_held st t :
  token (this st) = Some t ->
  needsUpdate K env st = false ->
  getAccessToken K env st = (Ok t, st).
Proof.
  intros Ht Hn. unfold getAccessToken, bind. rewrite Hn, Ht. reflexivity.
Qed.

(** When the test fails there is one exchange, and its answer decides. *)
Lemma getAccessToken_exchange st :
  needsUpdate K env st = true ->
  getAccessToken K env st =
    let st1 := log (EvRequest TokenExchange (tokenRequest K (this st))) st in
    match tokenReply env (requestsTo TokenExchange (trace st)) with
    | inl m => (Throw (AxiosError m), st1)
    | inr None => (Throw (Error "Failed to get access token"), setToken None st1)
    | inr (Some t) => (Ok t, setToken (Some t) st1)
    end.
Proof.
  intros Hn. unfold getAccessToken, bind at 1. rewrite Hn.
  unfold updateAccessToken, bind, axios.
  destruct (tokenReply env (requestsTo TokenExchange (trace st)))
    as [m | [t | ]]; reflexivity.
Qed.

(** With no token held, the accessor exchanges once and stores the answer. *)
Lemma getAccessToken_absent st :
  token (this st) = None ->
  getAccessToken K env st =
    let st1 := log (EvRequest TokenExchange (tokenRequest K (this st))) st in
    match tokenReply env (requestsTo TokenExchange (trace st)) with
    | inl m => (Throw (AxiosError m), st1)
    | inr None => (Throw (Error "Failed to get access token"), setToken None st1)
    | inr (Some t) => (Ok t, setToken (Some t) st1)
    end.
Proof.
  intros Ht. apply getAccessToken_exchange. unfold needsUpdate. now rewrite Ht.
Qed.

(** The code's test: a held token is replaced only once the clock is more
    than [MAX_WAIT_TIME] past its expiry. *)
Lemma needsUpdate_held st t :
  token (this st) = Some t ->
  needsUpdate K env st = (expires_at t + MAX_WAIT_TIME K <? Date_now env st).
Proof.
  intros Ht. unfold needsUpdate. rewrite Ht.
  destruct (Z.ltb_spec (expires_at t) (Date_now env st - MAX_WAIT_TIME K));
    destruct (Z.ltb_spec (expires_at t + MAX_WAIT_TIME K) (Date_now env st));
    (reflexivity || lia).
Qed.

(** What one call can do to the state: the key and the session identifier
    stay, and the trace grows by nothing or by one token exchange. *)
Lemma getAccessToken_effect st r st' :
  getAccessToken K env st = (r, st') ->
  authKey (this st') = authKey (this st)
  /\ sessionId (this st') = sessionId (this st)
  /\ (trace st' = trace st
      \/ trace st' = trace st ++ [EvRequest TokenExchange (tokenRequest K (this st))]).
Proof.
  intros H. destruct (needsUpdate K env st) eqn:Hn.
  - rewrite (getAccessToken_exchange st Hn) in H. cbv zeta in H.
    destruct (tokenReply env (requestsTo TokenExchange (trace st)))
      as [m | [t | ]]; inversion H; subst; cbn; auto.
  - unfold getAccessToken, bind in H. rewrite Hn in H.
    destruct (token (this st)); inversion H; subst; auto.
Qed.

(** C6.  A held token within the freshness window (the clock has not passed
    its expiry minus the maximum wait) is returned by the accessor as it is,
    and the state, so the trace with its token exchanges, is unchanged; a
    second call right after does the same. *)
Theorem getAccessToken_fresh_token_reused st t :
  0 <= MAX_WAIT_TIME K ->
  token (this st) = Some t ->
  Date_now env st <= expires_at t - MAX_WAIT_TIME K ->
  getAccessToken K env st = (Ok t, st)
  /\ (_ <- getAccessToken K env ;; getAccessToken K env)%async st = (Ok t, st).
Proof.
  intros HK Ht Hw.
  assert (Hn : needsUpdate K env st = false).
  { rewrite (needsUpdate_held st t Ht). apply Z.ltb_ge. lia. }
  assert (H1 := getAccessToken_held st t Ht Hn).
  split; [exact H1 | ]. unfold bind. now rewrite H1.
Qed.

(** C9.  A call of the accessor after which no token is stored does not
    return a value: it throws; and when the exchange it made was answered
    without a token, what it throws is the error
    "Failed to get access token". *)
Theorem getAccessToken_without_token_throws st :
  (forall r st', getAccessToken K env st = (r, st') ->
                 token (this st') = None -> exists e, r = Throw e)
  /\ (needsUpdate K env st = true ->
      tokenReply env (requestsTo TokenExchange (trace st)) = inr None ->
      getAccessToken K env st
      = (Throw (Error "Failed to get access token"),
         setToken None
           (log (EvRequest TokenExchange (tokenRequest K (this st))) st))).
Proof.
  split.
  - intros r st' H Hnone. destruct (needsUpdate K env st) eqn:Hn.
    + rewrite (getAccessToken_exchange st Hn) in H. cbv zeta in H.
      destruct (tokenReply env (requestsTo TokenExchange (trace st)))
        as [m | [t | ]]; inversion H; subst; eauto.
      discriminate Hnone.
    + unfold getAccessToken, bind in H. rewrite Hn in H.
      destruct (token (this st)) eqn:Ht; inversion H; subst; eauto.
      congruence.
  - intros Hn Hr. rewrite (getAccessToken_exchange st Hn). cbv zeta.
    now rewrite Hr.
Qed.

End Token.

(** C1.  The clock is 500 ms past the expiry of the held token, so the
    token is stale in the specification's sense (and simply expired), and
    the accessor still returns it without any exchange: the state and its
    trace are unchanged. *)
Theorem getAccessToken_returns_expired_token :
  let st := holding (Some (tokenUntil 1000000)) in
  specStale K0 (Date_now envExpired st) (tokenUntil 1000000) = true
  /\ expires_at (tokenUntil 1000000) < Date_now envExpired st
  /\ getAccessToken K0 envExpired st = (Ok (tokenUntil 1000000), st).
Proof. cbv zeta. repeat split. Qed.

Lemma getAccessToken_fresh_token_reused_witness :
  getAccessToken K0 envExpired (holding (Some (tokenUntil 5000000)))
  = (Ok (tokenUntil 5000000), holding (Some (tokenUntil 5000000)))
  /\ (_ <- getAccessToken K0 envExpired ;; getAccessToken K0 envExpired)%async
       (holding (Some (tokenUntil 5000000)))
     = (Ok (tokenUntil 5000000), holding (Some (tokenUntil 5000000))).
Proof.
  apply (getAccessToken_fresh_token_reused K0 envExpired
           (holding (Some (tokenUntil 5000000))) (tokenUntil 5000000)).
  - vm_compute. discriminate.
  - reflexivity.
  - vm_compute. discriminate.
Defined.

Lemma getAccessToken_without_token_throws_witness :
  getAccessToken K0 envNoToken (holding None)
  = (Throw (Error "Failed to get access token"),
     setToken None
       (log (EvRequest TokenExchange (tokenRequest K0 (this (holding None))))
          (holding None))).
Proof.
  apply (proj2 (getAccessToken_without_token_throws K0 envNoToken (holding None)));
    reflexivity.
Defined.

(** ** The aggregation *)

Lemma fold_left_append {A} (f : A -> jsstring) (l : list A) (init : jsstring) :
  fold_left (fun acc item => acc ++ f item) l init = init ++ List.concat (map f l).
Proof.
  revert init. induction l as [| x l IH]; intros init; cbn.
  - now rewrite app_nil_r.
  - rewrite IH. now rewrite app_assoc.
Qed.

Lemma concat_segments (field : Fragment -> jsstring)
    (result : RecognitionResultResponse) :
  List.concat
    (map (fun item => List.concat (map (fun f => SPACE ++ field f) (results item)))
       result)
  = List.concat (map (fun f => SPACE ++ field f) (flat_map results result)).
Proof.
  induction result as [| seg result IH]; cbn [map flat_map List.concat];
    [reflexivity | ].
  now rewrite map_app, concat_app, IH.
Qed.

Lemma reduce_chain (field : Fragment -> jsstring)
    (result : RecognitionResultResponse) :
  fold_left
    (fun acc item =>
       acc ++ fold_left (fun acc item => acc ++ SPACE ++ field item)
                (results item) [])
    result []
  = List.concat (map (fun f => SPACE ++ field f) (flat_map results result)).
Proof.
  rewrite (fold_left_append
             (fun item => fold_left (fun acc item => acc ++ SPACE ++ field item)
                            (results item) [])).
  cbn [app]. rewrite <- concat_segments. f_equal. apply map_ext.
  intros seg. now rewrite (fold_left_append (fun f => SPACE ++ field f)).
Qed.

Lemma flat_map_empty_segments n :
  flat_map results (repeat {| results := [] |} n) = [].
Proof. induction n; cbn; auto. Qed.

(** C5.  The two [reduce] chains of the code compute what the
    specification describes: all fragments in order, each text preceded by
    one space, the whole trimmed, and the same independently for the
    normalised text; the two fragments a/A and b/B give "a b" and "A B",
    and any number of segments without fragments give two empty strings. *)
Theorem aggregate_joins_fragments :
  (forall result, aggregate result = specAggregate result)
  /\ aggregate
       [ {| results := [ {| text := js "a"; normalized_text := js "A" |};
                         {| text := js "b"; normalized_text := js "B" |} ] |} ]
     = {| SpeechToTextResult.text := js "a b";
          SpeechToTextResult.normalizedText := js "A B" |}
  /\ (forall n, aggregate (repeat {| results := [] |} n)
                = {| SpeechToTextResult.text := js "";
                     SpeechToTextResult.normalizedText := js "" |}).
Proof.
  assert (H : forall result, aggregate result = specAggregate result).
  { intros result. unfold aggregate, specAggregate, reduceText,
      reduceNormalizedText, specJoin.
    now rewrite (reduce_chain text), (reduce_chain normalized_text). }
  split; [exact H | split; [reflexivity | ]].
  intros n. rewrite H. unfold specAggregate, specJoin.
  now rewrite flat_map_empty_segments.
Qed.

(** ** Requests with a bearer token *)

Lemma tokenExchanges_nil sid : tokenExchanges sid [].
Proof. constructor. Qed.

Lemma tokenExchanges_stages sid tok : tokenExchanges sid tok -> stages tok = [].
Proof.
  induction 1 as [| e tok (req & -> & _) _ IH]; [reflexivity | ].
  cbn. exact IH.
Qed.

Lemma tokenExchanges_without sid tok :
  tokenExchanges sid tok -> withoutTokenExchanges tok = [].
Proof.
  induction 1 as [| e tok (req & -> & _) _ IH]; [reflexivity | ].
  cbn. exact IH.
Qed.

Lemma tokenExchanges_requestsTo sid tok ep :
  tokenExchanges sid tok -> Endpoint_eqb ep TokenExchange = false ->
  requestsTo ep tok = 0%nat.
Proof.
  intros H Hep. induction H as [| e tok (req & -> & _) _ IH]; [reflexivity | ].
  unfold requestsTo in *. cbn. now rewrite Hep.
Qed.

Lemma tokenExchanges_no_delay sid tok :
  tokenExchanges sid tok -> filter isDelay tok = [].
Proof.
  induction 1 as [| e tok (req & -> & _) _ IH]; [reflexivity | ].
  cbn. exact IH.
Qed.

Lemma tokenExchanges_no_uuid sid tok :
  tokenExchanges sid tok -> filter isUuid tok = [].
Proof.
  induction 1 as [| e tok (req & -> & _) _ IH]; [reflexivity | ].
  cbn. exact IH.
Qed.

Lemma tokenExchanges_carry sid tok : tokenExchanges sid tok -> carryRqUID sid tok.
Proof.
  unfold tokenExchanges, carryRqUID. intros H.
  eapply Forall_impl; [ | exact H]. intros e (req & -> & Hh). exact Hh.
Qed.

Section Requests.

Context (K : Constants) (env : Env).

(** A call of the accessor adds token exchanges only, keeps the session
    identifier, and fails only in the two ways. *)
Lemma getAccessToken_cases sid st :
  sessionId (this st) = sid ->
  exists tok st',
    tokenExchanges sid tok /\ sessionId (this st') = sid
    /\ trace st' = trace st ++ tok
    /\ ((exists e, getAccessToken K env st = (Throw e, st') /\ tokenFailure env e)
        \/ (exists t, getAccessToken K env st = (Ok t, st'))).
Proof.
  intros Hsid.
  assert (Hex : tokenExchanges sid
                  [EvRequest TokenExchange (tokenRequest K (this st))]).
  { constructor; [ | constructor]. eexists; split; [reflexivity | ].
    cbn. now rewrite Hsid. }
  destruct (needsUpdate K env st) eqn:Hn.
  - pose proof (getAccessToken_exchange K env st Hn) as H. cbv zeta in H.
    destruct (tokenReply env (requestsTo TokenExchange (trace st)))
      as [m | [t | ]] eqn:Hr.
    + exists [EvRequest TokenExchange (tokenRequest K (this st))],
        (log (EvRequest TokenExchange (tokenRequest K (this st))) st).
      repeat split; auto. left. exists (AxiosError m).
      split; [exact H | right; eauto].
    + exists [EvRequest TokenExchange (tokenRequest K (this st))],
        (setToken (Some t)
           (log (EvRequest TokenExchange (tokenRequest K (this st))) st)).
      repeat split; auto. right. exists t. exact H.
    + exists [EvRequest TokenExchange (tokenRequest K (this st))],
        (setToken None
           (log (EvRequest TokenExchange (tokenRequest K (this st))) st)).
      repeat split; auto. left. eexists. split; [exact H | now left].
  - unfold getAccessToken, bind. rewrite Hn.
    exists [], st. rewrite app_nil_r.
    split; [apply tokenExchanges_nil | split; [exact Hsid | split; [reflexivity | ]]].
    destruct (token (this st)).
    + right. eexists. reflexivity.
    + left. eexists. split; [reflexivity | ]. now left.
Qed.

(** A method of the form "get the token, then one request". *)
Lemma authorized_cases {A} (reply : Env -> nat -> string + A) (ep : Endpoint)
    (f : SberSaluteToken -> Request) sid st :
  Endpoint_eqb ep TokenExchange = false ->
  sessionId (this st) = sid ->
  exists tok st',
    tokenExchanges sid tok /\ sessionId (this st') = sid
    /\ ((exists e,
           (t <- getAccessToken K env ;; axios env reply ep (f t))%async st
           = (Throw e, st')
           /\ trace st' = trace st ++ tok /\ tokenFailure env e)
        \/ (exists t,
              (t <- getAccessToken K env ;; axios env reply ep (f t))%async st
              = (answer (reply env (requestsTo ep (trace st))), st')
              /\ trace st' = trace st ++ tok ++ [EvRequest ep (f t)])).
Proof.
  intros Hep Hsid.
  destruct (getAccessToken_cases sid st Hsid)
    as (tok & st1 & Htok & Hsid1 & Htr & [(e & Heq & He) | (t & Heq)]).
  - exists tok, st1. split; [exact Htok | split; [exact Hsid1 | left]].
    exists e. unfold bind. rewrite Heq. auto.
  - exists tok, (log (EvRequest ep (f t)) st1).
    split; [exact Htok | split; [exact Hsid1 | right]].
    exists t. unfold bind. rewrite Heq. unfold axios.
    rewrite Htr, requestsTo_app, (tokenExchanges_requestsTo sid tok ep Htok Hep).
    rewrite Nat.add_0_r. cbn [log trace]. rewrite Htr, <- app_assoc.
    destruct (reply env (requestsTo ep (trace st))); auto.
Qed.

(** The request of the upload: a POST whose body is the path it was given. *)
Lemma uploadFileForRecognition_request audioFilePath st t st1 :
  getAccessToken K env st = (Ok t, st1) ->
  uploadFileForRecognition K env audioFilePath st
  = (answer (uploadReply env (requestsTo DataUpload (trace st1))),
     log (EvRequest DataUpload (uploadRequest K (access_token t) audioFilePath))
       st1)
  /\ method (uploadRequest K (access_token t) audioFilePath) = POST
  /\ data (uploadRequest K (access_token t) audioFilePath) = RawData audioFilePath.
Proof.
  intros H. unfold uploadFileForRecognition, bind. rewrite H. unfold axios.
  destruct (uploadReply env (requestsTo DataUpload (trace st1))); auto.
Qed.

End Requests.

(** C2.  With a valid token held, the upload of "voice.mp3" issues one POST
    with the audio content type and the bearer token and returns the
    response body; the request body is the path string "voice.mp3" itself,
    not the content of the file at that path. *)
Theorem uploadFileForRecognition_sends_path_as_body :
  let st := holding (Some (tokenUntil 5000000)) in
  let req := uploadRequest K0 "bearer-1" "voice.mp3" in
  uploadFileForRecognition K0 envExpired "voice.mp3" st
  = (Ok {| request_file_id := "file-1" |}, log (EvRequest DataUpload req) st)
  /\ method req = POST
  /\ getHeader "Content-Type" (headers req) = Some "audio/mpeg"
  /\ getHeader "Authorization" (headers req) = Some "Bearer bearer-1"
  /\ data req = RawData "voice.mp3"
  /\ specUploadBody envExpired "voice.mp3" = Some (RawData "ID3 audio frames")
  /\ Some (data req) <> specUploadBody envExpired "voice.mp3".
Proof. cbv zeta. repeat split. discriminate. Qed.

(** ** The polling stage *)

Ltac trace_norm :=
  repeat rewrite ?requestsTo_app, ?stages_app, ?filter_app,
    ?withoutTokenExchanges_app.

Ltac tok_facts :=
  repeat match goal with
    | H : tokenExchanges _ ?tok |- context [stages ?tok] =>
        rewrite (tokenExchanges_stages _ _ H)
    | H : tokenExchanges _ ?tok |- context [withoutTokenExchanges ?tok] =>
        rewrite (tokenExchanges_without _ _ H)
    | H : tokenExchanges _ ?tok |- context [filter isDelay ?tok] =>
        rewrite (tokenExchanges_no_delay _ _ H)
    | H : tokenExchanges _ ?tok |- context [filter isUuid ?tok] =>
        rewrite (tokenExchanges_no_uuid _ _ H)
    | H : tokenExchanges _ ?tok |- context [requestsTo ?ep ?tok] =>
        rewrite (tokenExchanges_requestsTo _ _ ep H eq_refl)
    end.

Section Polling.

Context (K : Constants) (env : Env).

Lemma getRecognitionStatus_cases recognition sid st :
  sessionId (this st) = sid ->
  exists tok st',
    tokenExchanges sid tok /\ sessionId (this st') = sid
    /\ ((exists e,
           getRecognitionStatus K env recognition st = (Throw e, st')
           /\ trace st' = trace st ++ tok /\ tokenFailure env e)
        \/ (exists t,
              getRecognitionStatus K env recognition st
              = (answer (statusReply env (requestsTo TaskGet (trace st))), st')
              /\ trace st' = trace st ++ tok
                             ++ [EvRequest TaskGet
                                   (statusRequest K (access_token t) recognition)])).
Proof.
  intros Hsid.
  exact (authorized_cases K env statusReply TaskGet
           (fun t => statusRequest K (access_token t) recognition)
           sid st eq_refl Hsid).
Qed.

(** A status query that returned did issue its request last, and what it
    returned is the endpoint's next answer. *)
Lemma getRecognitionStatus_Ok recognition st s st' :
  getRecognitionStatus K env recognition st = (Ok s, st') ->
  statusReply env (requestsTo TaskGet (trace st)) = inr s
  /\ exists tok t,
       tokenExchanges (sessionId (this st)) tok
       /\ trace st' = trace st ++ tok
                      ++ [EvRequest TaskGet
                            (statusRequest K (access_token t) recognition)].
Proof.
  intros H.
  destruct (getRecognitionStatus_cases recognition _ st eq_refl)
    as (tok & st1 & Htok & _ & [(e & Heq & _) | (t & Heq & Htr)]);
    rewrite Heq in H.
  - discriminate H.
  - destruct (statusReply env (requestsTo TaskGet (trace st))) as [m | d];
      cbn in H; inversion H; subst. eauto.
Qed.

Lemma delay_then_status recognition st :
  (delay (RECOGNITION_POLLING_DELAY K) ;;;
   getRecognitionStatus K env recognition)%async st
  = getRecognitionStatus K env recognition
      (log (EvDelay (RECOGNITION_POLLING_DELAY K)) st).
Proof. reflexivity. Qed.

(** The loop test that finds a status other than DONE after the maximum
    wait ends the loop with the timeout error, in the state it is in. *)
Lemma pollLoop_timeout fuel startTime recognition s st :
  RecognitionStatusResponse.status s <> "DONE" ->
  Date_now env st - startTime > MAX_WAIT_TIME K ->
  pollLoop K env (S fuel) startTime recognition s st
  = Some (Throw (Error "Recognition timeout"), st).
Proof.
  intros Hs Ht. cbn [pollLoop].
  apply String.eqb_neq in Hs. rewrite Hs.
  destruct (Z.gtb_spec (Date_now env st - startTime) (MAX_WAIT_TIME K));
    [reflexivity | lia].
Qed.

(** A status of DONE ends the loop at once, whatever the clock shows. *)
Lemma pollLoop_done fuel startTime recognition s st :
  RecognitionStatusResponse.status s = "DONE" ->
  pollLoop K env (S fuel) startTime recognition s st = Some (Ok s, st).
Proof.
  intros Hs. cbn [pollLoop]. apply String.eqb_eq in Hs. now rewrite Hs.
Qed.

(** Otherwise the loop waits, queries again, and goes on. *)
Lemma pollLoop_continue fuel startTime recognition s st :
  RecognitionStatusResponse.status s <> "DONE" ->
  Date_now env st - startTime <= MAX_WAIT_TIME K ->
  pollLoop K env (S fuel) startTime recognition s st
  = bindF (getRecognitionStatus K env recognition)
      (pollLoop K env fuel startTime recognition)
      (log (EvDelay (RECOGNITION_POLLING_DELAY K)) st).
Proof.
  intros Hs Ht. cbn [pollLoop].
  apply String.eqb_neq in Hs. rewrite Hs.
  destruct (Z.gtb_spec (Date_now env st - startTime) (MAX_WAIT_TIME K));
    [lia | reflexivity].
Qed.

(** The run of the stage up to a loop test is the run of the loop from it. *)
Lemma pollRecognition_from_loopHead k :
  forall fuel recognition st startTime s st1,
    loopHead K env k recognition st = Some (startTime, s, st1) ->
    startTime = Date_now env st
    /\ pollRecognition K env (k + fuel) recognition st
       = pollLoop K env fuel startTime recognition s st1.
Proof.
  induction k as [| k IH]; intros fuel recognition st startTime s st1 H.
  - cbn [loopHead] in H. unfold pollRecognition, bindF. cbn [Nat.add].
    destruct (getRecognitionStatus K env recognition st) as [[s0 | e] st0];
      inversion H; subst. auto.
  - cbn [loopHead] in H.
    destruct (loopHead K env k recognition st) as [[[start0 s0] st0] | ] eqn:Hk;
      [ | discriminate H].
    destruct (IH (S fuel) recognition st start0 s0 st0 Hk) as [Hstart Hrun].
    destruct (RecognitionStatusResponse.status s0 =? "DONE")%string eqn:Hs;
      [discriminate H | ].
    destruct (Z.gtb_spec (Date_now env st0 - start0) (MAX_WAIT_TIME K)) as [Hgt | Hle];
      [discriminate H | ].
    rewrite delay_then_status in H.
    replace (S k + fuel)%nat with (k + S fuel)%nat by lia.
    rewrite Hrun.
    rewrite (pollLoop_continue fuel start0 recognition s0 st0
               (proj1 (String.eqb_neq _ _) Hs) Hle).
    unfold bindF.
    destruct (getRecognitionStatus K env recognition
                (log (EvDelay (RECOGNITION_POLLING_DELAY K)) st0))
      as [[s' | e] st'];
      inversion H; subst. auto.
Qed.

Lemma loopHead_last_event k :
  forall recognition st startTime s st1,
    loopHead K env k recognition st = Some (startTime, s, st1) ->
    exists pre t,
      trace st1 = pre ++ [EvRequest TaskGet
                            (statusRequest K (access_token t) recognition)].
Proof.
  intros recognition st startTime s st1 H.
  destruct k as [| k]; cbn [loopHead] in H.
  - destruct (getRecognitionStatus K env recognition st) as [[s0 | e] st0] eqn:Hq;
      inversion H; subst.
    destruct (getRecognitionStatus_Ok _ _ _ _ Hq) as (_ & tok & t & _ & Htr).
    exists (trace st ++ tok), t. now rewrite Htr, app_assoc.
  - destruct (loopHead K env k recognition st) as [[[start0 s0] st0] | ];
      [ | discriminate H].
    destruct (RecognitionStatusResponse.status s0 =? "DONE")%string;
      [discriminate H | ].
    destruct (Date_now env st0 - start0 >? MAX_WAIT_TIME K); [discriminate H | ].
    rewrite delay_then_status in H.
    destruct (getRecognitionStatus K env recognition
                (log (EvDelay (RECOGNITION_POLLING_DELAY K)) st0))
      as [[s' | e] st'] eqn:Hq; inversion H; subst.
    destruct (getRecognitionStatus_Ok _ _ _ _ Hq) as (_ & tok & t & _ & Htr).
    eexists (_ ++ tok), t. now rewrite Htr, app_assoc.
Qed.

(** C3 (as amended).  When the loop test, at any of its evaluations, has a
    status other than DONE from the query just made and finds the clock more
    than the maximum wait after the start time (read once, before the first
    query), the stage fails with the error "Recognition timeout" in the very
    state of that test: the last event of the run is the status query that
    was just answered, and nothing follows it. *)
Theorem pollRecognition_timeout k fuel recognition st startTime s st1 :
  loopHead K env k recognition st = Some (startTime, s, st1) ->
  RecognitionStatusResponse.status s <> "DONE" ->
  Date_now env st1 - startTime > MAX_WAIT_TIME K ->
  startTime = Date_now env st
  /\ pollRecognition K env (S k + fuel) recognition st
     = Some (Throw (Error "Recognition timeout"), st1)
  /\ exists pre t,
       trace st1 = pre ++ [EvRequest TaskGet
                             (statusRequest K (access_token t) recognition)].
Proof.
  intros Hk Hs Ht.
  destruct (pollRecognition_from_loopHead k (S fuel) recognition st _ _ _ Hk)
    as [Hstart Hrun].
  split; [exact Hstart | split].
  - replace (S k + fuel)%nat with (k + S fuel)%nat by lia.
    rewrite Hrun. now apply pollLoop_timeout.
  - exact (loopHead_last_event k _ _ _ _ _ Hk).
Qed.

(** The loop ends when the clock progresses, whatever the answers are. *)
Lemma pollLoop_terminates startTime recognition bound :
  (forall tr, (bound <= List.length tr)%nat ->
              clock env tr - startTime > MAX_WAIT_TIME K) ->
  forall rounds s st,
    (bound <= List.length (trace st) + rounds)%nat ->
    exists fuel r st',
      pollLoop K env fuel startTime recognition s st = Some (r, st').
Proof.
  intros Hclock. induction rounds as [| rounds IH]; intros s st Hb;
    destruct (String.eqb_spec (RecognitionStatusResponse.status s) "DONE")
      as [Hd | Hd];
    try (exists 1%nat, (Ok s), st; now apply pollLoop_done).
  - exists 1%nat, (Throw (Error "Recognition timeout")), st.
    apply pollLoop_timeout; [exact Hd | ]. apply Hclock. lia.
  - destruct (Z_gt_le_dec (Date_now env st - startTime) (MAX_WAIT_TIME K))
      as [Hgt | Hle].
    { exists 1%nat, (Throw (Error "Recognition timeout")), st.
      now apply pollLoop_timeout. }
    set (d := EvDelay (RECOGNITION_POLLING_DELAY K)).
    destruct (getRecognitionStatus K env recognition (log d st))
      as [[s1 | e] st1] eqn:Hq.
    + destruct (getRecognitionStatus_Ok _ _ _ _ Hq) as (_ & tok & t & _ & Htr).
      destruct (IH s1 st1) as (fuel & r & st' & Hrun).
      { rewrite Htr. cbn [log trace]. rewrite !length_app. cbn. lia. }
      exists (S fuel), r, st'.
      rewrite (pollLoop_continue fuel startTime recognition s st Hd Hle).
      fold d. unfold bindF. now rewrite Hq.
    + exists 1%nat, (Throw e), st1.
      rewrite (pollLoop_continue 0 startTime recognition s st Hd Hle).
      fold d. unfold bindF. now rewrite Hq.
Qed.

Lemma pollRecognition_terminates recognition st :
  clockProgresses K env ->
  exists fuel r st', pollRecognition K env fuel recognition st = Some (r, st').
Proof.
  intros Hp. destruct (Hp (trace st)) as (bound & Hclock).
  unfold pollRecognition, bindF.
  destruct (getRecognitionStatus K env recognition st) as [[s1 | e] st1].
  - apply (pollLoop_terminates (Date_now env st) recognition bound Hclock
             bound s1 st1). lia.
  - exists 0%nat, (Throw e), st1. reflexivity.
Qed.

Lemma speechToText_terminates audioPath encoding st :
  clockProgresses K env ->
  exists fuel r st',
    speechToText K env fuel audioPath encoding st = Some (r, st').
Proof.
  intros Hp. unfold speechToText. unfold bindF at 1.
  destruct (parseFile env audioPath st) as [[metadata | e] st0];
    [ | exists 0%nat, (Throw e), st0; reflexivity].
  unfold bindF at 1.
  destruct (uploadFileForRecognition K env audioPath st0)
    as [[fileUploadResponse | e] st1];
    [ | exists 0%nat, (Throw e), st1; reflexivity].
  unfold bindF at 1.
  destruct (startRecognition K env fileUploadResponse metadata encoding st1)
    as [[recognitionResponse | e] st2];
    [ | exists 0%nat, (Throw e), st2; reflexivity].
  destruct (pollRecognition_terminates recognitionResponse st2 Hp)
    as (fuel & r3 & st3 & Hrun).
  exists fuel. unfold bindFF. rewrite Hrun.
  destruct r3 as [recognitionStatus | e]; [ | eauto].
  unfold bindF, retF.
  destruct (getRecognitionResult K env recognitionStatus st3)
    as [[recognitionResult | e] st4]; eauto.
Qed.

End Polling.

Lemma pollRecognition_timeout_witness :
  exists st1,
    pollRecognition K0 envNeverDone 2 job0 (holding (Some (tokenUntil 5000000)))
    = Some (Throw (Error "Recognition timeout"), st1).
Proof.
  eexists.
  refine (proj1 (proj2 (pollRecognition_timeout K0 envNeverDone 1 0 job0
                          (holding (Some (tokenUntil 5000000))) _ _ _ _ _ _))).
  - vm_compute. reflexivity.
  - vm_compute. discriminate.
  - vm_compute. reflexivity.
Defined.

(** C3, the claim as stated fails.  The first status query is answered
    RUNNING after 59.5 s; after the polling delay the clock is 60.5 s past
    the start, more than the maximum wait of 60 s, and no query has returned
    DONE; the loop still makes its second query, which returns DONE, and the
    stage succeeds. *)
Lemma pollRecognition_succeeds_after_max_wait :
  let st := holding (Some (tokenUntil 5000000)) in
  let q := EvRequest TaskGet (statusRequest K0 "bearer-1" job0) in
  let d := EvDelay (RECOGNITION_POLLING_DELAY K0) in
  statusReply envLateDone 0 = inr (statusOf "RUNNING")
  /\ clock envLateDone (trace st ++ [q; d]) - Date_now envLateDone st
     > MAX_WAIT_TIME K0
  /\ pollRecognition K0 envLateDone 2 job0 st
     = Some (Ok (statusOf "DONE"),
             {| this := this st; trace := trace st ++ [q; d; q] |}).
Proof. cbv zeta. repeat split. Qed.

Section GrantedTokens.

Context (K : Constants) (env : Env).

Lemma getAccessToken_granted sid st :
  tokensGranted env ->
  sessionId (this st) = sid ->
  exists tok t st',
    tokenExchanges sid tok /\ sessionId (this st') = sid
    /\ trace st' = trace st ++ tok
    /\ getAccessToken K env st = (Ok t, st').
Proof.
  intros Hg Hsid. destruct (needsUpdate K env st) eqn:Hn.
  - pose proof (getAccessToken_exchange K env st Hn) as H. cbv zeta in H.
    destruct (Hg (requestsTo TokenExchange (trace st))) as [t Ht].
    rewrite Ht in H.
    exists [EvRequest TokenExchange (tokenRequest K (this st))], t.
    eexists. split; [ | split; [ | split; [ | exact H]]].
    + constructor; [ | constructor]. eexists. split; [reflexivity | ].
      cbn. now rewrite Hsid.
    + exact Hsid.
    + reflexivity.
  - unfold needsUpdate in Hn.
    destruct (token (this st)) as [t | ] eqn:Ht; [ | discriminate Hn].
    exists [], t, st. rewrite app_nil_r.
    split; [apply tokenExchanges_nil | split; [exact Hsid | split; [reflexivity | ]]].
    apply getAccessToken_held; [exact Ht | ].
    unfold needsUpdate. now rewrite Ht.
Qed.

Lemma getRecognitionStatus_granted recognition st :
  tokensGranted env ->
  exists tok t st',
    tokenExchanges (sessionId (this st)) tok
    /\ getRecognitionStatus K env recognition st
       = (answer (statusReply env (requestsTo TaskGet (trace st))), st')
    /\ trace st' = trace st ++ tok
                   ++ [EvRequest TaskGet (statusRequest K (access_token t) recognition)].
Proof.
  intros Hg.
  destruct (getAccessToken_granted _ st Hg eq_refl)
    as (tok & t & st1 & Htok & _ & Htr & Heq).
  exists tok, t, (log (EvRequest TaskGet
                         (statusRequest K (access_token t) recognition)) st1).
  split; [exact Htok | ].
  unfold getRecognitionStatus, bind. rewrite Heq. unfold axios.
  rewrite Htr, requestsTo_app,
    (tokenExchanges_requestsTo _ tok TaskGet Htok eq_refl), Nat.add_0_r.
  cbn [log trace]. rewrite Htr, <- app_assoc.
  destruct (statusReply env (requestsTo TaskGet (trace st))); auto.
Qed.

(** C4.  When the token endpoint grants its tokens, the next three status
    answers are a, b, c with only c saying DONE, and the clock never shows
    more than the maximum wait after the start, the stage returns c; apart
    from token exchanges its events are exactly: a status query, the polling
    delay, a status query, the polling delay, a status query; and the URL of
    a status query is the one of the job's id, whatever the token. *)
Theorem pollRecognition_three_queries fuel recognition st a b c :
  tokensGranted env ->
  statusReply env (requestsTo TaskGet (trace st)) = inr a ->
  statusReply env (S (requestsTo TaskGet (trace st))) = inr b ->
  statusReply env (S (S (requestsTo TaskGet (trace st)))) = inr c ->
  RecognitionStatusResponse.status a <> "DONE" ->
  RecognitionStatusResponse.status b <> "DONE" ->
  RecognitionStatusResponse.status c = "DONE" ->
  (forall tr, clock env tr - clock env (trace st) <= MAX_WAIT_TIME K) ->
  (exists st' new t1 t2 t3,
     pollRecognition K env (3 + fuel) recognition st = Some (Ok c, st')
     /\ trace st' = trace st ++ new
     /\ withoutTokenExchanges new
        = [EvRequest TaskGet (statusRequest K t1 recognition);
           EvDelay (RECOGNITION_POLLING_DELAY K);
           EvRequest TaskGet (statusRequest K t2 recognition);
           EvDelay (RECOGNITION_POLLING_DELAY K);
           EvRequest TaskGet (statusRequest K t3 recognition)])
  /\ (forall t, url (statusRequest K t recognition)
                = (SPEECH_BASE_URL K ++ "/task:get?id="
                   ++ RecognitionResponse.id recognition)%string).
Proof.
  intros Hg Ha Hb Hc Hna Hnb Hdone Hclock. split; [ | reflexivity].
  set (n0 := requestsTo TaskGet (trace st)) in *.
  set (d := EvDelay (RECOGNITION_POLLING_DELAY K)).
  destruct (getRecognitionStatus_granted recognition st Hg)
    as (tok1 & t1 & st1 & Htok1 & Hq1 & Htr1).
  fold n0 in Hq1. rewrite Ha in Hq1. cbn [answer] in Hq1.
  destruct (getRecognitionStatus_granted recognition (log d st1) Hg)
    as (tok2 & t2 & st2 & Htok2 & Hq2 & Htr2).
  assert (H1 : requestsTo TaskGet (trace (log d st1)) = S n0).
  { cbn [log trace]. rewrite Htr1. trace_norm. tok_facts. fold n0.
    cbn. lia. }
  rewrite H1, Hb in Hq2. cbn [answer] in Hq2.
  destruct (getRecognitionStatus_granted recognition (log d st2) Hg)
    as (tok3 & t3 & st3 & Htok3 & Hq3 & Htr3).
  assert (H2 : requestsTo TaskGet (trace (log d st2)) = S (S n0)).
  { cbn [log trace]. rewrite Htr2. trace_norm. tok_facts. rewrite H1.
    cbn. lia. }
  rewrite H2, Hc in Hq3. cbn [answer] in Hq3.
  exists st3,
    ((tok1 ++ [EvRequest TaskGet (statusRequest K (access_token t1) recognition)])
     ++ [d]
     ++ (tok2 ++ [EvRequest TaskGet (statusRequest K (access_token t2) recognition)])
     ++ [d]
     ++ (tok3 ++ [EvRequest TaskGet (statusRequest K (access_token t3) recognition)])),
    (access_token t1), (access_token t2), (access_token t3).
  split; [ | split].
  - unfold pollRecognition, bindF. rewrite Hq1.
    change (3 + fuel)%nat with (S (S (S fuel))).
    rewrite (pollLoop_continue K env _ _ _ _ _ Hna (Hclock (trace st1))).
    fold d. unfold bindF. rewrite Hq2.
    rewrite (pollLoop_continue K env _ _ _ _ _ Hnb (Hclock (trace st2))).
    fold d. unfold bindF. rewrite Hq3.
    now apply pollLoop_done.
  - rewrite Htr3. cbn [log trace]. rewrite Htr2. cbn [log trace]. rewrite Htr1.
    repeat rewrite <- app_assoc. reflexivity.
  - trace_norm. tok_facts. reflexivity.
Qed.

(** A job that is never DONE: once the clock is past the maximum wait for
    good, the loop ends with the timeout error, from any of its tests. *)
Lemma pollLoop_never_DONE startTime recognition bound :
  tokensGranted env -> neverDone env ->
  (forall tr, (bound <= List.length tr)%nat ->
              clock env tr - startTime > MAX_WAIT_TIME K) ->
  forall rounds s st,
    RecognitionStatusResponse.status s <> "DONE" ->
    (bound <= List.length (trace st) + rounds)%nat ->
    exists fuel st',
      pollLoop K env fuel startTime recognition s st
      = Some (Throw (Error "Recognition timeout"), st').
Proof.
  intros Hg Hnd Hclock. induction rounds as [| rounds IH]; intros s st Hs Hb.
  - exists 1%nat, st. apply pollLoop_timeout; [exact Hs | ].
    apply Hclock. lia.
  - destruct (Z_gt_le_dec (Date_now env st - startTime) (MAX_WAIT_TIME K))
      as [Hgt | Hle].
    + exists 1%nat, st. now apply pollLoop_timeout.
    + set (d := EvDelay (RECOGNITION_POLLING_DELAY K)).
      destruct (getRecognitionStatus_granted recognition (log d st) Hg)
        as (tok & t & st1 & _ & Hq & Htr).
      destruct (Hnd (requestsTo TaskGet (trace (log d st)))) as (s1 & Hr & Hs1).
      rewrite Hr in Hq. cbn [answer] in Hq.
      destruct (IH s1 st1 Hs1) as (fuel & st' & Hrun).
      { rewrite Htr. cbn [log trace]. rewrite !length_app. cbn. lia. }
      exists (S fuel), st'.
      rewrite (pollLoop_continue K env fuel startTime recognition s st Hs Hle).
      fold d. unfold bindF. now rewrite Hq.
Qed.

(** The same for the stage: with enough fuel it fails with the timeout
    error. *)
Lemma pollRecognition_never_DONE recognition bound st :
  tokensGranted env -> neverDone env ->
  (forall tr, (bound <= List.length tr)%nat ->
              clock env tr - Date_now env st > MAX_WAIT_TIME K) ->
  exists fuel st',
    pollRecognition K env fuel recognition st
    = Some (Throw (Error "Recognition timeout"), st').
Proof.
  intros Hg Hnd Hclock.
  destruct (getRecognitionStatus_granted recognition st Hg)
    as (tok & t & st1 & _ & Hq & Htr).
  destruct (Hnd (requestsTo TaskGet (trace st))) as (s1 & Hr & Hs1).
  rewrite Hr in Hq. cbn [answer] in Hq.
  destruct (pollLoop_never_DONE (Date_now env st) recognition bound Hg Hnd Hclock
              bound s1 st1 Hs1) as (fuel & st' & Hrun); [lia | ].
  exists fuel, st'. unfold pollRecognition, bindF. now rewrite Hq.
Qed.

End GrantedTokens.

Lemma pollRecognition_three_queries_witness :
  exists st' new t1 t2 t3,
    pollRecognition K0 envThreeQueries 3 job0 (holding (Some (tokenUntil 5000000)))
    = Some (Ok (statusOf "DONE"), st')
    /\ trace st' = trace (holding (Some (tokenUntil 5000000))) ++ new
    /\ withoutTokenExchanges new
       = [EvRequest TaskGet (statusRequest K0 t1 job0);
          EvDelay (RECOGNITION_POLLING_DELAY K0);
          EvRequest TaskGet (statusRequest K0 t2 job0);
          EvDelay (RECOGNITION_POLLING_DELAY K0);
          EvRequest TaskGet (statusRequest K0 t3 job0)].
Proof.
  refine (proj1 (pollRecognition_three_queries K0 envThreeQueries 0 job0
                   (holding (Some (tokenUntil 5000000)))
                   (statusOf "NEW") (statusOf "RUNNING") (statusOf "DONE")
                   _ _ _ _ _ _ _ _)).
  - intros n. eexists. reflexivity.
  - reflexivity.
  - reflexivity.
  - reflexivity.
  - vm_compute. discriminate.
  - vm_compute. discriminate.
  - reflexivity.
  - intros tr. unfold envThreeQueries, scenario, holding, K0.
    cbn [clock trace MAX_WAIT_TIME List.length]. lia.
Defined.

(** ** Whole runs *)

Lemma footprint_nil sid : footprint sid [] [].
Proof. repeat split. constructor. Qed.

Lemma footprint_app sid n1 n2 s1 s2 :
  footprint sid n1 s1 -> footprint sid n2 s2 ->
  footprint sid (n1 ++ n2) (s1 ++ s2).
Proof.
  intros (H1 & H2 & H3) (H4 & H5 & H6). unfold footprint.
  rewrite stages_app, filter_app, H1, H3, H4, H6.
  auto using carryRqUID_app.
Qed.

Lemma footprint_tok sid tok : tokenExchanges sid tok -> footprint sid tok [].
Proof.
  intros H. unfold footprint.
  rewrite (tokenExchanges_stages _ _ H), (tokenExchanges_no_uuid _ _ H).
  auto using tokenExchanges_carry.
Qed.

Lemma footprint_request sid ep req :
  Endpoint_eqb ep TokenExchange = false ->
  footprint sid [EvRequest ep req] (endpointStage ep).
Proof.
  intros Hep. unfold footprint, carryRqUID. cbn. rewrite app_nil_r.
  repeat split. constructor; [ | constructor].
  destruct ep; (discriminate Hep || exact I).
Qed.

Lemma footprint_delay sid ms : footprint sid [EvDelay ms] [SDelay].
Proof. repeat split. constructor; [exact I | constructor]. Qed.

Lemma footprint_parse sid p : footprint sid [EvParseFile p] [SMetadata].
Proof. repeat split. constructor; [exact I | constructor]. Qed.

Lemma polling_S k : polling (S k) = [SDelay; SQuery] ++ polling k.
Proof. reflexivity. Qed.

Ltac thrown :=
  unfold thrownBy, tokenFailure in *;
  repeat match goal with
    | H : _ \/ _ |- _ => destruct H
    | H : exists _, _ |- _ => destruct H
    | H : _ /\ _ |- _ => destruct H
    end;
  subst; eauto 14.

Section Runs.

Context (K : Constants) (env : Env).

(** A method of the form "get the token, then one request", seen from its
    result: the accessor failed, or the request was made and answered. *)
Lemma authorized_run {A} (reply : Env -> nat -> string + A) (ep : Endpoint)
    (f : SberSaluteToken -> Request) sid st (r : Res A) st' :
  Endpoint_eqb ep TokenExchange = false ->
  sessionId (this st) = sid ->
  (t <- getAccessToken K env ;; axios env reply ep (f t))%async st = (r, st') ->
  sessionId (this st') = sid
  /\ exists new,
       trace st' = trace st ++ new
       /\ ((footprint sid new [] /\ exists e, r = Throw e /\ tokenFailure env e)
           \/ (footprint sid new (endpointStage ep)
               /\ r = answer (reply env (requestsTo ep (trace st))))).
Proof.
  intros Hep Hsid H.
  destruct (authorized_cases K env reply ep f sid st Hep Hsid)
    as (tok & st1 & Htok & Hsid1 & [(e & Heq & Htr & He) | (t & Heq & Htr)]);
    rewrite Heq in H; injection H as Hr Hst; subst r st'.
  - split; [exact Hsid1 | ]. exists tok. split; [exact Htr | left].
    split; [now apply footprint_tok | eauto].
  - split; [exact Hsid1 | ]. exists (tok ++ [EvRequest ep (f t)]).
    split; [exact Htr | right]. split; [ | reflexivity].
    change (endpointStage ep) with ([] ++ endpointStage ep).
    apply footprint_app; [now apply footprint_tok | now apply footprint_request].
Qed.

(** The loop from any of its tests: rounds of a delay and a query. *)
Lemma pollLoop_run audioPath fuel :
  forall startTime recognition s st r st' sid,
    sessionId (this st) = sid ->
    pollLoop K env fuel startTime recognition s st = Some (r, st') ->
    sessionId (this st') = sid
    /\ exists new k ss,
         trace st' = trace st ++ new /\ footprint sid new ss
         /\ match r with
            | Ok _ => ss = polling k
            | Throw e => (exists rest, ss ++ rest = polling k)
                         /\ thrownBy env audioPath e
            end.
Proof.
  induction fuel as [| fuel IH]; intros startTime recognition s st r st' sid Hsid H;
    [discriminate H | ].
  cbn [pollLoop] in H.
  destruct (RecognitionStatusResponse.status s =? "DONE")%string.
  { injection H as Hr Hst; subst r st'. split; [exact Hsid | ].
    exists [], 0%nat, []. rewrite app_nil_r.
    split; [reflexivity | split; [apply footprint_nil | reflexivity]]. }
  destruct (Date_now env st - startTime >? MAX_WAIT_TIME K).
  { injection H as Hr Hst; subst r st'. split; [exact Hsid | ].
    exists [], 0%nat, []. rewrite app_nil_r.
    split; [reflexivity | split; [apply footprint_nil | split]].
    - exists []. reflexivity.
    - unfold thrownBy. auto. }
  unfold bindF in H. rewrite delay_then_status in H.
  set (d := EvDelay (RECOGNITION_POLLING_DELAY K)) in *.
  destruct (getRecognitionStatus K env recognition (log d st)) as [r1 st1] eqn:Hq.
  unfold getRecognitionStatus in Hq.
  apply (authorized_run statusReply TaskGet _ sid) in Hq; [ | reflexivity | exact Hsid].
  destruct Hq as (Hsid1 & new1 & Htr1 & [(Hf & e & -> & He) | (Hf & ->)]).
  - injection H as Hr Hst; subst r st'. split; [exact Hsid1 | ].
    exists ([d] ++ new1), 1%nat, ([SDelay] ++ []).
    split; [ | split; [ | split]].
    + rewrite Htr1. cbn [log trace]. now rewrite <- app_assoc.
    + apply footprint_app; [apply footprint_delay | exact Hf].
    + exists [SQuery]. reflexivity.
    + thrown.
  - destruct (statusReply env (requestsTo TaskGet (trace (log d st))))
      as [m | s1] eqn:Hr; cbn [answer] in H.
    + injection H as Hr' Hst; subst r st'. split; [exact Hsid1 | ].
      exists ([d] ++ new1), 1%nat, ([SDelay] ++ endpointStage TaskGet).
      split; [ | split; [ | split]].
      * rewrite Htr1. cbn [log trace]. now rewrite <- app_assoc.
      * apply footprint_app; [apply footprint_delay | exact Hf].
      * exists []. reflexivity.
      * thrown.
    + destruct (IH startTime recognition s1 st1 r st' sid Hsid1 H)
        as (Hsid' & new2 & k & ss & Htr2 & Hf2 & Hr2).
      split; [exact Hsid' | ].
      exists (([d] ++ new1) ++ new2), (S k),
        (([SDelay] ++ endpointStage TaskGet) ++ ss).
      split; [ | split].
      * rewrite Htr2, Htr1. cbn [log trace]. now repeat rewrite <- app_assoc.
      * apply footprint_app; [ | exact Hf2].
        apply footprint_app; [apply footprint_delay | exact Hf].
      * rewrite polling_S. destruct r as [s' | e].
        -- now rewrite Hr2.
        -- destruct Hr2 as [(rest & Hrest) Hth]. split; [ | exact Hth].
           exists rest. rewrite <- Hrest. reflexivity.
Qed.

(** The polling stage: the first query, then the loop. *)
Lemma pollRecognition_run audioPath fuel recognition st r st' sid :
  sessionId (this st) = sid ->
  pollRecognition K env fuel recognition st = Some (r, st') ->
  sessionId (this st') = sid
  /\ exists new k ss,
       trace st' = trace st ++ new /\ footprint sid new ss
       /\ match r with
          | Ok _ => ss = [SQuery] ++ polling k
          | Throw e => (exists rest, ss ++ rest = [SQuery] ++ polling k)
                       /\ thrownBy env audioPath e
          end.
Proof.
  intros Hsid H. unfold pollRecognition, bindF in H.
  destruct (getRecognitionStatus K env recognition st) as [r1 st1] eqn:Hq.
  unfold getRecognitionStatus in Hq.
  apply (authorized_run statusReply TaskGet _ sid) in Hq; [ | reflexivity | exact Hsid].
  destruct Hq as (Hsid1 & new1 & Htr1 & [(Hf & e & -> & He) | (Hf & ->)]).
  - injection H as Hr Hst; subst r st'. split; [exact Hsid1 | ].
    exists new1, 0%nat, []. split; [exact Htr1 | split; [exact Hf | split]].
    + eexists. reflexivity.
    + thrown.
  - destruct (statusReply env (requestsTo TaskGet (trace st)))
      as [m | s1] eqn:Hr; cbn [answer] in H.
    + injection H as Hr' Hst; subst r st'. split; [exact Hsid1 | ].
      exists new1, 0%nat, (endpointStage TaskGet).
      split; [exact Htr1 | split; [exact Hf | split]].
      * exists []. reflexivity.
      * thrown.
    + destruct (pollLoop_run audioPath fuel _ recognition s1 st1 r st' sid Hsid1 H)
        as (Hsid' & new2 & k & ss & Htr2 & Hf2 & Hr2).
      split; [exact Hsid' | ].
      exists (new1 ++ new2), k, (endpointStage TaskGet ++ ss).
      split; [ | split].
      * rewrite Htr2, Htr1. now rewrite <- app_assoc.
      * now apply footprint_app.
      * destruct r as [s' | e].
        -- now rewrite Hr2.
        -- destruct Hr2 as [(rest & Hrest) Hth]. split; [ | exact Hth].
           exists rest. rewrite <- Hrest. reflexivity.
Qed.

Lemma pipeline_prefix_before_polling ss rest k :
  ss ++ rest = [SQuery] ++ polling k ->
  ([SMetadata] ++ [SUpload] ++ [SStart] ++ ss) ++ rest ++ [SDownload]
  = pipeline k.
Proof.
  intros H. unfold pipeline. cbn [app].
  rewrite app_assoc, H. reflexivity.
Qed.

(** One call of [speechToText], from its result: the session identifier
    stays; the stages shown by the new events are an initial part of a
    pipeline, the whole of it on success; the value is the aggregate of a
    downloaded result; what is thrown is thrown as it was made. *)
Lemma speechToText_run fuel audioPath encoding st r st' sid :
  sessionId (this st) = sid ->
  speechToText K env fuel audioPath encoding st = Some (r, st') ->
  sessionId (this st') = sid
  /\ exists new k ss,
       trace st' = trace st ++ new /\ footprint sid new ss
       /\ (exists rest, ss ++ rest = pipeline k)
       /\ match r with
          | Ok res =>
              ss = pipeline k
              /\ exists n result,
                   downloadReply env n = inr result /\ res = aggregate result
          | Throw e => thrownBy env audioPath e
          end.
Proof.
  intros Hsid H. unfold speechToText in H.
  unfold bindF at 1 in H. unfold parseFile in H.
  set (p := EvParseFile audioPath) in *.
  assert (Hsid0 : sessionId (this (log p st)) = sid) by exact Hsid.
  assert (Htr0 : trace (log p st) = trace st ++ [p]) by reflexivity.
  pose proof (footprint_parse sid audioPath) as Hf0. fold p in Hf0.
  destruct (metadataOf env audioPath) as [m | metadata] eqn:Hp.
  { injection H as Hr Hst; subst r st'. split; [exact Hsid0 | ].
    exists [p], 0%nat, [SMetadata].
    split; [exact Htr0 | split; [exact Hf0 | split]].
    - eexists. reflexivity.
    - thrown. }
  generalize dependent (log p st). intros st0 H Hsid0 Htr0.
  (* upload *)
  unfold bindF at 1 in H.
  destruct (uploadFileForRecognition K env audioPath st0) as [r1 st1] eqn:Hq1.
  unfold uploadFileForRecognition in Hq1.
  apply (authorized_run uploadReply DataUpload _ sid) in Hq1;
    [ | reflexivity | exact Hsid0].
  destruct Hq1 as (Hsid1 & new1 & Htr1 & [(Hf1 & e & -> & He) | (Hf1 & ->)]).
  { injection H as Hr Hst; subst r st'. split; [exact Hsid1 | ].
    exists ([p] ++ new1), 0%nat, ([SMetadata] ++ []).
    split; [ | split; [ | split]].
    - rewrite Htr1, Htr0. now rewrite <- app_assoc.
    - now apply footprint_app.
    - eexists. reflexivity.
    - thrown. }
  destruct (uploadReply env (requestsTo DataUpload (trace st0)))
    as [m | fileUploadResponse] eqn:Hu; cbn [answer] in H.
  { injection H as Hr Hst; subst r st'. split; [exact Hsid1 | ].
    exists ([p] ++ new1), 0%nat, ([SMetadata] ++ [SUpload]).
    split; [ | split; [ | split]].
    - rewrite Htr1, Htr0. now rewrite <- app_assoc.
    - now apply footprint_app.
    - eexists. reflexivity.
    - thrown. }
  (* start *)
  unfold bindF at 1 in H.
  destruct (startRecognition K env fileUploadResponse metadata encoding st1)
    as [r2 st2] eqn:Hq2.
  unfold startRecognition in Hq2.
  apply (authorized_run recognizeReply AsyncRecognize _ sid) in Hq2;
    [ | reflexivity | exact Hsid1].
  destruct Hq2 as (Hsid2 & new2 & Htr2 & [(Hf2 & e & -> & He) | (Hf2 & ->)]).
  { injection H as Hr Hst; subst r st'. split; [exact Hsid2 | ].
    exists ([p] ++ new1 ++ new2), 0%nat, ([SMetadata] ++ [SUpload] ++ []).
    split; [ | split; [ | split]].
    - rewrite Htr2, Htr1, Htr0. now repeat rewrite <- app_assoc.
    - repeat apply footprint_app; assumption.
    - eexists. reflexivity.
    - thrown. }
  destruct (recognizeReply env (requestsTo AsyncRecognize (trace st1)))
    as [m | recognitionResponse] eqn:Hs; cbn [answer] in H.
  { injection H as Hr Hst; subst r st'. split; [exact Hsid2 | ].
    exists ([p] ++ new1 ++ new2), 0%nat, ([SMetadata] ++ [SUpload] ++ [SStart]).
    split; [ | split; [ | split]].
    - rewrite Htr2, Htr1, Htr0. now repeat rewrite <- app_assoc.
    - repeat apply footprint_app; assumption.
    - eexists. reflexivity.
    - thrown. }
  (* polling *)
  unfold bindFF at 1 in H.
  destruct (pollRecognition K env fuel recognitionResponse st2)
    as [[r3 st3] | ] eqn:Hq3; [ | discriminate H].
  apply (pollRecognition_run audioPath _ _ _ _ _ sid Hsid2) in Hq3.
  destruct Hq3 as (Hsid3 & new3 & k & ss3 & Htr3 & Hf3 & Hr3).
  destruct r3 as [recognitionStatus | e].
  2: { injection H as Hr Hst; subst r st'. split; [exact Hsid3 | ].
       destruct Hr3 as [(rest & Hrest) Hth].
       exists ([p] ++ new1 ++ new2 ++ new3), k,
         ([SMetadata] ++ [SUpload] ++ [SStart] ++ ss3).
       split; [ | split; [ | split]].
       - rewrite Htr3, Htr2, Htr1, Htr0. now repeat rewrite <- app_assoc.
       - repeat apply footprint_app; assumption.
       - exists (rest ++ [SDownload]).
         now apply pipeline_prefix_before_polling.
       - exact Hth. }
  subst ss3.
  (* download *)
  unfold bindF at 1 in H.
  destruct (getRecognitionResult K env recognitionStatus st3) as [r4 st4] eqn:Hq4.
  unfold getRecognitionResult in Hq4.
  apply (authorized_run downloadReply DataDownload _ sid) in Hq4;
    [ | reflexivity | exact Hsid3].
  destruct Hq4 as (Hsid4 & new4 & Htr4 & [(Hf4 & e & -> & He) | (Hf4 & ->)]).
  { injection H as Hr Hst; subst r st'. split; [exact Hsid4 | ].
    exists ([p] ++ new1 ++ new2 ++ new3 ++ new4), k,
      ([SMetadata] ++ [SUpload] ++ [SStart] ++ ([SQuery] ++ polling k) ++ []).
    split; [ | split; [ | split]].
    - rewrite Htr4, Htr3, Htr2, Htr1, Htr0. now repeat rewrite <- app_assoc.
    - repeat apply footprint_app; assumption.
    - exists [SDownload]. rewrite app_nil_r.
      now apply (pipeline_prefix_before_polling _ []); rewrite app_nil_r.
    - thrown. }
  assert (Hfull :
    [SMetadata] ++ [SUpload] ++ [SStart] ++ ([SQuery] ++ polling k) ++ [SDownload]
    = pipeline k).
  { reflexivity. }
  destruct (downloadReply env (requestsTo DataDownload (trace st3)))
    as [m | recognitionResult] eqn:Hd; cbn [answer] in H.
  { injection H as Hr Hst; subst r st'. split; [exact Hsid4 | ].
    exists ([p] ++ new1 ++ new2 ++ new3 ++ new4), k,
      ([SMetadata] ++ [SUpload] ++ [SStart] ++ ([SQuery] ++ polling k)
       ++ [SDownload]).
    split; [ | split; [ | split]].
    - rewrite Htr4, Htr3, Htr2, Htr1, Htr0. now repeat rewrite <- app_assoc.
    - repeat apply footprint_app; assumption.
    - exists []. now rewrite app_nil_r.
    - thrown. }
  unfold retF in H. injection H as Hr Hst; subst r st'.
  split; [exact Hsid4 | ].
  exists ([p] ++ new1 ++ new2 ++ new3 ++ new4), k,
    ([SMetadata] ++ [SUpload] ++ [SStart] ++ ([SQuery] ++ polling k)
     ++ [SDownload]).
  split; [ | split; [ | split; [ | split]]].
  - rewrite Htr4, Htr3, Htr2, Htr1, Htr0. now repeat rewrite <- app_assoc.
  - repeat apply footprint_app; assumption.
  - exists []. now rewrite app_nil_r.
  - exact Hfull.
  - eauto.
Qed.

End Runs.

(** ** Counting requests by stages *)

Lemma countStage_app s l1 l2 :
  countStage s (l1 ++ l2) = (countStage s l1 + countStage s l2)%nat.
Proof. unfold countStage. now rewrite filter_app, length_app. Qed.

Lemma requestsTo_countStage ep s new :
  endpointStage ep = [s] ->
  requestsTo ep new = countStage s (stages new).
Proof.
  intros Hep. induction new as [| e new IH]; [reflexivity | ].
  change (e :: new) with ([e] ++ new).
  rewrite requestsTo_app, stages_app, countStage_app, IH. f_equal.
  destruct e as [ | path | ep' req | ms];
    try (destruct ep; inversion Hep; reflexivity).
  destruct ep, ep'; inversion Hep; reflexivity.
Qed.

Lemma no_delay_stage new :
  countStage SDelay (stages new) = 0%nat -> filter isDelay new = [].
Proof.
  induction new as [| e new IH]; [reflexivity | ].
  change (e :: new) with ([e] ++ new).
  rewrite stages_app, countStage_app, filter_app. intros H.
  rewrite IH by lia.
  destruct e as [ | path | ep req | ms]; try reflexivity.
  cbn in H. lia.
Qed.

Lemma countStage_polling s k :
  Stage_eqb s SDelay = false -> Stage_eqb s SQuery = false ->
  countStage s (polling k) = 0%nat.
Proof.
  intros H1 H2. induction k as [| k IH]; [reflexivity | ].
  rewrite polling_S, countStage_app, IH. unfold countStage. cbn.
  now rewrite H1, H2.
Qed.

Lemma countStage_pipeline s k :
  Stage_eqb s SDelay = false -> Stage_eqb s SQuery = false ->
  countStage s (pipeline k) = 1%nat.
Proof.
  intros H1 H2. unfold pipeline.
  rewrite !countStage_app, (countStage_polling s k H1 H2).
  destruct s; (discriminate H1 || discriminate H2 || reflexivity).
Qed.

Lemma countStage_prefix s ss rest k :
  ss ++ rest = pipeline k ->
  Stage_eqb s SDelay = false -> Stage_eqb s SQuery = false ->
  (countStage s ss <= 1)%nat.
Proof.
  intros H H1 H2. rewrite <- (countStage_pipeline s k H1 H2), <- H.
  rewrite countStage_app. lia.
Qed.

Lemma tokenFailure_not_timeout env e :
  tokenFailure env e -> e <> Error "Recognition timeout".
Proof. intros [-> | (n & m & _ & ->)]; discriminate. Qed.

(** ** A first status of DONE *)

Lemma footprint_observed sid new ss :
  footprint sid new ss ->
  countStage SDelay ss = 0%nat ->
  filter isDelay new = [] /\ requestsTo TaskGet new = countStage SQuery ss.
Proof.
  intros (Hss & _ & _) Hd. subst ss. split.
  - now apply no_delay_stage.
  - now apply requestsTo_countStage.
Qed.

(** C10.  When the answer to the first status query of a run is DONE, a
    call of [speechToText] returns with any fuel of at least one round; its
    new events hold no delay; what it returns is not the timeout error,
    whatever the clock shows at any point; and it has made exactly one
    status query, unless it failed before reaching the polling stage's
    query, in which case it made none. *)
Theorem speechToText_first_status_DONE K env fuel audioPath encoding st s :
  statusReply env (requestsTo TaskGet (trace st)) = inr s ->
  RecognitionStatusResponse.status s = "DONE" ->
  exists r st' new,
    speechToText K env (S fuel) audioPath encoding st = Some (r, st')
    /\ trace st' = trace st ++ new
    /\ filter isDelay new = []
    /\ r <> Throw (Error "Recognition timeout")
    /\ (requestsTo TaskGet new = 1%nat
        \/ (requestsTo TaskGet new = 0%nat /\ exists e, r = Throw e)).
Proof.
  intros Hs Hdone. set (sid := sessionId (this st)).
  unfold speechToText. unfold bindF at 1. unfold parseFile.
  set (p := EvParseFile audioPath).
  pose proof (footprint_parse sid audioPath) as Hf0. fold p in Hf0.
  destruct (metadataOf env audioPath) as [m | metadata].
  { exists (Throw (ParseFileError m)), (log p st), [p].
    destruct (footprint_observed sid [p] _ Hf0 eq_refl) as [Hd Hq].
    split; [reflexivity | split; [reflexivity | split; [exact Hd | split]]].
    - discriminate.
    - right. rewrite Hq. eauto. }
  (* upload *)
  unfold bindF at 1.
  destruct (uploadFileForRecognition K env audioPath (log p st))
    as [r1 st1] eqn:Hq1.
  unfold uploadFileForRecognition in Hq1.
  apply (authorized_run K env uploadReply DataUpload _ sid) in Hq1;
    [ | reflexivity | reflexivity].
  destruct Hq1 as (Hsid1 & new1 & Htr1 & [(Hf1 & e & -> & He) | (Hf1 & ->)]).
  { exists (Throw e), st1, ([p] ++ new1).
    destruct (footprint_observed sid _ _ (footprint_app _ _ _ _ _ Hf0 Hf1) eq_refl)
      as [Hd Hq].
    split; [reflexivity | split; [ | split; [exact Hd | split]]].
    - rewrite Htr1. cbn [log trace]. now rewrite <- app_assoc.
    - intros [= ->]. now apply (tokenFailure_not_timeout env _ He).
    - right. rewrite Hq. eauto. }
  destruct (uploadReply env (requestsTo DataUpload (trace (log p st))))
    as [m | fileUploadResponse]; cbn [answer].
  { exists (Throw (AxiosError m)), st1, ([p] ++ new1).
    destruct (footprint_observed sid _ _ (footprint_app _ _ _ _ _ Hf0 Hf1) eq_refl)
      as [Hd Hq].
    split; [reflexivity | split; [ | split; [exact Hd | split]]].
    - rewrite Htr1. cbn [log trace]. now rewrite <- app_assoc.
    - discriminate.
    - right. rewrite Hq. eauto. }
  pose proof (footprint_app _ _ _ _ _ Hf0 Hf1) as Hf01.
  assert (Htr01 : trace st1 = trace st ++ [p] ++ new1).
  { rewrite Htr1. cbn [log trace]. now rewrite <- app_assoc. }
  clear Hf0 Hf1 Htr1. cbv beta iota.
  (* start *)
  unfold bindF at 1.
  destruct (startRecognition K env fileUploadResponse metadata encoding st1)
    as [r2 st2] eqn:Hq2.
  unfold startRecognition in Hq2.
  apply (authorized_run K env recognizeReply AsyncRecognize _ sid) in Hq2;
    [ | reflexivity | exact Hsid1].
  destruct Hq2 as (Hsid2 & new2 & Htr2 & [(Hf2 & e & -> & He) | (Hf2 & ->)]).
  { exists (Throw e), st2, (([p] ++ new1) ++ new2).
    destruct (footprint_observed sid _ _ (footprint_app _ _ _ _ _ Hf01 Hf2) eq_refl)
      as [Hd Hq].
    split; [reflexivity | split; [ | split; [exact Hd | split]]].
    - rewrite Htr2, Htr01. now repeat rewrite <- app_assoc.
    - intros [= ->]. now apply (tokenFailure_not_timeout env _ He).
    - right. rewrite Hq. eauto. }
  destruct (recognizeReply env (requestsTo AsyncRecognize (trace st1)))
    as [m | recognitionResponse]; cbn [answer].
  { exists (Throw (AxiosError m)), st2, (([p] ++ new1) ++ new2).
    destruct (footprint_observed sid _ _ (footprint_app _ _ _ _ _ Hf01 Hf2) eq_refl)
      as [Hd Hq].
    split; [reflexivity | split; [ | split; [exact Hd | split]]].
    - rewrite Htr2, Htr01. now repeat rewrite <- app_assoc.
    - discriminate.
    - right. rewrite Hq. eauto. }
  pose proof (footprint_app _ _ _ _ _ Hf01 Hf2) as Hf012.
  assert (Htr012 : trace st2 = trace st ++ ([p] ++ new1) ++ new2).
  { rewrite Htr2, Htr01. now repeat rewrite <- app_assoc. }
  clear Hf01 Hf2 Htr2 Htr01. cbv beta iota.
  (* the first status query *)
  unfold bindFF at 1. unfold pollRecognition. unfold bindF at 1.
  destruct (getRecognitionStatus K env recognitionResponse st2)
    as [r3 st3] eqn:Hq3.
  unfold getRecognitionStatus in Hq3.
  apply (authorized_run K env statusReply TaskGet _ sid) in Hq3;
    [ | reflexivity | exact Hsid2].
  destruct Hq3 as (Hsid3 & new3 & Htr3 & [(Hf3 & e & -> & He) | (Hf3 & ->)]).
  { exists (Throw e), st3, ((([p] ++ new1) ++ new2) ++ new3).
    destruct (footprint_observed sid _ _ (footprint_app _ _ _ _ _ Hf012 Hf3) eq_refl)
      as [Hd Hq].
    split; [reflexivity | split; [ | split; [exact Hd | split]]].
    - rewrite Htr3, Htr012. now repeat rewrite <- app_assoc.
    - intros [= ->]. now apply (tokenFailure_not_timeout env _ He).
    - right. rewrite Hq. eauto. }
  assert (Hn : requestsTo TaskGet (trace st2) = requestsTo TaskGet (trace st)).
  { rewrite Htr012, requestsTo_app.
    rewrite (proj2 (footprint_observed sid _ _ Hf012 eq_refl)). cbn. lia. }
  rewrite Hn, Hs. cbn [answer]. cbv beta iota.
  rewrite (pollLoop_done K env fuel _ recognitionResponse s st3 Hdone).
  pose proof (footprint_app _ _ _ _ _ Hf012 Hf3) as Hf0123.
  assert (Htr0123 : trace st3 = trace st ++ (([p] ++ new1) ++ new2) ++ new3).
  { rewrite Htr3, Htr012. now repeat rewrite <- app_assoc. }
  clear Hf012 Hf3 Htr3 Htr012.
  (* download *)
  unfold bindF at 1.
  destruct (getRecognitionResult K env s st3) as [r4 st4] eqn:Hq4.
  unfold getRecognitionResult in Hq4.
  apply (authorized_run K env downloadReply DataDownload _ sid) in Hq4;
    [ | reflexivity | exact Hsid3].
  destruct Hq4 as (Hsid4 & new4 & Htr4 & [(Hf4 & e & -> & He) | (Hf4 & ->)]).
  { exists (Throw e), st4, (((([p] ++ new1) ++ new2) ++ new3) ++ new4).
    destruct (footprint_observed sid _ _ (footprint_app _ _ _ _ _ Hf0123 Hf4) eq_refl)
      as [Hd Hq].
    split; [reflexivity | split; [ | split; [exact Hd | split]]].
    - rewrite Htr4, Htr0123. now repeat rewrite <- app_assoc.
    - intros [= ->]. now apply (tokenFailure_not_timeout env _ He).
    - left. rewrite Hq. reflexivity. }
  destruct (footprint_observed sid _ _ (footprint_app _ _ _ _ _ Hf0123 Hf4) eq_refl)
    as [Hd Hq].
  assert (Htr' : trace st4
                 = trace st ++ ((([p] ++ new1) ++ new2) ++ new3) ++ new4).
  { rewrite Htr4, Htr0123. now repeat rewrite <- app_assoc. }
  destruct (downloadReply env (requestsTo DataDownload (trace st3)))
    as [m | recognitionResult]; cbn [answer].
  - exists (Throw (AxiosError m)), st4, (((([p] ++ new1) ++ new2) ++ new3) ++ new4).
    split; [reflexivity | split; [exact Htr' | split; [exact Hd | split]]].
    + discriminate.
    + left. rewrite Hq. reflexivity.
  - exists (Ok (aggregate recognitionResult)), st4,
      (((([p] ++ new1) ++ new2) ++ new3) ++ new4).
    split; [reflexivity | split; [exact Htr' | split; [exact Hd | split]]].
    + discriminate.
    + left. rewrite Hq. reflexivity.
Qed.

Lemma speechToText_first_status_DONE_witness :
  exists r st' new,
    speechToText K0 envExpired 1 "voice.mp3" "MP3" (holding None) = Some (r, st')
    /\ trace st' = trace (holding None) ++ new
    /\ filter isDelay new = []
    /\ r <> Throw (Error "Recognition timeout")
    /\ (requestsTo TaskGet new = 1%nat
        \/ (requestsTo TaskGet new = 0%nat /\ exists e, r = Throw e)).
Proof.
  apply (speechToText_first_status_DONE K0 envExpired 0 "voice.mp3" "MP3"
           (holding None) (statusOf "DONE")); reflexivity.
Defined.

(** ** The session identifier *)

(** Without a truthy [sessionId] the constructor reads [v4] from the
    [uuid] binding: it throws when the binding is [undefined], and asks for
    one identifier otherwise. *)
Lemma constructor_without_sessionId env key s tr :
  s = None \/ s = Some "" ->
  constructor env key s tr
  = match uuid env with
    | None =>
        Throw (TypeError "Cannot read properties of undefined (reading 'v4')")
    | Some v4 =>
        Ok {| this := {| authKey := key; token := None;
                         sessionId := v4 (List.length (filter isUuid tr)) |};
              trace := tr ++ [EvUuid] |}
    end.
Proof. intros [-> | ->]; reflexivity. Qed.

(** C8 (as amended).  A non-empty session identifier given to the
    constructor is the instance's, whatever the [uuid] binding is, and no
    identifier is generated; the request of a token exchange carries the
    instance's identifier as RqUID; and a call of [speechToText] leaves the
    identifier as it is, generates none, and all its token exchanges carry
    it. *)
Theorem sessionId_fixed_and_sent K env :
  (forall key s tr,
     s <> "" ->
     constructor env key (Some s) tr
     = Ok {| this := {| authKey := key; token := None; sessionId := s |};
             trace := tr |})
  /\ (forall o, getHeader "RqUID" (headers (tokenRequest K o)) = Some (sessionId o))
  /\ (forall fuel audioPath encoding st r st',
        speechToText K env fuel audioPath encoding st = Some (r, st') ->
        sessionId (this st') = sessionId (this st)
        /\ exists new,
             trace st' = trace st ++ new
             /\ carryRqUID (sessionId (this st)) new
             /\ filter isUuid new = []).
Proof.
  split; [ | split].
  - intros key s tr Hs. unfold constructor.
    apply String.eqb_neq in Hs. now rewrite Hs.
  - reflexivity.
  - intros fuel audioPath encoding st r st' H.
    destruct (speechToText_run K env fuel audioPath encoding st r st' _ eq_refl H)
      as (Hsid & new & k & ss & Htr & (_ & Hc & Hu) & _).
    split; [exact Hsid | ]. exists new. auto.
Qed.

Lemma sessionId_fixed_and_sent_witness :
  constructor envNoDefaultExport "a2V5" (Some "session-1") []
  = Ok {| this := {| authKey := "a2V5"; token := None;
                     sessionId := "session-1" |};
          trace := [] |}
  /\ exists r st',
       speechToText K0 envStaleTokens 1 "voice.mp3" "MP3" (holding None)
       = Some (r, st')
       /\ sessionId (this st') = "session-1"
       /\ carryRqUID "session-1" (trace st').
Proof.
  destruct (sessionId_fixed_and_sent K0 envNoDefaultExport) as (H1 & _ & _).
  destruct (sessionId_fixed_and_sent K0 envStaleTokens) as (_ & _ & H4).
  split.
  - apply H1. discriminate.
  - destruct (speechToText K0 envStaleTokens 1 "voice.mp3" "MP3" (holding None))
      as [[r st'] | ] eqn:H; [ | vm_compute in H; discriminate H].
    destruct (H4 1%nat "voice.mp3" "MP3" (holding None) r st' H)
      as (Hsid & new & Htr & Hc & _).
    exists r, st'. split; [reflexivity | split; [exact Hsid | ]].
    rewrite Htr. exact Hc.
Defined.

(** C8, the claim as stated fails.  Given the empty string, the constructor
    takes it for no identifier: with a [uuid] binding that has [v4] the
    instance gets a generated identifier, not the empty string; and with the
    binding [undefined] no instance is made at all, the constructor throws a
    TypeError, as it does when no identifier is given. *)
Lemma constructor_replaces_empty_sessionId :
  (exists st,
     constructor envExpired "a2V5" (Some "") [] = Ok st
     /\ sessionId (this st) <> ""
     /\ trace st = [EvUuid])
  /\ constructor envNoDefaultExport "a2V5" (Some "") []
     = Throw (TypeError "Cannot read properties of undefined (reading 'v4')")
  /\ constructor envNoDefaultExport "a2V5" None []
     = Throw (TypeError "Cannot read properties of undefined (reading 'v4')").
Proof.
  split; [ | split; reflexivity].
  eexists. split; [reflexivity | split; [discriminate | reflexivity]].
Qed.

(** ** The end-to-end scenario *)

(** Upload and start succeed, the first status is DONE, and the download
    has one segment with the one fragment "hello world". *)
Example speechToText_hello_world :
  exists st',
    speechToText K0 envExpired 1 "voice.mp3" "MP3" (holding None)
    = Some (Ok {| SpeechToTextResult.text := js "hello world";
                  SpeechToTextResult.normalizedText := js "hello world" |},
            st')
    /\ stages (trace st') = [SMetadata; SUpload; SStart; SQuery; SDownload].
Proof. eexists. split; [vm_compute; reflexivity | reflexivity]. Qed.

(** * Further properties *)

(** ** The token accessor, case by case *)

Section Accessor.

Context (K : Constants) (env : Env).

(** All a call of the accessor can be. *)
Lemma getAccessToken_inv st r st' :
  getAccessToken K env st = (r, st') ->
  (needsUpdate K env st = false
   /\ st' = st /\ exists t, r = Ok t /\ token (this st) = Some t)
  \/ (needsUpdate K env st = true
      /\ authKey (this st') = authKey (this st)
      /\ sessionId (this st') = sessionId (this st)
      /\ trace st'
         = trace st ++ [EvRequest TokenExchange (tokenRequest K (this st))]
      /\ match tokenReply env (requestsTo TokenExchange (trace st)) with
         | inl m => r = Throw (AxiosError m) /\ token (this st') = token (this st)
         | inr None =>
             r = Throw (Error "Failed to get access token")
             /\ token (this st') = None
         | inr (Some t) => r = Ok t /\ token (this st') = Some t
         end).
Proof.
  intros H. destruct (needsUpdate K env st) eqn:Hn.
  - right. rewrite (getAccessToken_exchange K env st Hn) in H. cbv zeta in H.
    destruct (tokenReply env (requestsTo TokenExchange (trace st)))
      as [m | [t | ]]; injection H as <- <-; repeat split.
  - left. unfold needsUpdate in Hn.
    destruct (token (this st)) as [t | ] eqn:Ht; [ | discriminate Hn].
    rewrite (getAccessToken_held K env st t Ht) in H.
    + injection H as <- <-. eauto.
    + unfold needsUpdate. now rewrite Ht.
Qed.

(** X1.  The accessor makes a token exchange exactly when no token is held
    or the clock is more than the maximum wait past the expiry of the held
    token; otherwise it returns the held token and the state is unchanged. *)
Theorem getAccessToken_exchanges_iff st r st' :
  getAccessToken K env st = (r, st') ->
  (st' = st
   /\ exists t, r = Ok t /\ token (this st) = Some t
                /\ Date_now env st <= expires_at t + MAX_WAIT_TIME K)
  \/ (trace st'
      = trace st ++ [EvRequest TokenExchange (tokenRequest K (this st))]
      /\ (token (this st) = None
          \/ exists t, token (this st) = Some t
                       /\ expires_at t + MAX_WAIT_TIME K < Date_now env st)).
Proof.
  intros H.
  destruct (getAccessToken_inv st r st' H)
    as [(Hn & -> & t & -> & Ht) | (Hn & _ & _ & Htr & _)].
  - left. split; [reflexivity | ]. exists t. repeat split; auto.
    rewrite (needsUpdate_held K env st t Ht) in Hn. now apply Z.ltb_ge.
  - right. split; [exact Htr | ].
    destruct (token (this st)) as [t | ] eqn:Ht; [right | now left].
    exists t. split; [reflexivity | ].
    rewrite (needsUpdate_held K env st t Ht) in Hn. now apply Z.ltb_lt.
Qed.

(** X2.  A token the accessor returns is the token stored afterwards; it
    is the token held before, with the state unchanged, or the endpoint's
    answer to the one exchange the call made; the key and the session
    identifier stay. *)
Theorem getAccessToken_returns_stored_token st t st' :
  getAccessToken K env st = (Ok t, st') ->
  token (this st') = Some t
  /\ authKey (this st') = authKey (this st)
  /\ sessionId (this st') = sessionId (this st)
  /\ ((st' = st /\ token (this st) = Some t)
      \/ (tokenReply env (requestsTo TokenExchange (trace st)) = inr (Some t)
          /\ trace st'
             = trace st ++ [EvRequest TokenExchange (tokenRequest K (this st))])).
Proof.
  intros H.
  destruct (getAccessToken_inv st _ st' H)
    as [(_ & -> & t' & [= <-] & Ht) | (_ & Hk & Hs & Htr & Hr)].
  - repeat split; auto.
  - destruct (tokenReply env (requestsTo TokenExchange (trace st)))
      as [m | [t' | ]] eqn:Hreply; destruct Hr as [Hr Ht];
      try discriminate Hr.
    injection Hr as <-. repeat split; auto.
Qed.

(** X3.  A failed exchange is not remembered: with no token held, when the
    exchange is rejected or answered without a token the accessor throws and
    still no token is held, and the next call makes a new exchange and
    returns and stores the token that one gives. *)
Theorem getAccessToken_tries_again st :
  token (this st) = None ->
  (exists m, tokenReply env (requestsTo TokenExchange (trace st)) = inl m)
  \/ tokenReply env (requestsTo TokenExchange (trace st)) = inr None ->
  exists e st1,
    getAccessToken K env st = (Throw e, st1)
    /\ token (this st1) = None
    /\ requestsTo TokenExchange (trace st1)
       = S (requestsTo TokenExchange (trace st))
    /\ forall t,
         tokenReply env (S (requestsTo TokenExchange (trace st))) = inr (Some t) ->
         exists st2,
           getAccessToken K env st1 = (Ok t, st2)
           /\ token (this st2) = Some t
           /\ requestsTo TokenExchange (trace st2)
              = S (S (requestsTo TokenExchange (trace st))).
Proof.
  intros Ht Hr.
  set (n := requestsTo TokenExchange (trace st)) in *.
  set (x := EvRequest TokenExchange (tokenRequest K (this st))).
  assert (Hcount : requestsTo TokenExchange (trace st ++ [x]) = S n).
  { rewrite requestsTo_app. fold n. cbn. lia. }
  pose proof (getAccessToken_absent K env st Ht) as H. cbv zeta in H.
  fold n x in H.
  assert (Hnext : forall st1,
            token (this st1) = None -> trace st1 = trace st ++ [x] ->
            forall t, tokenReply env (S n) = inr (Some t) ->
            exists st2, getAccessToken K env st1 = (Ok t, st2)
                        /\ token (this st2) = Some t
                        /\ requestsTo TokenExchange (trace st2) = S (S n)).
  { intros st1 Ht1 Htr1 t Hrt.
    pose proof (getAccessToken_absent K env st1 Ht1) as H1. cbv zeta in H1.
    rewrite Htr1, Hcount, Hrt in H1. eexists. split; [exact H1 | ].
    split; [reflexivity | ]. cbn [setToken log trace].
    rewrite Htr1, requestsTo_app, Hcount. cbn. lia. }
  destruct Hr as [(m & Hr) | Hr]; rewrite Hr in H.
  - exists (AxiosError m), (log x st).
    split; [exact H | split; [exact Ht | split; [exact Hcount | ]]].
    now apply Hnext.
  - exists (Error "Failed to get access token"), (setToken None (log x st)).
    split; [exact H | split; [reflexivity | split; [exact Hcount | ]]].
    now apply Hnext.
Qed.

(** X4.  With a token held that fails the test, a rejected exchange throws
    the rejection and leaves the old token held, while an exchange answered
    without a token throws "Failed to get access token" and leaves no token
    held. *)
Theorem getAccessToken_failed_refresh st t0 :
  token (this st) = Some t0 ->
  expires_at t0 + MAX_WAIT_TIME K < Date_now env st ->
  (forall m,
     tokenReply env (requestsTo TokenExchange (trace st)) = inl m ->
     exists st1,
       getAccessToken K env st = (Throw (AxiosError m), st1)
       /\ token (this st1) = Some t0)
  /\ (tokenReply env (requestsTo TokenExchange (trace st)) = inr None ->
      exists st1,
        getAccessToken K env st
        = (Throw (Error "Failed to get access token"), st1)
        /\ token (this st1) = None).
Proof.
  intros Ht Hlate.
  assert (Hn : needsUpdate K env st = true).
  { rewrite (needsUpdate_held K env st t0 Ht). now apply Z.ltb_lt. }
  pose proof (getAccessToken_exchange K env st Hn) as H. cbv zeta in H.
  split.
  - intros m Hr. rewrite Hr in H. eexists. split; [exact H | exact Ht].
  - intros Hr. rewrite Hr in H. eexists. split; [exact H | reflexivity].
Qed.

End Accessor.

Lemma getAccessToken_exchanges_iff_witness :
  exists t,
    token (this (holding (Some (tokenUntil 1000000)))) = Some t
    /\ Date_now envExpired (holding (Some (tokenUntil 1000000)))
       <= expires_at t + MAX_WAIT_TIME K0.
Proof.
  destruct (getAccessToken_exchanges_iff K0 envExpired
              (holding (Some (tokenUntil 1000000))) (Ok (tokenUntil 1000000))
              (holding (Some (tokenUntil 1000000))) eq_refl)
    as [(_ & t & _ & Ht & Hle) | (Htr & _)].
  - exists t. split; [exact Ht | exact Hle].
  - discriminate Htr.
Defined.

Lemma getAccessToken_returns_stored_token_witness :
  token (this (setToken (Some (tokenUntil 5000000))
                 (log (EvRequest TokenExchange
                         (tokenRequest K0 (this (holding None))))
                    (holding None))))
  = Some (tokenUntil 5000000).
Proof.
  refine (proj1 (getAccessToken_returns_stored_token K0 envExpired
                   (holding None) (tokenUntil 5000000) _ _)).
  reflexivity.
Defined.

Lemma getAccessToken_tries_again_witness :
  exists e st1,
    getAccessToken K0 envRetry (holding None) = (Throw e, st1)
    /\ token (this st1) = None
    /\ requestsTo TokenExchange (trace st1) = 1%nat
    /\ forall t,
         tokenReply envRetry 1 = inr (Some t) ->
         exists st2,
           getAccessToken K0 envRetry st1 = (Ok t, st2)
           /\ token (this st2) = Some t
           /\ requestsTo TokenExchange (trace st2) = 2%nat.
Proof.
  apply (getAccessToken_tries_again K0 envRetry (holding None)).
  - reflexivity.
  - left. eexists. reflexivity.
Defined.

Lemma getAccessToken_failed_refresh_witness :
  exists st1,
    getAccessToken K0 envRejected (holding (Some (tokenUntil 0)))
    = (Throw (AxiosError "Request failed with status code 401"), st1)
    /\ token (this st1) = Some (tokenUntil 0).
Proof.
  apply (proj1 (getAccessToken_failed_refresh K0 envRejected
                  (holding (Some (tokenUntil 0))) (tokenUntil 0)
                  eq_refl eq_refl)).
  reflexivity.
Defined.

(** ** Counting apart from token exchanges *)

Lemma requestsTo_without ep tr :
  Endpoint_eqb ep TokenExchange = false ->
  requestsTo ep (withoutTokenExchanges tr) = requestsTo ep tr.
Proof.
  intros Hep. induction tr as [| e tr IH]; [reflexivity | ].
  unfold withoutTokenExchanges, requestsTo in *. cbn [filter].
  destruct e as [ | path | ep' req | ms]; cbn; try exact IH.
  destruct ep'; cbn; destruct ep; cbn; try discriminate Hep;
    try exact IH; now rewrite IH.
Qed.

Lemma no_delay_without tr :
  filter isDelay (withoutTokenExchanges tr) = filter isDelay tr.
Proof.
  induction tr as [| e tr IH]; [reflexivity | ].
  unfold withoutTokenExchanges in *. cbn [filter].
  destruct e as [ | path | ep' req | ms]; cbn; try (now rewrite IH).
  destruct ep'; cbn; now rewrite ?IH.
Qed.

(** ** Where a call stops *)

Lemma answered_app env hist l1 l2 :
  answered env hist (l1 ++ l2)
  <-> answered env hist l1 /\ answered env (hist ++ l1) l2.
Proof.
  revert hist. induction l1 as [| e l1 IH]; intros hist; cbn [app answered].
  - rewrite app_nil_r. tauto.
  - rewrite IH, <- app_assoc. cbn [app]. tauto.
Qed.

Lemma failedAt_app env hist l1 l2 e :
  answered env hist l1 ->
  failedAt env (hist ++ l1) l2 e ->
  failedAt env hist (l1 ++ l2) e.
Proof.
  intros H1 (pre & last & -> & Hpre & Hlast).
  exists (l1 ++ pre), last. split; [now rewrite app_assoc | split].
  - apply answered_app. now split.
  - now rewrite app_assoc.
Qed.

Lemma requestsTo_tokens ep tok :
  Endpoint_eqb ep TokenExchange = false ->
  withoutTokenExchanges tok = [] ->
  requestsTo ep tok = 0%nat.
Proof.
  intros Hep Hw. now rewrite <- (requestsTo_without ep tok Hep), Hw.
Qed.

Section Stops.

Context (K : Constants) (env : Env).

(** The accessor: its events are token exchanges, answered well when it
    returns, and the last one failed when it throws. *)
Lemma getAccessToken_stops st r st' :
  getAccessToken K env st = (r, st') ->
  exists tok,
    trace st' = trace st ++ tok
    /\ withoutTokenExchanges tok = []
    /\ match r with
       | Ok _ => answered env (trace st) tok
       | Throw e => failedAt env (trace st) tok e
       end.
Proof.
  intros H.
  destruct (getAccessToken_inv K env st r st' H)
    as [(_ & -> & t & -> & _) | (_ & _ & _ & Htr & Hrep)].
  - exists []. rewrite app_nil_r. repeat split.
  - exists [EvRequest TokenExchange (tokenRequest K (this st))].
    split; [exact Htr | split; [reflexivity | ]].
    destruct (tokenReply env (requestsTo TokenExchange (trace st)))
      as [m | [t | ]] eqn:Hreply; destruct Hrep as [-> _].
    + exists [], (EvRequest TokenExchange (tokenRequest K (this st))).
      split; [reflexivity | split; [exact I | ]].
      cbn [failureOf]. now rewrite app_nil_r, Hreply.
    + cbn [answered failureOf]. now rewrite Hreply.
    + exists [], (EvRequest TokenExchange (tokenRequest K (this st))).
      split; [reflexivity | split; [exact I | ]].
      cbn [failureOf]. now rewrite app_nil_r, Hreply.
Qed.

(** A method "get the token, then one request": when it returns, its events
    are token exchanges and then its request, all answered well, and the
    value is the endpoint's answer to the request; when it throws, its last
    event is the one that failed. *)
Lemma authorized_stops {A} (reply : Env -> nat -> string + A) (ep : Endpoint)
    (mkRequest : string -> Request) st (r : Res A) st' :
  Endpoint_eqb ep TokenExchange = false ->
  (forall hist req,
     failureOf env hist (EvRequest ep req)
     = rejection (reply env (requestsTo ep hist))) ->
  (t <- getAccessToken K env ;;
   axios env reply ep (mkRequest (access_token t)))%async st = (r, st') ->
  exists new,
    trace st' = trace st ++ new
    /\ match r with
       | Ok a =>
           answered env (trace st) new
           /\ reply env (requestsTo ep (trace st)) = inr a
           /\ exists tok t,
                new = tok ++ [EvRequest ep (mkRequest t)]
                /\ withoutTokenExchanges tok = []
       | Throw e => failedAt env (trace st) new e
       end.
Proof.
  intros Hep Hfail H. unfold bind in H.
  destruct (getAccessToken K env st) as [[t | e] st1] eqn:Hq.
  - destruct (getAccessToken_stops st _ st1 Hq) as (tok & Htr & Hw & Hans).
    set (x := EvRequest ep (mkRequest (access_token t))) in *.
    assert (Hn : requestsTo ep (trace st1) = requestsTo ep (trace st)).
    { rewrite Htr, requestsTo_app, (requestsTo_tokens ep tok Hep Hw). lia. }
    unfold axios in H. rewrite Hn in H.
    assert (Hx : failureOf env (trace st ++ tok) x
                 = rejection (reply env (requestsTo ep (trace st)))).
    { unfold x. now rewrite Hfail, <- Htr, Hn. }
    exists (tok ++ [x]).
    destruct (reply env (requestsTo ep (trace st))) as [m | a] eqn:Hreply;
      injection H as <- <-;
      (split; [cbn [log trace]; now rewrite Htr, <- app_assoc | ]).
    + exists tok, x. auto.
    + split; [ | split; [reflexivity | now exists tok, (access_token t)]].
      apply answered_app. split; [exact Hans | ]. cbn [answered]. auto.
  - injection H as <- <-.
    destruct (getAccessToken_stops st _ st1 Hq) as (tok & Htr & _ & Hf).
    now exists tok.
Qed.

Lemma getRecognitionStatus_stops recognition st r st' :
  getRecognitionStatus K env recognition st = (r, st') ->
  exists new,
    trace st' = trace st ++ new
    /\ match r with
       | Ok s =>
           answered env (trace st) new
           /\ statusReply env (requestsTo TaskGet (trace st)) = inr s
           /\ exists tok t,
                new = tok ++ [EvRequest TaskGet (statusRequest K t recognition)]
                /\ withoutTokenExchanges tok = []
       | Throw e => failedAt env (trace st) new e
       end.
Proof.
  intros H.
  apply (authorized_stops statusReply TaskGet
           (fun a => statusRequest K a recognition) st r st' eq_refl);
    [reflexivity | exact H].
Qed.

(** The loop.  [last] says where the status under test came from: the
    history ends with the status query it answered. *)
Lemma pollLoop_stops fuel :
  forall startTime recognition s st r st',
    pollLoop K env fuel startTime recognition s st = Some (r, st') ->
    exists new,
      trace st' = trace st ++ new
      /\ match r with
         | Ok _ => answered env (trace st) new
         | Throw e =>
             failedAt env (trace st) new e
             \/ (e = Error "Recognition timeout"
                 /\ answered env (trace st) new
                 /\ clock env (trace st') - startTime > MAX_WAIT_TIME K
                 /\ ((new = []
                      /\ RecognitionStatusResponse.status s <> "DONE")
                     \/ exists pre req s',
                          new = pre ++ [EvRequest TaskGet req]
                          /\ statusReply env
                               (requestsTo TaskGet (trace st ++ pre)) = inr s'
                          /\ RecognitionStatusResponse.status s' <> "DONE"))
         end.
Proof.
  induction fuel as [| fuel IH]; intros startTime recognition s st r st' H;
    [discriminate H | ].
  cbn [pollLoop] in H.
  destruct (String.eqb_spec (RecognitionStatusResponse.status s) "DONE")
    as [Hd | Hd].
  { injection H as <- <-. exists []. rewrite app_nil_r.
    split; [reflexivity | exact I]. }
  destruct (Z.gtb_spec (Date_now env st - startTime) (MAX_WAIT_TIME K))
    as [Hgt | Hle].
  { injection H as <- <-. exists []. rewrite app_nil_r.
    split; [reflexivity | right].
    split; [reflexivity | split; [exact I | split; [ | now left]]].
    unfold Date_now in Hgt. lia. }
  unfold bindF in H. rewrite delay_then_status in H.
  set (d := EvDelay (RECOGNITION_POLLING_DELAY K)) in *.
  assert (Hans0 : answered env (trace st) [d]) by (cbn; auto).
  destruct (getRecognitionStatus K env recognition (log d st))
    as [[s1 | e] st1] eqn:Hq;
    destruct (getRecognitionStatus_stops recognition _ _ st1 Hq)
      as (new1 & Htr1 & H1); cbn [log trace] in Htr1, H1.
  - destruct H1 as (Hans1 & Hrep1 & tok1 & t1 & Hnew1 & Hw1).
    assert (Hans01 : answered env (trace st) ([d] ++ new1)).
    { apply answered_app. now split. }
    assert (Htr01 : trace st1 = trace st ++ [d] ++ new1).
    { rewrite Htr1. now rewrite <- app_assoc. }
    destruct (IH startTime recognition s1 st1 r st' H) as (new2 & Htr2 & H2).
    exists (([d] ++ new1) ++ new2).
    split; [rewrite Htr2, Htr01; now rewrite <- app_assoc | ].
    rewrite Htr01 in H2.
    destruct r as [s' | e].
    + apply answered_app. now split.
    + destruct H2 as [Hf | (He & Hans2 & Hlate & Hlast)].
      * left. now apply failedAt_app.
      * right. split; [exact He | split; [ | split; [exact Hlate | right]]].
        { apply answered_app. now split. }
        destruct Hlast as [(-> & Hnd) | (pre & req & s' & -> & Hrep & Hnd)].
        -- exists ([d] ++ tok1), (statusRequest K t1 recognition), s1.
           split; [ | split; [ | exact Hnd]].
           ++ rewrite app_nil_r, Hnew1. now rewrite <- app_assoc.
           ++ rewrite app_assoc, requestsTo_app,
                (requestsTo_tokens TaskGet tok1 eq_refl Hw1), Nat.add_0_r.
              exact Hrep1.
        -- exists (([d] ++ new1) ++ pre), req, s'.
           split; [now rewrite <- !app_assoc | split; [ | exact Hnd]].
           rewrite <- Hrep. f_equal. f_equal. now rewrite <- !app_assoc.
  - injection H as <- <-. exists ([d] ++ new1).
    split; [rewrite Htr1; now rewrite <- app_assoc | left].
    now apply failedAt_app.
Qed.

(** The polling stage: as the loop, with the start time read before the
    first query. *)
Lemma pollRecognition_stops fuel recognition st r st' :
  pollRecognition K env fuel recognition st = Some (r, st') ->
  exists new,
    trace st' = trace st ++ new
    /\ match r with
       | Ok _ => answered env (trace st) new
       | Throw e =>
           failedAt env (trace st) new e
           \/ (e = Error "Recognition timeout"
               /\ answered env (trace st) new
               /\ clock env (trace st') - clock env (trace st)
                  > MAX_WAIT_TIME K
               /\ exists pre req s,
                    new = pre ++ [EvRequest TaskGet req]
                    /\ statusReply env (requestsTo TaskGet (trace st ++ pre))
                       = inr s
                    /\ RecognitionStatusResponse.status s <> "DONE")
       end.
Proof.
  intros H. unfold pollRecognition, bindF in H.
  destruct (getRecognitionStatus K env recognition st) as [[s1 | e] st1] eqn:Hq;
    destruct (getRecognitionStatus_stops recognition _ _ st1 Hq)
      as (new1 & Htr1 & H1).
  - destruct H1 as (Hans1 & Hrep1 & tok1 & t1 & Hnew1 & Hw1).
    destruct (pollLoop_stops fuel _ recognition s1 st1 r st' H)
      as (new2 & Htr2 & H2).
    exists (new1 ++ new2).
    split; [rewrite Htr2, Htr1; now rewrite <- app_assoc | ].
    rewrite Htr1 in H2.
    destruct r as [s' | e].
    + apply answered_app. now split.
    + destruct H2 as [Hf | (He & Hans2 & Hlate & Hlast)].
      * left. now apply failedAt_app.
      * right. split; [exact He | split; [ | split; [exact Hlate | ]]].
        { apply answered_app. now split. }
        destruct Hlast as [(-> & Hnd) | (pre & req & s' & -> & Hrep & Hnd)].
        -- exists tok1, (statusRequest K t1 recognition), s1.
           split; [now rewrite app_nil_r | split; [ | exact Hnd]].
           rewrite requestsTo_app,
             (requestsTo_tokens TaskGet tok1 eq_refl Hw1), Nat.add_0_r.
           exact Hrep1.
        -- exists (new1 ++ pre), req, s'.
           split; [now rewrite <- app_assoc | split; [ | exact Hnd]].
           rewrite <- Hrep. f_equal. f_equal. now rewrite <- app_assoc.
  - injection H as <- <-. exists new1. split; [exact Htr1 | now left].
Qed.

(** One call of [speechToText], from its result: when it returns a value,
    every event was answered well, the last event is the download request
    and the value is the aggregate of the answer to it; when it throws, its
    last event is the one that failed, or it timed out. *)
Lemma speechToText_stops fuel audioPath encoding st r st' :
  speechToText K env fuel audioPath encoding st = Some (r, st') ->
  exists new,
    trace st' = trace st ++ new
    /\ match r with
       | Ok res =>
           answered env (trace st) new
           /\ exists pre req result,
                new = pre ++ [EvRequest DataDownload req]
                /\ downloadReply env
                     (requestsTo DataDownload (trace st ++ pre)) = inr result
                /\ res = aggregate result
       | Throw e =>
           failedAt env (trace st) new e \/ timedOut K env (trace st) new e
       end.
Proof.
  intros H. unfold speechToText in H.
  unfold bindF at 1 in H. unfold parseFile in H.
  set (p := EvParseFile audioPath) in *.
  destruct (metadataOf env audioPath) as [m | metadata] eqn:Hp.
  { injection H as <- <-. exists [p]. split; [reflexivity | left].
    exists [], p. split; [reflexivity | split; [exact I | ]].
    unfold p. cbn [failureOf]. now rewrite Hp. }
  assert (Hans0 : answered env (trace st) [p]).
  { unfold p. cbn [answered failureOf]. now rewrite Hp. }
  (* upload *)
  unfold bindF at 1 in H.
  destruct (uploadFileForRecognition K env audioPath (log p st))
    as [[u | e] st1] eqn:H1;
    apply (authorized_stops uploadReply DataUpload
             (fun a => uploadRequest K a audioPath) _ _ _ eq_refl
             (fun _ _ => eq_refl)) in H1;
    destruct H1 as (new1 & Htr1 & H1); cbn [log trace] in Htr1, H1.
  2: { injection H as <- <-. exists ([p] ++ new1).
       split; [rewrite Htr1; now rewrite <- app_assoc | left].
       now apply failedAt_app. }
  destruct H1 as (Hans1 & _ & _).
  assert (Hans01 : answered env (trace st) ([p] ++ new1))
    by (apply answered_app; now split).
  assert (Htr01 : trace st1 = trace st ++ [p] ++ new1)
    by (rewrite Htr1; now rewrite <- app_assoc).
  clear Htr1 Hans0 Hans1.
  (* start *)
  unfold bindF at 1 in H.
  destruct (startRecognition K env u metadata encoding st1)
    as [[j | e] st2] eqn:H2;
    apply (authorized_stops recognizeReply AsyncRecognize
             (fun a => recognizeRequest K a u metadata encoding) _ _ _ eq_refl
             (fun _ _ => eq_refl)) in H2;
    destruct H2 as (new2 & Htr2 & H2); rewrite Htr01 in H2.
  2: { injection H as <- <-. exists (([p] ++ new1) ++ new2).
       split; [rewrite Htr2, Htr01; now rewrite <- app_assoc | left].
       now apply failedAt_app. }
  destruct H2 as (Hans2 & _ & tok2 & t2 & Hnew2 & _).
  assert (Hans012 : answered env (trace st) (([p] ++ new1) ++ new2))
    by (apply answered_app; now split).
  assert (Htr012 : trace st2 = trace st ++ ([p] ++ new1) ++ new2)
    by (rewrite Htr2, Htr01; now rewrite <- app_assoc).
  clear Htr2 Hans01 Hans2.
  (* polling *)
  unfold bindFF at 1 in H.
  destruct (pollRecognition K env fuel j st2) as [[[s | e] st3] | ] eqn:H3;
    [ | | discriminate H];
    destruct (pollRecognition_stops fuel j st2 _ st3 H3) as (new3 & Htr3 & Hr3).
  2: { injection H as <- <-. exists ((([p] ++ new1) ++ new2) ++ new3).
       split; [rewrite Htr3, Htr012; now rewrite <- app_assoc | ].
       destruct Hr3
         as [Hf | (He & Hans3 & Hlate & pre & req & s' & Hnew3 & Hrep & Hnd)].
       - left. rewrite Htr012 in Hf. now apply failedAt_app.
       - right. rewrite Htr012 in Hans3, Hrep.
         split; [exact He | split; [ | split]].
         + apply answered_app. now split.
         + exists ((([p] ++ new1) ++ new2) ++ pre), req, s'.
           split; [rewrite Hnew3; now rewrite <- !app_assoc | ].
           split; [ | exact Hnd].
           rewrite <- Hrep. f_equal. f_equal. now rewrite <- !app_assoc.
         + exists (([p] ++ new1) ++ tok2),
             (recognizeRequest K t2 u metadata encoding), new3.
           split; [rewrite Hnew2; now rewrite <- !app_assoc | ].
           replace (trace st ++ (([p] ++ new1) ++ new2) ++ new3)
             with (trace st3)
             by (rewrite Htr3, Htr012; now rewrite <- !app_assoc).
           replace (trace st ++ (([p] ++ new1) ++ tok2)
                    ++ [EvRequest AsyncRecognize
                          (recognizeRequest K t2 u metadata encoding)])
             with (trace st2)
             by (rewrite Htr012, Hnew2; now rewrite <- !app_assoc).
           exact Hlate. }
  rewrite Htr012 in Hr3.
  assert (Hans0123 : answered env (trace st)
                       ((([p] ++ new1) ++ new2) ++ new3))
    by (apply answered_app; now split).
  assert (Htr0123 : trace st3 = trace st ++ (([p] ++ new1) ++ new2) ++ new3)
    by (rewrite Htr3, Htr012; now rewrite <- app_assoc).
  clear Htr3 Htr012 Hans012 Hr3 Hnew2.
  (* download *)
  unfold bindF at 1 in H.
  destruct (getRecognitionResult K env s st3) as [[d | e] st4] eqn:H4;
    apply (authorized_stops downloadReply DataDownload
             (fun a => downloadRequest K a s) _ _ _ eq_refl
             (fun _ _ => eq_refl)) in H4;
    destruct H4 as (new4 & Htr4 & H4); rewrite Htr0123 in H4.
  2: { injection H as <- <-.
       exists (((([p] ++ new1) ++ new2) ++ new3) ++ new4).
       split; [rewrite Htr4, Htr0123; now rewrite <- app_assoc | left].
       now apply failedAt_app. }
  destruct H4 as (Hans4 & Hrep4 & tok4 & t4 & Hnew4 & Hw4).
  unfold retF in H. injection H as <- <-.
  exists (((([p] ++ new1) ++ new2) ++ new3) ++ new4).
  split; [rewrite Htr4, Htr0123; now rewrite <- app_assoc | split].
  - apply answered_app. now split.
  - exists (((([p] ++ new1) ++ new2) ++ new3) ++ tok4),
      (downloadRequest K t4 s), d.
    split; [rewrite Hnew4; now rewrite <- !app_assoc | split; [ | reflexivity]].
    rewrite (app_assoc (trace st)), requestsTo_app,
      (requestsTo_tokens DataDownload tok4 eq_refl Hw4), Nat.add_0_r.
    exact Hrep4.
Qed.

End Stops.

(** C7 (as amended).  One call of [speechToText] that returns has issued
    the stages in the order metadata, upload, start, first query, then
    rounds of delay and query, then download, up to the point where it
    ended; the upload, start and download requests at most once each.  On
    success all the stages were issued, every event was answered well, the
    last event is the download request and the value is the aggregate of the
    answer to that request.  On failure the call stopped at its last event:
    all the events before it were answered well, and what is thrown is what
    the answer to that last event makes (the rejection of the metadata
    reader or of the endpoint asked, with its message, or the accessor's
    error for a token answer without a token); or else it is the timeout,
    thrown after a status query answered with a status other than DONE, when
    the clock is more than the maximum wait past its reading after the start
    request.  Token exchanges are not counted in the stages: they can
    precede each request.  And when the clock progresses the call does
    return, with a value or a failure. *)
Theorem speechToText_stages_in_order K env audioPath encoding st :
  (forall fuel r st',
     speechToText K env fuel audioPath encoding st = Some (r, st') ->
     exists new k,
       trace st' = trace st ++ new
       /\ (exists rest, stages new ++ rest = pipeline k)
       /\ (requestsTo DataUpload new <= 1
           /\ requestsTo AsyncRecognize new <= 1
           /\ requestsTo DataDownload new <= 1)%nat
       /\ match r with
          | Ok res =>
              stages new = pipeline k
              /\ answered env (trace st) new
              /\ exists pre req result,
                   new = pre ++ [EvRequest DataDownload req]
                   /\ downloadReply env
                        (requestsTo DataDownload (trace st ++ pre))
                      = inr result
                   /\ res = aggregate result
          | Throw e =>
              thrownBy env audioPath e
              /\ (failedAt env (trace st) new e
                  \/ timedOut K env (trace st) new e)
          end)
  /\ (clockProgresses K env ->
      exists fuel r st',
        speechToText K env fuel audioPath encoding st = Some (r, st')).
Proof.
  split; [ | apply speechToText_terminates].
  intros fuel r st' H.
  destruct (speechToText_run K env fuel audioPath encoding st r st' _ eq_refl H)
    as (_ & new & k & ss & Htr & (Hss & _ & _) & (rest & Hrest) & Hr).
  destruct (speechToText_stops K env fuel audioPath encoding st r st' H)
    as (new' & Htr' & Hr').
  assert (Hnew : new' = new).
  { apply (app_inv_head (trace st)). now rewrite <- Htr, <- Htr'. }
  subst ss new'. exists new, k.
  split; [exact Htr | split; [eauto | split]].
  - rewrite (requestsTo_countStage DataUpload SUpload new eq_refl),
      (requestsTo_countStage AsyncRecognize SStart new eq_refl),
      (requestsTo_countStage DataDownload SDownload new eq_refl).
    repeat split; now apply (countStage_prefix _ _ rest k).
  - destruct r as [res | e].
    + destruct Hr as (Hfull & _). destruct Hr' as (Hans & Hlast).
      split; [exact Hfull | split; [exact Hans | exact Hlast]].
    + split; [exact Hr | exact Hr'].
Qed.

Lemma speechToText_stages_in_order_witness :
  (exists r st' new k,
     speechToText K0 envThreeQueries 3 "voice.mp3" "MP3" (holding None)
     = Some (r, st')
     /\ trace st' = trace (holding None) ++ new
     /\ (exists rest, stages new ++ rest = pipeline k)
     /\ (requestsTo DataUpload new <= 1
         /\ requestsTo AsyncRecognize new <= 1
         /\ requestsTo DataDownload new <= 1)%nat)
  /\ (exists e st' new,
        speechToText K0 envRejected 1 "voice.mp3" "MP3" (holding None)
        = Some (Throw e, st')
        /\ trace st' = trace (holding None) ++ new
        /\ (failedAt envRejected (trace (holding None)) new e
            \/ timedOut K0 envRejected (trace (holding None)) new e))
  /\ (exists fuel r st',
        speechToText K0 envNeverDone fuel "voice.mp3" "MP3" (holding None)
        = Some (r, st')).
Proof.
  split; [ | split].
  - destruct (speechToText K0 envThreeQueries 3 "voice.mp3" "MP3" (holding None))
      as [[r st'] | ] eqn:H; [ | vm_compute in H; discriminate H].
    destruct (proj1 (speechToText_stages_in_order K0 envThreeQueries "voice.mp3"
                       "MP3" (holding None)) 3%nat r st' H)
      as (new & k & H1 & H2 & H3 & _).
    exists r, st', new, k. auto.
  - destruct (speechToText K0 envRejected 1 "voice.mp3" "MP3" (holding None))
      as [[[res | e] st'] | ] eqn:H;
      [vm_compute in H; discriminate H | | vm_compute in H; discriminate H].
    destruct (proj1 (speechToText_stages_in_order K0 envRejected "voice.mp3"
                       "MP3" (holding None)) 1%nat _ st' H)
      as (new & k & H1 & _ & _ & _ & H4).
    exists e, st', new. auto.
  - apply (proj2 (speechToText_stages_in_order K0 envNeverDone "voice.mp3"
                    "MP3" (holding None))).
    intros tr0. exists (List.length tr0 + 3)%nat. intros tr Hlen.
    unfold envNeverDone, scenario, K0. cbn [clock MAX_WAIT_TIME]. lia.
Defined.

(** C7, the claim as stated fails.  When the endpoint hands out tokens
    that are already stale, one successful call of [speechToText] makes four
    token exchanges: one before the upload, the start, the status query and
    the download. *)
Lemma speechToText_acquires_token_four_times :
  exists res st',
    speechToText K0 envStaleTokens 1 "voice.mp3" "MP3" (holding None)
    = Some (Ok res, st')
    /\ requestsTo TokenExchange (trace st') = 4%nat
    /\ stages (trace st') = pipeline 0.
Proof. eexists. eexists. split; [vm_compute; reflexivity | split; reflexivity]. Qed.

(** ** Methods that make one request with the bearer token *)

Section Bearer.

Context (K : Constants) (env : Env).

Lemma authorized_outcome {A} (reply : Env -> nat -> string + A) (ep : Endpoint)
    (mkRequest : string -> Request) st (r : Res A) st' :
  Endpoint_eqb ep TokenExchange = false ->
  (t <- getAccessToken K env ;;
   axios env reply ep (mkRequest (access_token t)))%async st = (r, st') ->
  bearerOutcome env reply ep mkRequest st r st'.
Proof.
  intros Hep H. unfold bind in H.
  destruct (getAccessToken K env st) as [[t | e] st1] eqn:Hq.
  - unfold axios in H.
    assert (Hr : r = answer (reply env (requestsTo ep (trace st1)))
                 /\ st' = log (EvRequest ep (mkRequest (access_token t))) st1).
    { destruct (reply env (requestsTo ep (trace st1)));
        injection H as <- <-; auto. }
    destruct Hr as [-> ->]. clear H.
    assert (Hreq : withoutTokenExchanges
                     [EvRequest ep (mkRequest (access_token t))]
                   = [EvRequest ep (mkRequest (access_token t))]
                   /\ requestsTo TokenExchange
                        [EvRequest ep (mkRequest (access_token t))] = 0%nat).
    { destruct ep; (discriminate Hep || (split; reflexivity)). }
    destruct Hreq as [Hw Hc].
    destruct (getAccessToken_inv K env st _ st1 Hq)
      as [(_ & -> & t' & [= <-] & Ht) | (_ & _ & _ & Htr & Hrep)].
    + exists [EvRequest ep (mkRequest (access_token t))].
      split; [reflexivity | split; [rewrite Hc; lia | right]].
      exists t. auto.
    + exists ([EvRequest TokenExchange (tokenRequest K (this st))]
              ++ [EvRequest ep (mkRequest (access_token t))]).
      split; [cbn [log trace]; now rewrite Htr, <- app_assoc | ].
      split; [rewrite requestsTo_app, Hc; cbn; lia | right].
      exists t.
      assert (Ht : token (this st1) = Some t).
      { destruct (tokenReply env (requestsTo TokenExchange (trace st)))
          as [m | [t' | ]]; destruct Hrep as [Hrep Ht];
          (discriminate Hrep || (injection Hrep as <-; exact Ht)). }
      split; [exact Ht | split].
      * rewrite withoutTokenExchanges_app, Hw. reflexivity.
      * rewrite Htr, requestsTo_app.
        replace (requestsTo ep
                   [EvRequest TokenExchange (tokenRequest K (this st))])
          with 0%nat by (destruct ep; (discriminate Hep || reflexivity)).
        now rewrite Nat.add_0_r.
  - injection H as <- <-.
    destruct (getAccessToken_inv K env st _ st1 Hq)
      as [(_ & _ & t' & Hr & _) | (_ & _ & _ & Htr & Hrep)];
      [discriminate Hr | ].
    exists [EvRequest TokenExchange (tokenRequest K (this st))].
    split; [exact Htr | split; [cbn; lia | left]].
    split; [reflexivity | ]. exists e. split; [reflexivity | ].
    destruct (tokenReply env (requestsTo TokenExchange (trace st)))
      as [m | [t' | ]] eqn:Hreply; destruct Hrep as [Hrep _];
      try discriminate Hrep; injection Hrep as ->.
    + right. eauto.
    + now left.
Qed.

(** A method "get the token, then one request", in full. *)
Lemma authorized_call {A} (reply : Env -> nat -> string + A) (ep : Endpoint)
    (mkRequest : string -> Request) st (r : Res A) st' :
  Endpoint_eqb ep TokenExchange = false ->
  (t <- getAccessToken K env ;;
   axios env reply ep (mkRequest (access_token t)))%async st = (r, st') ->
  bearerCall K env reply ep mkRequest st r st'.
Proof.
  intros Hep H. unfold bearerCall. cbv zeta. unfold bind in H.
  destruct (needsUpdate K env st) eqn:Hn.
  - rewrite (getAccessToken_exchange K env st Hn) in H. cbv zeta in H.
    destruct (tokenReply env (requestsTo TokenExchange (trace st)))
      as [m | [t | ]].
    + now injection H as <- <-.
    + unfold axios in H. cbn [setToken log trace] in H.
      rewrite requestsTo_app in H.
      replace (requestsTo ep
                 [EvRequest TokenExchange (tokenRequest K (this st))])
        with 0%nat in H by (destruct ep; (discriminate Hep || reflexivity)).
      rewrite Nat.add_0_r in H.
      destruct (reply env (requestsTo ep (trace st)));
        injection H as <- <-; split; reflexivity.
    + now injection H as <- <-.
  - pose proof Hn as Hn'. unfold needsUpdate in Hn'.
    destruct (token (this st)) as [t | ] eqn:Ht; [ | discriminate Hn'].
    rewrite (getAccessToken_held K env st t Ht Hn) in H.
    unfold axios in H. exists t.
    destruct (reply env (requestsTo ep (trace st)));
      injection H as <- <-; repeat split.
Qed.

(** X5.  Each of the four methods that call the service with the bearer
    token does exactly this.  With a token held that passes the accessor's
    test, its one event is its request, made with that token.  Otherwise it
    makes one token exchange first: when the exchange is rejected the method
    throws that rejection and sends nothing of its own; when the answer has
    no token it throws the accessor's error, the stored token is cleared and
    nothing of its own is sent; when the answer has a token, the token is
    stored and the one request is made with it.  The outcome of the request
    is the endpoint's answer to it: the response data, or the rejection
    thrown as it is, with no second attempt. *)
Theorem bearer_methods_one_request :
  (forall audioFilePath st r st',
     uploadFileForRecognition K env audioFilePath st = (r, st') ->
     bearerCall K env uploadReply DataUpload
       (fun a => uploadRequest K a audioFilePath) st r st')
  /\ (forall uploadedFile fileMetadata encoding st r st',
        startRecognition K env uploadedFile fileMetadata encoding st = (r, st') ->
        bearerCall K env recognizeReply AsyncRecognize
          (fun a => recognizeRequest K a uploadedFile fileMetadata encoding)
          st r st')
  /\ (forall recognition st r st',
        getRecognitionStatus K env recognition st = (r, st') ->
        bearerCall K env statusReply TaskGet
          (fun a => statusRequest K a recognition) st r st')
  /\ (forall recognition st r st',
        getRecognitionResult K env recognition st = (r, st') ->
        bearerCall K env downloadReply DataDownload
          (fun a => downloadRequest K a recognition) st r st').
Proof.
  repeat split; intros.
  - now apply (authorized_call uploadReply DataUpload
                 (fun a => uploadRequest K a audioFilePath)).
  - now apply (authorized_call recognizeReply AsyncRecognize
                 (fun a => recognizeRequest K a uploadedFile fileMetadata encoding)).
  - now apply (authorized_call statusReply TaskGet
                 (fun a => statusRequest K a recognition)).
  - now apply (authorized_call downloadReply DataDownload
                 (fun a => downloadRequest K a recognition)).
Qed.

Lemma getRecognitionStatus_outcome recognition st r st' :
  getRecognitionStatus K env recognition st = (r, st') ->
  bearerOutcome env statusReply TaskGet
    (fun a => statusRequest K a recognition) st r st'.
Proof.
  intros H.
  now apply (authorized_outcome statusReply TaskGet
               (fun a => statusRequest K a recognition)).
Qed.

(** A status query that returned: its events and the count of queries. *)
Lemma getRecognitionStatus_returned recognition st s st' :
  getRecognitionStatus K env recognition st = (Ok s, st') ->
  exists new t,
    trace st' = trace st ++ new
    /\ withoutTokenExchanges new
       = [EvRequest TaskGet (statusRequest K t recognition)]
    /\ statusReply env (pred (requestsTo TaskGet (trace st'))) = inr s.
Proof.
  intros H.
  destruct (getRecognitionStatus_outcome recognition st _ st' H)
    as (new & Htr & _ & [(_ & e & He & _) | (t & _ & Hw & Hr)]);
    [discriminate He | ].
  exists new, (access_token t). split; [exact Htr | split; [exact Hw | ]].
  rewrite Htr, requestsTo_app.
  rewrite <- (requestsTo_without TaskGet new eq_refl), Hw.
  replace (requestsTo TaskGet
             [EvRequest TaskGet (statusRequest K (access_token t) recognition)])
    with 1%nat by reflexivity.
  rewrite Nat.add_1_r. cbn [pred].
  destruct (statusReply env (requestsTo TaskGet (trace st))) as [m | d];
    cbn in Hr; [discriminate Hr | now injection Hr as ->].
Qed.

(** The loop, precisely: its events, what it returns, when it times out. *)
Lemma pollLoop_precise fuel :
  forall startTime recognition s st r st',
    pollLoop K env fuel startTime recognition s st = Some (r, st') ->
    exists new ts,
      trace st' = trace st ++ new
      /\ match r with
         | Ok s' =>
             RecognitionStatusResponse.status s' = "DONE"
             /\ withoutTokenExchanges new = pollRounds K recognition ts
             /\ ((st' = st /\ s' = s)
                 \/ statusReply env (pred (requestsTo TaskGet (trace st')))
                    = inr s')
         | Throw e =>
             e = Error "Recognition timeout" ->
             Date_now env st' - startTime > MAX_WAIT_TIME K
             /\ ((st' = st /\ RecognitionStatusResponse.status s <> "DONE")
                 \/ exists s',
                      statusReply env (pred (requestsTo TaskGet (trace st')))
                      = inr s'
                      /\ RecognitionStatusResponse.status s' <> "DONE")
         end.
Proof.
  induction fuel as [| fuel IH]; intros startTime recognition s st r st' H;
    [discriminate H | ].
  cbn [pollLoop] in H.
  destruct (String.eqb_spec (RecognitionStatusResponse.status s) "DONE")
    as [Hd | Hd].
  { injection H as <- <-. exists [], []. rewrite app_nil_r.
    split; [reflexivity | ]. auto. }
  destruct (Z.gtb_spec (Date_now env st - startTime) (MAX_WAIT_TIME K))
    as [Hgt | Hle].
  { injection H as <- <-. exists [], []. rewrite app_nil_r.
    split; [reflexivity | ]. intros _. split; [lia | auto]. }
  unfold bindF in H. rewrite delay_then_status in H.
  set (d := EvDelay (RECOGNITION_POLLING_DELAY K)) in *.
  destruct (getRecognitionStatus K env recognition (log d st))
    as [[s1 | e] st1] eqn:Hq.
  - destruct (getRecognitionStatus_returned recognition _ s1 st1 Hq)
      as (new1 & t & Htr1 & Hw1 & Hlast1).
    destruct (IH startTime recognition s1 st1 r st' H)
      as (new2 & ts & Htr2 & Hr2).
    exists (([d] ++ new1) ++ new2), (t :: ts).
    split.
    { rewrite Htr2, Htr1. cbn [log trace]. now repeat rewrite <- app_assoc. }
    destruct r as [s' | e].
    + destruct Hr2 as (Hdone & Hw2 & Hlast2).
      split; [exact Hdone | split].
      * rewrite !withoutTokenExchanges_app, Hw1, Hw2. reflexivity.
      * right. destruct Hlast2 as [[-> ->] | Hlast2]; assumption.
    + intros He. destruct (Hr2 He) as (Hlate & Hlast2).
      split; [exact Hlate | right].
      destruct Hlast2 as [[-> Hnd] | Hlast2]; eauto.
  - injection H as <- <-.
    destruct (getRecognitionStatus_outcome recognition _ _ st1 Hq)
      as (new1 & Htr1 & _ & [(_ & e' & [= <-] & He) | (t & _ & _ & Hr)]);
      exists ([d] ++ new1), [];
      (split; [rewrite Htr1; cbn [log trace]; now rewrite <- app_assoc | ]);
      intros Hto.
    + now apply (tokenFailure_not_timeout env e) in He.
    + subst e.
      destruct (statusReply env (requestsTo TaskGet (trace (log d st))));
        discriminate Hr.
Qed.

Lemma pollRecognition_returned fuel recognition st s st' :
  pollRecognition K env fuel recognition st = Some (Ok s, st') ->
  RecognitionStatusResponse.status s = "DONE"
  /\ statusReply env (pred (requestsTo TaskGet (trace st'))) = inr s
  /\ exists new t ts,
       trace st' = trace st ++ new
       /\ withoutTokenExchanges new
          = EvRequest TaskGet (statusRequest K t recognition)
            :: pollRounds K recognition ts.
Proof.
  intros H. unfold pollRecognition, bindF in H.
  destruct (getRecognitionStatus K env recognition st) as [[s1 | e] st1] eqn:Hq;
    [ | discriminate H].
  destruct (getRecognitionStatus_returned recognition st s1 st1 Hq)
    as (new1 & t & Htr1 & Hw1 & Hlast1).
  destruct (pollLoop_precise fuel _ recognition s1 st1 _ st' H)
    as (new2 & ts & Htr2 & Hdone & Hw2 & Hlast2).
  split; [exact Hdone | split].
  - destruct Hlast2 as [[-> ->] | Hlast2]; assumption.
  - exists (new1 ++ new2), t, ts. split.
    + rewrite Htr2, Htr1. now rewrite <- app_assoc.
    + rewrite withoutTokenExchanges_app, Hw1, Hw2. reflexivity.
Qed.

(** X6.  A status that the polling stage returns says DONE; it is the
    endpoint's answer to the last status query made; and apart from token
    exchanges the stage's events are one status query followed by rounds of
    the polling delay and a status query, all on the URL of the job. *)
Theorem pollRecognition_returns_DONE fuel recognition st s st' :
  pollRecognition K env fuel recognition st = Some (Ok s, st') ->
  RecognitionStatusResponse.status s = "DONE"
  /\ statusReply env (pred (requestsTo TaskGet (trace st'))) = inr s
  /\ exists new t ts,
       trace st' = trace st ++ new
       /\ withoutTokenExchanges new
          = EvRequest TaskGet (statusRequest K t recognition)
            :: pollRounds K recognition ts.
Proof. apply pollRecognition_returned. Qed.

(** X7.  The polling stage never times out early: when it throws
    "Recognition timeout", the clock is more than the maximum wait past the
    reading taken at the start of the stage, and the endpoint's answer to
    the last status query made was a status other than DONE. *)
Theorem pollRecognition_timeout_is_late fuel recognition st st' :
  pollRecognition K env fuel recognition st
  = Some (Throw (Error "Recognition timeout"), st') ->
  Date_now env st' - Date_now env st > MAX_WAIT_TIME K
  /\ exists s,
       statusReply env (pred (requestsTo TaskGet (trace st'))) = inr s
       /\ RecognitionStatusResponse.status s <> "DONE".
Proof.
  intros H. unfold pollRecognition, bindF in H.
  destruct (getRecognitionStatus K env recognition st) as [[s1 | e] st1] eqn:Hq.
  - destruct (getRecognitionStatus_returned recognition st s1 st1 Hq)
      as (new1 & t & Htr1 & Hw1 & Hlast1).
    destruct (pollLoop_precise fuel _ recognition s1 st1 _ st' H)
      as (new2 & ts & Htr2 & Hr2).
    destruct (Hr2 eq_refl) as (Hlate & Hlast2).
    split; [exact Hlate | ].
    destruct Hlast2 as [[-> Hnd] | Hlast2]; eauto.
  - injection H as -> <-.
    destruct (getRecognitionStatus_outcome recognition st _ st1 Hq)
      as (new1 & _ & _ & [(_ & e' & [= <-] & He) | (t & _ & _ & Hr)]).
    + now apply (tokenFailure_not_timeout env _) in He.
    + destruct (statusReply env (requestsTo TaskGet (trace st)));
        discriminate Hr.
Qed.

Lemma clock_monotone_app tr l :
  clockMonotone env -> clock env tr <= clock env (tr ++ l).
Proof.
  intros Hm. induction l as [| x l IH] using rev_ind.
  - rewrite app_nil_r. lia.
  - rewrite app_assoc. specialize (Hm (tr ++ l) x). lia.
Qed.

(** What a status query adds: no delay, at most one query. *)
Lemma getRecognitionStatus_adds recognition st r st' :
  getRecognitionStatus K env recognition st = (r, st') ->
  exists new,
    trace st' = trace st ++ new
    /\ filter isDelay new = []
    /\ (requestsTo TaskGet new <= 1)%nat.
Proof.
  intros H.
  destruct (getRecognitionStatus_outcome recognition st r st' H)
    as (new & Htr & _ & [(Hw & _) | (t & _ & Hw & _)]);
    exists new; (split; [exact Htr | ]);
    rewrite <- (no_delay_without new),
      <- (requestsTo_without TaskGet new eq_refl), Hw;
    split; (reflexivity || (cbn; lia)).
Qed.

Lemma pollLoop_bound fuel :
  timersWait K env -> clockMonotone env ->
  forall startTime recognition s st r st' k,
    k * RECOGNITION_POLLING_DELAY K <= Date_now env st - startTime ->
    pollLoop K env fuel startTime recognition s st = Some (r, st') ->
    exists new,
      trace st' = trace st ++ new
      /\ (Z.of_nat (List.length (filter isDelay new)) = 0
          \/ (k + Z.of_nat (List.length (filter isDelay new)) - 1)
             * RECOGNITION_POLLING_DELAY K <= MAX_WAIT_TIME K)
      /\ (requestsTo TaskGet new <= List.length (filter isDelay new))%nat.
Proof.
  intros Hw Hm.
  induction fuel as [| fuel IH]; intros startTime recognition s st r st' k Hk H;
    [discriminate H | ].
  cbn [pollLoop] in H.
  destruct (RecognitionStatusResponse.status s =? "DONE")%string.
  { injection H as <- <-. exists []. rewrite app_nil_r. cbn. auto. }
  destruct (Z.gtb_spec (Date_now env st - startTime) (MAX_WAIT_TIME K))
    as [Hgt | Hle].
  { injection H as <- <-. exists []. rewrite app_nil_r. cbn. auto. }
  unfold bindF in H. rewrite delay_then_status in H.
  set (D := RECOGNITION_POLLING_DELAY K) in *.
  set (d := EvDelay D) in *.
  destruct (getRecognitionStatus K env recognition (log d st))
    as [r1 st1] eqn:Hq.
  destruct (getRecognitionStatus_adds recognition _ r1 st1 Hq)
    as (new1 & Htr1 & Hd1 & Hq1).
  assert (Hk1 : (k + 1) * D <= Date_now env st1 - startTime).
  { unfold Date_now in *. rewrite Htr1. cbn [log trace].
    pose proof (clock_monotone_app (trace st ++ [d]) new1 Hm).
    specialize (Hw (trace st)). fold D d in Hw. lia. }
  destruct r1 as [s1 | e].
  - destruct (IH startTime recognition s1 st1 r st' (k + 1) Hk1 H)
      as (new2 & Htr2 & Hb2 & Hq2).
    assert (Hlen : List.length (filter isDelay (([d] ++ new1) ++ new2))
                   = S (List.length (filter isDelay new2))).
    { rewrite !filter_app, Hd1, !length_app. reflexivity. }
    exists (([d] ++ new1) ++ new2). split; [ | split].
    + rewrite Htr2, Htr1. cbn [log trace]. now repeat rewrite <- app_assoc.
    + rewrite Hlen. right. destruct Hb2 as [Hz | Hb2]; [ | lia].
      assert (Hz' : List.length (filter isDelay new2) = 0%nat) by lia.
      rewrite Hz'. lia.
    + rewrite Hlen, !requestsTo_app.
      replace (requestsTo TaskGet [d]) with 0%nat by reflexivity. lia.
  - injection H as <- <-.
    assert (Hlen : List.length (filter isDelay ([d] ++ new1)) = 1%nat).
    { rewrite !filter_app, Hd1, !length_app. reflexivity. }
    exists ([d] ++ new1). split; [ | split].
    + rewrite Htr1. cbn [log trace]. now rewrite <- app_assoc.
    + rewrite Hlen. right. lia.
    + rewrite Hlen, !requestsTo_app.
      replace (requestsTo TaskGet [d]) with 0%nat by reflexivity. lia.
Qed.

(** X8.  When timers do not fire early, the clock does not go back and the
    polling delay is positive, a run of the polling stage waits at most
    MAX_WAIT_TIME / RECOGNITION_POLLING_DELAY + 1 times and makes at most
    one status query more than it waits. *)
Theorem pollRecognition_bounded fuel recognition st r st' :
  timersWait K env -> clockMonotone env ->
  0 < RECOGNITION_POLLING_DELAY K -> 0 <= MAX_WAIT_TIME K ->
  pollRecognition K env fuel recognition st = Some (r, st') ->
  exists new,
    trace st' = trace st ++ new
    /\ Z.of_nat (List.length (filter isDelay new))
       <= MAX_WAIT_TIME K / RECOGNITION_POLLING_DELAY K + 1
    /\ (requestsTo TaskGet new <= List.length (filter isDelay new) + 1)%nat.
Proof.
  intros Hw Hm HD HM H. unfold pollRecognition, bindF in H.
  destruct (getRecognitionStatus K env recognition st) as [r1 st1] eqn:Hq.
  destruct (getRecognitionStatus_adds recognition _ r1 st1 Hq)
    as (new1 & Htr1 & Hd1 & Hq1).
  assert (Hdiv : 0 <= MAX_WAIT_TIME K / RECOGNITION_POLLING_DELAY K)
    by (apply Z.div_pos; lia).
  destruct r1 as [s1 | e].
  - assert (Hk : 0 * RECOGNITION_POLLING_DELAY K
                 <= Date_now env st1 - Date_now env st).
    { unfold Date_now. rewrite Htr1.
      pose proof (clock_monotone_app (trace st) new1 Hm). lia. }
    destruct (pollLoop_bound fuel Hw Hm _ recognition s1 st1 r st' 0 Hk H)
      as (new2 & Htr2 & Hb2 & Hq2).
    exists (new1 ++ new2). split; [ | split].
    + rewrite Htr2, Htr1. now rewrite <- app_assoc.
    + rewrite filter_app, Hd1. cbn [app].
      destruct Hb2 as [Hz | Hb2]; [lia | ].
      assert (Z.of_nat (List.length (filter isDelay new2)) - 1
              <= MAX_WAIT_TIME K / RECOGNITION_POLLING_DELAY K); [ | lia].
      apply Z.div_le_lower_bound; lia.
    + rewrite requestsTo_app, filter_app, Hd1. cbn [app]. lia.
  - injection H as <- <-. exists new1.
    split; [exact Htr1 | split].
    + rewrite Hd1. cbn. lia.
    + lia.
Qed.

Lemma bearerOutcome_Ok {A} (reply : Env -> nat -> string + A) ep mkRequest
    st (a : A) st' :
  bearerOutcome env reply ep mkRequest st (Ok a) st' ->
  exists new t,
    trace st' = trace st ++ new
    /\ withoutTokenExchanges new = [EvRequest ep (mkRequest t)]
    /\ reply env (requestsTo ep (trace st)) = inr a.
Proof.
  intros (new & Htr & _ & [(_ & e & He & _) | (t & _ & Hw & Hr)]);
    [discriminate He | ].
  exists new, (access_token t). split; [exact Htr | split; [exact Hw | ]].
  destruct (reply env (requestsTo ep (trace st))); cbn in Hr;
    [discriminate Hr | now injection Hr as ->].
Qed.

Lemma requestsTo_single ep ep' req :
  requestsTo ep [EvRequest ep' req]
  = if Endpoint_eqb ep ep' then 1%nat else 0%nat.
Proof. unfold requestsTo. cbn. now destruct (Endpoint_eqb ep ep'). Qed.

Lemma requestsTo_pollRounds ep recognition ts :
  requestsTo ep (pollRounds K recognition ts)
  = if Endpoint_eqb ep TaskGet then List.length ts else 0%nat.
Proof.
  unfold pollRounds. induction ts as [| t ts IH]; [now destruct ep | ].
  cbn [flat_map]. rewrite requestsTo_app, IH. now destruct ep.
Qed.

(** X9.  What one stage returns is what the next one sends: in a call of
    [speechToText] that resolves, the start request carries the file
    handle that the endpoint answered to this call's upload request, the
    encoding given and the sample rate and channel count of the metadata;
    every status query is on the id answered to this call's start request;
    the download asks for the response file of the DONE status answered to
    this call's last status query; and the value is the aggregate of the
    answer to this call's download request.  Apart from token exchanges
    these are all the events of the call, in this order. *)
Theorem speechToText_data_flow fuel audioPath encoding st res st' :
  speechToText K env fuel audioPath encoding st = Some (Ok res, st') ->
  exists metadata u j s d,
    metadataOf env audioPath = inr metadata
    /\ uploadReply env (requestsTo DataUpload (trace st)) = inr u
    /\ recognizeReply env (requestsTo AsyncRecognize (trace st)) = inr j
    /\ RecognitionStatusResponse.status s = "DONE"
    /\ downloadReply env (requestsTo DataDownload (trace st)) = inr d
    /\ res = aggregate d
    /\ exists new t1 t2 t3 ts t4,
         trace st' = trace st ++ new
         /\ withoutTokenExchanges new
            = [EvParseFile audioPath;
               EvRequest DataUpload (uploadRequest K t1 audioPath);
               EvRequest AsyncRecognize
                 (recognizeRequest K t2 u metadata encoding);
               EvRequest TaskGet (statusRequest K t3 j)]
              ++ pollRounds K j ts
              ++ [EvRequest DataDownload (downloadRequest K t4 s)]
         /\ statusReply env (requestsTo TaskGet (trace st) + List.length ts)
            = inr s.
Proof.
  intros H. unfold speechToText in H.
  unfold bindF at 1 in H. unfold parseFile in H.
  destruct (metadataOf env audioPath) as [m | metadata] eqn:Hp;
    [discriminate H | ].
  set (p := EvParseFile audioPath) in *.
  unfold bindF at 1 in H.
  destruct (uploadFileForRecognition K env audioPath (log p st))
    as [[u | e] st1] eqn:H1; [ | discriminate H].
  apply (authorized_outcome uploadReply DataUpload
           (fun a => uploadRequest K a audioPath) _ _ _ eq_refl) in H1.
  apply bearerOutcome_Ok in H1. destruct H1 as (new1 & t1 & Htr1 & Hw1 & Hr1).
  unfold bindF at 1 in H.
  destruct (startRecognition K env u metadata encoding st1)
    as [[j | e] st2] eqn:H2; [ | discriminate H].
  apply (authorized_outcome recognizeReply AsyncRecognize
           (fun a => recognizeRequest K a u metadata encoding) _ _ _ eq_refl)
    in H2.
  apply bearerOutcome_Ok in H2. destruct H2 as (new2 & t2 & Htr2 & Hw2 & Hr2).
  unfold bindFF at 1 in H.
  destruct (pollRecognition K env fuel j st2) as [[[s | e] st3] | ] eqn:H3;
    try discriminate H.
  destruct (pollRecognition_returned fuel j st2 s st3 H3)
    as (Hdone & Hlast & new3 & t3 & ts & Htr3 & Hw3).
  unfold bindF at 1 in H.
  destruct (getRecognitionResult K env s st3) as [[d | e] st4] eqn:H4;
    [ | discriminate H].
  apply (authorized_outcome downloadReply DataDownload
           (fun a => downloadRequest K a s) _ _ _ eq_refl) in H4.
  apply bearerOutcome_Ok in H4. destruct H4 as (new4 & t4 & Htr4 & Hw4 & Hr4).
  unfold retF in H. injection H as <- <-.
  cbv beta in Hw1, Hw2, Hw4.
  change (EvRequest TaskGet (statusRequest K t3 j) :: pollRounds K j ts)
    with ([EvRequest TaskGet (statusRequest K t3 j)] ++ pollRounds K j ts)
    in Hw3.
  assert (Hcount : forall ep,
            Endpoint_eqb ep TokenExchange = false ->
            requestsTo ep (trace st1) = requestsTo ep (trace (log p st) ++ new1)
            /\ requestsTo ep new1
               = (if Endpoint_eqb ep DataUpload then 1 else 0)%nat
            /\ requestsTo ep new2
               = (if Endpoint_eqb ep AsyncRecognize then 1 else 0)%nat
            /\ requestsTo ep new3
               = ((if Endpoint_eqb ep TaskGet then 1 else 0)
                  + (if Endpoint_eqb ep TaskGet then List.length ts else 0))%nat).
  { intros ep Hep. split; [now rewrite Htr1 | ].
    rewrite <- (requestsTo_without ep new1 Hep),
      <- (requestsTo_without ep new2 Hep),
      <- (requestsTo_without ep new3 Hep), Hw1, Hw2, Hw3.
    now rewrite requestsTo_app, requestsTo_pollRounds, !requestsTo_single. }
  assert (E0 : forall ep, requestsTo ep (trace (log p st))
                          = requestsTo ep (trace st)).
  { intros ep. cbn [log trace]. rewrite requestsTo_app.
    replace (requestsTo ep [p]) with 0%nat by reflexivity. lia. }
  exists metadata, u, j, s, d.
  split; [reflexivity | split; [ | split; [ | split; [exact Hdone | split; [ | split; [reflexivity | ]]]]]].
  - now rewrite <- E0.
  - destruct (Hcount AsyncRecognize eq_refl) as (_ & C1 & _).
    rewrite <- Hr2. f_equal.
    rewrite Htr1, requestsTo_app, E0, C1. cbn [Endpoint_eqb]. lia.
  - destruct (Hcount DataDownload eq_refl) as (_ & C1 & C2 & C3).
    rewrite <- Hr4. f_equal.
    rewrite Htr3, Htr2, Htr1, !requestsTo_app, E0, C1, C2, C3.
    cbn [Endpoint_eqb]. lia.
  - exists ([p] ++ new1 ++ new2 ++ new3 ++ new4), t1, t2, t3, ts, t4.
    split; [ | split].
    + rewrite Htr4, Htr3, Htr2, Htr1. cbn [log trace].
      now repeat rewrite <- app_assoc.
    + rewrite !withoutTokenExchanges_app, Hw1, Hw2, Hw3, Hw4. reflexivity.
    + destruct (Hcount TaskGet eq_refl) as (_ & C1 & C2 & C3).
      rewrite <- Hlast. f_equal.
      rewrite Htr3, Htr2, Htr1, !requestsTo_app, E0, C1, C2, C3.
      cbn [Endpoint_eqb]. lia.
Qed.

(** X10.  A file whose metadata cannot be read fails the call before
    anything is sent, whatever the fuel; and a call never throws the
    rejection of the metadata reader in any other way: when it does, the
    only event of the call is the read, and the object is as it was. *)
Theorem speechToText_unreadable_file audioPath encoding st :
  (forall m fuel,
     metadataOf env audioPath = inl m ->
     speechToText K env fuel audioPath encoding st
     = Some (Throw (ParseFileError m), log (EvParseFile audioPath) st))
  /\ (forall m fuel st',
        speechToText K env fuel audioPath encoding st
        = Some (Throw (ParseFileError m), st') ->
        metadataOf env audioPath = inl m
        /\ st' = log (EvParseFile audioPath) st).
Proof.
  split.
  - intros m fuel Hm. unfold speechToText, bindF, parseFile. now rewrite Hm.
  - intros m fuel st' H.
    assert (Hm : metadataOf env audioPath = inl m).
    { destruct (speechToText_run K env fuel audioPath encoding st _ st' _
                  eq_refl H) as (_ & new & k & ss & _ & _ & _ & Hth).
      destruct Hth as [Hth | [Hth | [(m' & Hm & [= ->]) | Hth]]];
        try discriminate Hth; [exact Hm | ].
      repeat destruct Hth as [(n & m' & _ & Hth) | Hth];
        try discriminate Hth.
      destruct Hth as (n & m' & _ & Hth). discriminate Hth. }
    split; [exact Hm | ].
    unfold speechToText, bindF, parseFile in H. rewrite Hm in H.
    now injection H as <-.
Qed.

End Bearer.

(** ** Invariants of a whole call *)

Section RunInvariant.

Context (K : Constants) (env : Env).

(** [Q st new st'] summarises steps that went well, [R] steps of which the
    last may have failed. *)
Variables Q R : State -> list Event -> State -> Prop.

Hypothesis Q_R : forall st new st', Q st new st' -> R st new st'.
Hypothesis Q_refl : forall st, Q st [] st.
Hypothesis Q_trans :
  forall st n1 st1 n2 st2,
    Q st n1 st1 -> Q st1 n2 st2 -> Q st (n1 ++ n2) st2.
Hypothesis R_trans :
  forall st n1 st1 n2 st2,
    Q st n1 st1 -> R st1 n2 st2 -> R st (n1 ++ n2) st2.
Hypothesis Q_log :
  forall st e, isRequestTo TokenExchange e = false -> Q st [e] (log e st).
Hypothesis Q_token :
  forall st t st',
    getAccessToken K env st = (Ok t, st') ->
    exists new, trace st' = trace st ++ new /\ Q st new st'.
Hypothesis R_token :
  forall st e st',
    getAccessToken K env st = (Throw e, st') ->
    exists new, trace st' = trace st ++ new /\ R st new st'.

Lemma authorized_invariant {A} (reply : Env -> nat -> string + A)
    (ep : Endpoint) (f : SberSaluteToken -> Request) st (r : Res A) st' :
  Endpoint_eqb ep TokenExchange = false ->
  (t <- getAccessToken K env ;; axios env reply ep (f t))%async st = (r, st') ->
  exists new,
    trace st' = trace st ++ new
    /\ match r with
       | Ok _ => Q st new st'
       | Throw _ => R st new st'
       end.
Proof.
  intros Hep H. unfold bind in H.
  destruct (getAccessToken K env st) as [[t | e] st1] eqn:Hq.
  - destruct (Q_token st t st1 Hq) as (tok & Htr & HQ).
    assert (HQ1 : Q st (tok ++ [EvRequest ep (f t)])
                    (log (EvRequest ep (f t)) st1)).
    { apply (Q_trans st tok st1); [exact HQ | ]. apply Q_log.
      destruct ep; (discriminate Hep || reflexivity). }
    unfold axios in H.
    destruct (reply env (requestsTo ep (trace st1))); injection H as <- <-;
      exists (tok ++ [EvRequest ep (f t)]);
      (split; [cbn [log trace]; now rewrite Htr, <- app_assoc | ]); auto.
  - injection H as <- <-. exact (R_token st e st1 Hq).
Qed.

Lemma pollLoop_invariant fuel :
  forall startTime recognition s st r st',
    pollLoop K env fuel startTime recognition s st = Some (r, st') ->
    exists new,
      trace st' = trace st ++ new
      /\ match r with
         | Ok _ => Q st new st'
         | Throw _ => R st new st'
         end.
Proof.
  induction fuel as [| fuel IH]; intros startTime recognition s st r st' H;
    [discriminate H | ].
  cbn [pollLoop] in H.
  destruct (RecognitionStatusResponse.status s =? "DONE")%string.
  { injection H as <- <-. exists []. rewrite app_nil_r. auto. }
  destruct (Date_now env st - startTime >? MAX_WAIT_TIME K).
  { injection H as <- <-. exists []. rewrite app_nil_r. auto. }
  unfold bindF in H. rewrite delay_then_status in H.
  set (d := EvDelay (RECOGNITION_POLLING_DELAY K)) in *.
  assert (Hd : Q st [d] (log d st)) by (now apply Q_log).
  destruct (getRecognitionStatus K env recognition (log d st))
    as [r1 st1] eqn:Hq.
  unfold getRecognitionStatus in Hq.
  apply authorized_invariant in Hq; [ | reflexivity].
  destruct Hq as (new1 & Htr1 & H1).
  destruct r1 as [s1 | e].
  - destruct (IH startTime recognition s1 st1 r st' H) as (new2 & Htr2 & H2).
    exists (([d] ++ new1) ++ new2). split.
    + rewrite Htr2, Htr1. cbn [log trace]. now repeat rewrite <- app_assoc.
    + assert (HQ : Q st ([d] ++ new1) st1) by (now apply (Q_trans st [d] (log d st))).
      destruct r; [now apply (Q_trans st _ st1) | now apply (R_trans st _ st1)].
  - injection H as <- <-. exists ([d] ++ new1). split.
    + rewrite Htr1. cbn [log trace]. now rewrite <- app_assoc.
    + now apply (R_trans st [d] (log d st)).
Qed.

(** What every step keeps, a call keeps. *)
Lemma speechToText_invariant fuel audioPath encoding st r st' :
  speechToText K env fuel audioPath encoding st = Some (r, st') ->
  exists new,
    trace st' = trace st ++ new
    /\ match r with
       | Ok _ => Q st new st'
       | Throw _ => R st new st'
       end.
Proof.
  intros H. unfold speechToText in H.
  unfold bindF at 1 in H. unfold parseFile in H.
  set (p := EvParseFile audioPath) in *.
  assert (H0 : Q st [p] (log p st)) by (now apply Q_log).
  destruct (metadataOf env audioPath) as [m | metadata].
  { injection H as <- <-. exists [p]. split; [reflexivity | auto]. }
  unfold bindF at 1 in H.
  destruct (uploadFileForRecognition K env audioPath (log p st))
    as [r1 st1] eqn:H1.
  unfold uploadFileForRecognition in H1.
  apply authorized_invariant in H1; [ | reflexivity].
  destruct H1 as (new1 & Htr1 & H1).
  destruct r1 as [u | e].
  2: { injection H as <- <-. exists ([p] ++ new1). split.
       - rewrite Htr1. cbn [log trace]. now rewrite <- app_assoc.
       - now apply (R_trans st [p] (log p st)). }
  assert (H01 : Q st ([p] ++ new1) st1) by (now apply (Q_trans st [p] (log p st))).
  assert (Htr01 : trace st1 = trace st ++ [p] ++ new1).
  { rewrite Htr1. cbn [log trace]. now rewrite <- app_assoc. }
  clear H0 H1 Htr1.
  unfold bindF at 1 in H.
  destruct (startRecognition K env u metadata encoding st1) as [r2 st2] eqn:H2.
  unfold startRecognition in H2.
  apply authorized_invariant in H2; [ | reflexivity].
  destruct H2 as (new2 & Htr2 & H2).
  destruct r2 as [j | e].
  2: { injection H as <- <-. exists (([p] ++ new1) ++ new2). split.
       - rewrite Htr2, Htr01. now rewrite <- app_assoc.
       - now apply (R_trans st _ st1). }
  assert (H012 : Q st (([p] ++ new1) ++ new2) st2) by (now apply (Q_trans st _ st1)).
  assert (Htr012 : trace st2 = trace st ++ ([p] ++ new1) ++ new2).
  { rewrite Htr2, Htr01. now rewrite <- app_assoc. }
  clear H01 H2 Htr2 Htr01.
  unfold bindFF at 1 in H.
  destruct (pollRecognition K env fuel j st2) as [[r3 st3] | ] eqn:H3;
    [ | discriminate H].
  assert (H3' : exists new3,
             trace st3 = trace st2 ++ new3
             /\ match r3 with
                | Ok _ => Q st2 new3 st3
                | Throw _ => R st2 new3 st3
                end).
  { unfold pollRecognition, bindF in H3.
    destruct (getRecognitionStatus K env j st2) as [r0 st0] eqn:Hq.
    unfold getRecognitionStatus in Hq.
    apply authorized_invariant in Hq; [ | reflexivity].
    destruct Hq as (new0 & Htr0 & Hq0).
    destruct r0 as [s0 | e].
    - destruct (pollLoop_invariant fuel _ j s0 st0 r3 st3 H3)
        as (new3 & Htr3 & Hl).
      exists (new0 ++ new3). split; [rewrite Htr3, Htr0; now rewrite <- app_assoc | ].
      destruct r3; [now apply (Q_trans st2 _ st0) | now apply (R_trans st2 _ st0)].
    - injection H3 as <- <-. eauto. }
  destruct H3' as (new3 & Htr3 & Hl).
  destruct r3 as [s | e].
  2: { injection H as <- <-. exists ((([p] ++ new1) ++ new2) ++ new3). split.
       - rewrite Htr3, Htr012. now rewrite <- app_assoc.
       - now apply (R_trans st _ st2). }
  assert (H0123 : Q st ((([p] ++ new1) ++ new2) ++ new3) st3)
    by (now apply (Q_trans st _ st2)).
  assert (Htr0123 : trace st3 = trace st ++ (([p] ++ new1) ++ new2) ++ new3).
  { rewrite Htr3, Htr012. now rewrite <- app_assoc. }
  clear H012 Hl Htr3 Htr012.
  unfold bindF at 1 in H.
  destruct (getRecognitionResult K env s st3) as [r4 st4] eqn:H4.
  unfold getRecognitionResult in H4.
  apply authorized_invariant in H4; [ | reflexivity].
  destruct H4 as (new4 & Htr4 & H4).
  exists (((([p] ++ new1) ++ new2) ++ new3) ++ new4).
  destruct r4 as [d | e]; [unfold retF in H | ]; injection H as <- <-;
    (split; [rewrite Htr4, Htr0123; now rewrite <- app_assoc | ]).
  - now apply (Q_trans st _ st3).
  - now apply (R_trans st _ st3).
Qed.

End RunInvariant.

(** ** The token is kept across the stages *)

Section Cache.

Context (K : Constants) (env : Env).

Lemma settled_needsUpdate st : settled K env st -> needsUpdate K env st = false.
Proof.
  intros (t & Ht & Hlast). rewrite (needsUpdate_held K env st t Ht).
  apply Z.ltb_ge. apply Hlast.
Qed.

Lemma settled_not_absent st : settled K env st -> token (this st) <> None.
Proof. intros (t & Ht & _). congruence. Qed.

(** X11.  When every token the endpoint gives passes the accessor's test
    for good, a call of [speechToText] started without a token makes at most
    one token exchange for all its requests, and a call started with such a
    token held makes none. *)
Theorem speechToText_token_cached fuel audioPath encoding st r st' :
  tokensLast K env ->
  speechToText K env fuel audioPath encoding st = Some (r, st') ->
  exists new,
    trace st' = trace st ++ new
    /\ (settled K env st -> requestsTo TokenExchange new = 0%nat)
    /\ (token (this st) = None -> (requestsTo TokenExchange new <= 1)%nat).
Proof.
  intros Hlast H.
  set (Q := fun (st : State) (new : list Event) (st' : State) =>
              (settled K env st ->
               settled K env st' /\ requestsTo TokenExchange new = 0%nat)
              /\ (token (this st) = None ->
                  (token (this st') = None
                   /\ requestsTo TokenExchange new = 0%nat)
                  \/ (settled K env st'
                      /\ requestsTo TokenExchange new = 1%nat))).
  set (R := fun (st : State) (new : list Event) (st' : State) =>
              (settled K env st -> requestsTo TokenExchange new = 0%nat)
              /\ (token (this st) = None ->
                  (requestsTo TokenExchange new <= 1)%nat)).
  assert (HQR : forall st new st', Q st new st' -> R st new st').
  { intros s0 new s1 [H1 H2]. split.
    - intros Hs. now destruct (H1 Hs).
    - intros Hn. destruct (H2 Hn) as [[_ ->] | [_ ->]]; lia. }
  assert (Hrefl : forall st, Q st [] st).
  { intros s0. split; auto. }
  assert (Htrans : forall st n1 st1 n2 st2,
             Q st n1 st1 -> Q st1 n2 st2 -> Q st (n1 ++ n2) st2).
  { intros s0 n1 s1 n2 s2 [A1 A2] [B1 B2]. split.
    - intros Hs. destruct (A1 Hs) as [Hs1 Hc1]. destruct (B1 Hs1) as [Hs2 Hc2].
      split; [exact Hs2 | ]. rewrite requestsTo_app. lia.
    - intros Hn. rewrite requestsTo_app.
      destruct (A2 Hn) as [[Hn1 Hc1] | [Hs1 Hc1]].
      + destruct (B2 Hn1) as [[Hn2 Hc2] | [Hs2 Hc2]];
          [left | right]; split; auto; lia.
      + destruct (B1 Hs1) as [Hs2 Hc2]. right. split; [exact Hs2 | lia]. }
  assert (HRtrans : forall st n1 st1 n2 st2,
             Q st n1 st1 -> R st1 n2 st2 -> R st (n1 ++ n2) st2).
  { intros s0 n1 s1 n2 s2 [A1 A2] [B1 B2]. split.
    - intros Hs. destruct (A1 Hs) as [Hs1 Hc1]. rewrite requestsTo_app.
      rewrite (B1 Hs1). lia.
    - intros Hn. rewrite requestsTo_app.
      destruct (A2 Hn) as [[Hn1 Hc1] | [Hs1 Hc1]].
      + specialize (B2 Hn1). lia.
      + rewrite (B1 Hs1). lia. }
  assert (Hlog : forall st e,
             isRequestTo TokenExchange e = false -> Q st [e] (log e st)).
  { intros s0 e He.
    assert (Hc : requestsTo TokenExchange [e] = 0%nat).
    { unfold requestsTo. cbn. now rewrite He. }
    split; [intros Hs; split; [exact Hs | exact Hc] | ].
    intros Hn. left. split; [exact Hn | exact Hc]. }
  assert (Htoken : forall st t st',
             getAccessToken K env st = (Ok t, st') ->
             exists new, trace st' = trace st ++ new /\ Q st new st').
  { intros s0 t s1 Hq.
    destruct (getAccessToken_inv K env s0 _ s1 Hq)
      as [(_ & -> & t' & _ & Ht) | (Hn & _ & _ & Htr & Hrep)].
    - exists []. rewrite app_nil_r. split; [reflexivity | apply Hrefl].
    - exists [EvRequest TokenExchange (tokenRequest K (this s0))].
      split; [exact Htr | ]. split.
      + intros Hs. rewrite (settled_needsUpdate s0 Hs) in Hn. discriminate Hn.
      + intros _. right. split; [ | reflexivity].
        destruct (tokenReply env (requestsTo TokenExchange (trace s0)))
          as [m | [t' | ]] eqn:Hreply; destruct Hrep as [Hrep Ht];
          try discriminate Hrep.
        exists t'. split; [exact Ht | ]. intros tr.
        exact (Hlast _ t' tr Hreply). }
  assert (HRtoken : forall st e st',
             getAccessToken K env st = (Throw e, st') ->
             exists new, trace st' = trace st ++ new /\ R st new st').
  { intros s0 e s1 Hq.
    destruct (getAccessToken_inv K env s0 _ s1 Hq)
      as [(_ & _ & t' & Hr & _) | (Hn & _ & _ & Htr & _)];
      [discriminate Hr | ].
    exists [EvRequest TokenExchange (tokenRequest K (this s0))].
    split; [exact Htr | ]. split.
    - intros Hs. rewrite (settled_needsUpdate s0 Hs) in Hn. discriminate Hn.
    - intros _. cbn. lia. }
  destruct (speechToText_invariant K env Q R HQR Hrefl Htrans HRtrans Hlog
              Htoken HRtoken fuel audioPath encoding st r st' H)
    as (new & Htr & Hr).
  exists new. split; [exact Htr | ].
  destruct r; [apply HQR in Hr | ]; exact Hr.
Qed.

End Cache.

Lemma speechToText_token_cached_witness :
  exists r st' new,
    speechToText K0 envExpired 1 "voice.mp3" "MP3" (holding None) = Some (r, st')
    /\ trace st' = trace (holding None) ++ new
    /\ (requestsTo TokenExchange new <= 1)%nat.
Proof.
  destruct (speechToText K0 envExpired 1 "voice.mp3" "MP3" (holding None))
    as [[r st'] | ] eqn:H; [ | vm_compute in H; discriminate H].
  assert (Hlast : tokensLast K0 envExpired).
  { intros n t tr Ht. cbn in Ht. injection Ht as <-.
    unfold envExpired, scenario, K0. cbn [clock MAX_WAIT_TIME].
    vm_compute. discriminate. }
  destruct (speechToText_token_cached K0 envExpired 1 "voice.mp3" "MP3"
              (holding None) r st' Hlast H) as (new & Htr & _ & Hc).
  exists r, st', new. split; [reflexivity | split; [exact Htr | ]].
  apply Hc. reflexivity.
Defined.

(** ** The returned strings *)

Lemma trimStart_head s c s' : trimStart s = c :: s' -> isWhiteSpace c = false.
Proof.
  induction s as [| a s IH]; cbn; [discriminate | ].
  destruct (isWhiteSpace a) eqn:Ha; [exact IH | ].
  intros [= <- <-]. exact Ha.
Qed.

Lemma trimStart_nil s : trimStart s = [] <-> forallb isWhiteSpace s = true.
Proof.
  induction s as [| a s IH]; cbn; [tauto | ].
  destruct (isWhiteSpace a); cbn; [exact IH | ].
  split; discriminate.
Qed.

Lemma trimStart_snoc s c :
  isWhiteSpace c = false -> trimStart (s ++ [c]) = trimStart s ++ [c].
Proof.
  intros Hc. induction s as [| a s IH]; cbn.
  - now rewrite Hc.
  - destruct (isWhiteSpace a); [exact IH | reflexivity].
Qed.

Lemma trimStart_fix s :
  (forall c s', s = c :: s' -> isWhiteSpace c = false) -> trimStart s = s.
Proof.
  destruct s as [| a s]; intros H; [reflexivity | ].
  cbn. now rewrite (H a s eq_refl).
Qed.

Lemma trimEnd_cons c s :
  isWhiteSpace c = false -> trimEnd (c :: s) = c :: trimEnd s.
Proof.
  intros Hc. unfold trimEnd. cbn [rev].
  rewrite (trimStart_snoc _ c Hc), rev_app_distr. reflexivity.
Qed.

Lemma trimEnd_last s s' c : trimEnd s = s' ++ [c] -> isWhiteSpace c = false.
Proof.
  unfold trimEnd. intros H.
  apply (f_equal (@rev N)) in H. rewrite rev_involutive, rev_app_distr in H.
  cbn in H. exact (trimStart_head _ _ _ H).
Qed.

Lemma trim_trimmed s : trimmed (trim s).
Proof.
  unfold trim. split.
  - intros c s' H. destruct (trimStart s) as [| a u] eqn:Hs;
      [discriminate H | ].
    pose proof (trimStart_head _ _ _ Hs) as Ha.
    rewrite (trimEnd_cons a u Ha) in H. now injection H as <- _.
  - intros s' c H. exact (trimEnd_last _ _ _ H).
Qed.

Lemma trim_fix s : trimmed s -> trim s = s.
Proof.
  intros [Hfirst Hlast]. unfold trim. rewrite (trimStart_fix s Hfirst).
  destruct s as [| a u]; [reflexivity | ].
  destruct (@exists_last N (a :: u)) as (s' & c & Hs); [discriminate | ].
  pose proof (Hlast s' c Hs) as Hc. rewrite Hs. unfold trimEnd.
  rewrite rev_app_distr. cbn [rev app trimStart]. rewrite Hc.
  cbn [rev]. now rewrite rev_involutive.
Qed.

Lemma trim_nil s : trim s = [] <-> forallb isWhiteSpace s = true.
Proof.
  rewrite <- trimStart_nil. unfold trim. split.
  - destruct (trimStart s) as [| a u] eqn:Hs; [reflexivity | ].
    rewrite (trimEnd_cons a u (trimStart_head _ _ _ Hs)). discriminate.
  - intros ->. reflexivity.
Qed.

Lemma forallb_joined (field : Fragment -> jsstring) (fs : list Fragment) :
  forallb isWhiteSpace (List.concat (map (fun f => SPACE ++ field f) fs)) = true
  <-> forall f, In f fs -> forallb isWhiteSpace (field f) = true.
Proof.
  induction fs as [| f fs IH]; cbn [map List.concat].
  - split; [intros _ f [] | reflexivity].
  - rewrite !forallb_app, !andb_true_iff, IH.
    replace (forallb isWhiteSpace SPACE) with true by reflexivity.
    split.
    + intros [[_ Hf] Hfs] g [<- | Hg]; auto.
    + intros H. repeat split; [apply H; now left | ].
      intros g Hg. apply H. now right.
Qed.

Lemma reduceText_fragments result :
  reduceText result
  = trim (List.concat (map (fun f => SPACE ++ text f) (fragments result))).
Proof. unfold reduceText, fragments. now rewrite (reduce_chain text). Qed.

Lemma reduceNormalizedText_fragments result :
  reduceNormalizedText result
  = trim (List.concat
            (map (fun f => SPACE ++ normalized_text f) (fragments result))).
Proof.
  unfold reduceNormalizedText, fragments.
  now rewrite (reduce_chain normalized_text).
Qed.

Lemma trim_leading_space s : trimmed s -> trim (SPACE ++ s) = s.
Proof.
  intros Hs. rewrite <- (trim_fix s Hs) at 2. reflexivity.
Qed.

(** X12.  Neither string of the returned object begins or ends with white
    space, whatever the service sent. *)
Theorem aggregate_trimmed result :
  trimmed (SpeechToTextResult.text (aggregate result))
  /\ trimmed (SpeechToTextResult.normalizedText (aggregate result)).
Proof. split; apply trim_trimmed. Qed.

(** X13.  The returned text is empty exactly when every fragment's text is
    white space only, in particular when there is no fragment; the same for
    the normalised text. *)
Theorem aggregate_empty_iff result :
  (SpeechToTextResult.text (aggregate result) = []
   <-> forall f, In f (fragments result) ->
                 forallb isWhiteSpace (text f) = true)
  /\ (SpeechToTextResult.normalizedText (aggregate result) = []
      <-> forall f, In f (fragments result) ->
                    forallb isWhiteSpace (normalized_text f) = true).
Proof.
  cbn [aggregate SpeechToTextResult.text SpeechToTextResult.normalizedText].
  rewrite reduceText_fragments, reduceNormalizedText_fragments, !trim_nil.
  split; apply forallb_joined.
Qed.

(** X14.  The aggregate depends only on the fragments in their order, not
    on how the service cut them into segments. *)
Theorem aggregate_ignores_segments result1 result2 :
  fragments result1 = fragments result2 ->
  aggregate result1 = aggregate result2.
Proof.
  intros H. unfold aggregate.
  now rewrite !reduceText_fragments, !reduceNormalizedText_fragments, H.
Qed.

(** X15.  When the texts of the fragments joined by single spaces give a
    string that neither begins nor ends with white space, that string is the
    returned text; the same for the normalised text. *)
Theorem aggregate_joins_with_single_spaces result f fs :
  fragments result = f :: fs ->
  (trimmed (text f ++ List.concat (map (fun g => SPACE ++ text g) fs)) ->
   SpeechToTextResult.text (aggregate result)
   = text f ++ List.concat (map (fun g => SPACE ++ text g) fs))
  /\ (trimmed (normalized_text f
               ++ List.concat (map (fun g => SPACE ++ normalized_text g) fs)) ->
      SpeechToTextResult.normalizedText (aggregate result)
      = normalized_text f
        ++ List.concat (map (fun g => SPACE ++ normalized_text g) fs)).
Proof.
  intros Hf.
  cbn [aggregate SpeechToTextResult.text SpeechToTextResult.normalizedText].
  rewrite reduceText_fragments, reduceNormalizedText_fragments, Hf.
  cbn [map List.concat]. rewrite <- !app_assoc.
  split; intros Ht; now apply trim_leading_space.
Qed.

Lemma reduceText_single t n :
  reduceText [ {| results := [ {| text := t; normalized_text := n |} ] |} ]
  = trim (SPACE ++ t).
Proof.
  rewrite reduceText_fragments. unfold fragments.
  cbn [flat_map results app map List.concat text]. now rewrite app_nil_r.
Qed.

Lemma reduceNormalizedText_single t n :
  reduceNormalizedText
    [ {| results := [ {| text := t; normalized_text := n |} ] |} ]
  = trim (SPACE ++ n).
Proof.
  rewrite reduceNormalizedText_fragments. unfold fragments.
  cbn [flat_map results app map List.concat normalized_text].
  now rewrite app_nil_r.
Qed.

(** X16.  Aggregating is stable: the returned strings, given back as the
    one fragment of a result, are returned unchanged. *)
Theorem aggregate_of_aggregate result :
  aggregate
    [ {| results :=
           [ {| text := SpeechToTextResult.text (aggregate result);
                normalized_text :=
                  SpeechToTextResult.normalizedText (aggregate result) |} ] |} ]
  = aggregate result.
Proof.
  assert (Ht : trimmed (SpeechToTextResult.text (aggregate result)))
    by apply trim_trimmed.
  assert (Hn : trimmed (SpeechToTextResult.normalizedText (aggregate result)))
    by apply trim_trimmed.
  unfold aggregate at 1.
  rewrite reduceText_single, reduceNormalizedText_single.
  rewrite (trim_leading_space _ Ht), (trim_leading_space _ Hn).
  reflexivity.
Qed.

(** ** The properties at work on the scenarios *)

Lemma bearer_methods_one_request_witness :
  bearerCall K0 envExpired statusReply TaskGet
    (fun a => statusRequest K0 a job0)
    (holding None)
    (fst (getRecognitionStatus K0 envExpired job0 (holding None)))
    (snd (getRecognitionStatus K0 envExpired job0 (holding None)))
  /\ getRecognitionStatus K0 envRejected job0 (holding None)
     = (Throw (AxiosError "Request failed with status code 401"),
        log (EvRequest TokenExchange (tokenRequest K0 (this (holding None))))
          (holding None)).
Proof.
  split.
  - destruct (bearer_methods_one_request K0 envExpired) as (_ & _ & H & _).
    apply H. reflexivity.
  - destruct (bearer_methods_one_request K0 envRejected) as (_ & _ & H & _).
    destruct (getRecognitionStatus K0 envRejected job0 (holding None))
      as [r st'] eqn:Hq.
    destruct (H job0 (holding None) r st' Hq) as [-> ->]. reflexivity.
Defined.

Lemma pollRecognition_returns_DONE_witness :
  exists s st',
    pollRecognition K0 envThreeQueries 3 job0 (holding (Some (tokenUntil 5000000)))
    = Some (Ok s, st')
    /\ RecognitionStatusResponse.status s = "DONE"
    /\ statusReply envThreeQueries (pred (requestsTo TaskGet (trace st')))
       = inr s.
Proof.
  destruct (pollRecognition K0 envThreeQueries 3 job0
              (holding (Some (tokenUntil 5000000))))
    as [[[s | e] st'] | ] eqn:H; try (vm_compute in H; discriminate H).
  destruct (pollRecognition_returns_DONE K0 envThreeQueries 3 job0 _ s st' H)
    as (H1 & H2 & _).
  exists s, st'. auto.
Defined.

Lemma pollRecognition_timeout_is_late_witness :
  exists st',
    pollRecognition K0 envNeverDone 2 job0 (holding (Some (tokenUntil 5000000)))
    = Some (Throw (Error "Recognition timeout"), st')
    /\ Date_now envNeverDone st'
       - Date_now envNeverDone (holding (Some (tokenUntil 5000000)))
       > MAX_WAIT_TIME K0.
Proof.
  destruct (pollRecognition K0 envNeverDone 2 job0
              (holding (Some (tokenUntil 5000000))))
    as [[[s | e] st'] | ] eqn:H; try (vm_compute in H; discriminate H).
  assert (He : e = Error "Recognition timeout").
  { pose proof H as H0. vm_compute in H0. now injection H0 as <- _. }
  subst e.
  destruct (pollRecognition_timeout_is_late K0 envNeverDone 2 job0 _ st' H)
    as (H1 & _).
  exists st'. auto.
Defined.

Lemma pollRecognition_bounded_witness :
  exists r st' new,
    pollRecognition K0 envNeverDone 2 job0 (holding (Some (tokenUntil 5000000)))
    = Some (r, st')
    /\ trace st' = trace (holding (Some (tokenUntil 5000000))) ++ new
    /\ Z.of_nat (List.length (filter isDelay new))
       <= MAX_WAIT_TIME K0 / RECOGNITION_POLLING_DELAY K0 + 1
    /\ (requestsTo TaskGet new <= List.length (filter isDelay new) + 1)%nat.
Proof.
  destruct (pollRecognition K0 envNeverDone 2 job0
              (holding (Some (tokenUntil 5000000))))
    as [[r st'] | ] eqn:H; [ | vm_compute in H; discriminate H].
  destruct (pollRecognition_bounded K0 envNeverDone 2 job0
              (holding (Some (tokenUntil 5000000))) r st')
    as (new & H1 & H2 & H3).
  - intros tr. unfold envNeverDone, scenario, K0.
    cbn [clock RECOGNITION_POLLING_DELAY].
    rewrite length_app, Nat2Z.inj_add. cbn [List.length]. lia.
  - intros tr e. unfold envNeverDone, scenario. cbn [clock].
    rewrite length_app, Nat2Z.inj_add. cbn [List.length]. lia.
  - reflexivity.
  - vm_compute. discriminate.
  - exact H.
  - exists r, st', new. auto.
Defined.

Lemma speechToText_data_flow_witness :
  exists res st' new t1 t2 t3 ts t4,
    speechToText K0 envThreeQueries 3 "voice.mp3" "MP3" (holding None)
    = Some (Ok res, st')
    /\ res = aggregate helloResult
    /\ trace st' = trace (holding None) ++ new
    /\ withoutTokenExchanges new
       = [EvParseFile "voice.mp3";
          EvRequest DataUpload (uploadRequest K0 t1 "voice.mp3");
          EvRequest AsyncRecognize
            (recognizeRequest K0 t2 {| request_file_id := "file-1" |}
               {| sampleRate := Some 16000; numberOfChannels := Some 1 |} "MP3");
          EvRequest TaskGet (statusRequest K0 t3 job0)]
         ++ pollRounds K0 job0 ts
         ++ [EvRequest DataDownload (downloadRequest K0 t4 (statusOf "DONE"))].
Proof.
  destruct (speechToText K0 envThreeQueries 3 "voice.mp3" "MP3" (holding None))
    as [[[res | e] st'] | ] eqn:H; try (vm_compute in H; discriminate H).
  destruct (speechToText_data_flow K0 envThreeQueries 3 "voice.mp3" "MP3"
              (holding None) res st' H)
    as (m & u & j & s & d & Hm & Hu & Hj & Hdone & Hd & Hres
        & new & t1 & t2 & t3 & ts & t4 & Htr & Hw & Hs).
  cbn in Hm, Hu, Hj, Hd.
  injection Hm as <-. injection Hu as <-. injection Hj as <-.
  injection Hd as <-.
  assert (s = statusOf "DONE").
  { cbn in Hs. destruct (List.length ts) as [| [| n]]; injection Hs as <-;
      (discriminate Hdone || reflexivity). }
  subst s. exists res, st', new, t1, t2, t3, ts, t4. auto.
Defined.

Lemma speechToText_unreadable_file_witness :
  speechToText K0 envNoFile 0 "voice.mp3" "MP3" (holding None)
  = Some (Throw (ParseFileError "ENOENT: no such file or directory"),
          log (EvParseFile "voice.mp3") (holding None)).
Proof.
  apply (proj1 (speechToText_unreadable_file K0 envNoFile "voice.mp3" "MP3"
                  (holding None))).
  reflexivity.
Defined.

Lemma aggregate_ignores_segments_witness :
  aggregate
    [ {| results := [ {| text := js "a"; normalized_text := js "A" |};
                      {| text := js "b"; normalized_text := js "B" |} ] |} ]
  = aggregate
      [ {| results := [ {| text := js "a"; normalized_text := js "A" |} ] |};
        {| results := [] |};
        {| results := [ {| text := js "b"; normalized_text := js "B" |} ] |} ].
Proof. apply aggregate_ignores_segments. reflexivity. Defined.

Lemma aggregate_joins_with_single_spaces_witness :
  SpeechToTextResult.text
    (aggregate
       [ {| results := [ {| text := js "a"; normalized_text := js "A" |} ] |};
         {| results := [ {| text := js "b"; normalized_text := js "B" |} ] |} ])
  = js "a" ++ List.concat (map (fun g => SPACE ++ text g)
                             [ {| text := js "b"; normalized_text := js "B" |} ]).
Proof.
  apply (proj1 (aggregate_joins_with_single_spaces
                  [ {| results := [ {| text := js "a"; normalized_text := js "A" |} ] |};
                    {| results := [ {| text := js "b"; normalized_text := js "B" |} ] |} ]
                  {| text := js "a"; normalized_text := js "A" |}
                  [ {| text := js "b"; normalized_text := js "B" |} ]
                  eq_refl)).
  split.
  - intros c s' H. cbn in H. now injection H as <- _.
  - intros s' c H. cbn in H.
    change [97%N; 32%N; 98%N] with ([97%N; 32%N] ++ [98%N]) in H.
    apply app_inj_tail in H. destruct H as [_ <-]. reflexivity.
Defined.
